(** * Auto service: search filter, optimistic update, create and delete

    A shallow embedding of the application core of the Auto web service
    (NestJS + Prisma): [WhereBuilder] (where-builder.ts), the read service
    [AutoService] (auto-service.ts), the write service [AutoWriteService]
    (auto-write-service.ts), the mapping from DTO to service input of the
    REST controller (auto-write-controller.ts) and of the GraphQL
    resolver [AutoMutationResolver], and the schema of create-table.sql.

    JavaScript values are a small tagged union and objects are
    association lists in property order. Table [auto] is a finite map
    from the primary key to the row. The asynchronous methods of the
    services are computations in a state-and-exception monad over the
    table and a log of the calls made to the persistence layer. What is
    outside the sources is a parameter of the development: the rules the
    database enforces on a written row, [new Date] and
    [Number.prototype.toString]. *)

From Stdlib Require Import QArith Ascii.
From stdpp Require Import gmap strings list fin_maps sorting.

Local Open Scope string_scope.

(* ===================================================================== *)
(** * The JavaScript runtime: numbers, strings, values *)
(* ===================================================================== *)

Module Js.

(** A JavaScript [number]. A finite number is given by the rational that
    its decimal numeral denotes: the numeral [Number.prototype.toString]
    writes, which is the shortest one that reads back as the same
    binary64 value. The order of the numbers is the order of these
    rationals, and they are what a number is compared with in the
    database. *)
Inductive number : Type :=
  | NaN
  | Infinity
  | NegInfinity
  | Finite (q : Q).

#[global] Instance Q_eq_dec : EqDecision Q.
Proof. solve_decision. Defined.

#[global] Instance number_eq_dec : EqDecision number.
Proof. solve_decision. Defined.

Definition of_Z (z : Z) : number := Finite (inject_Z z).

(** [Number.isNaN] *)
Definition Number_isNaN (n : number) : bool :=
  match n with NaN => true | _ => false end.

(** The relational operators [<] and [<=] on numbers: every comparison
    with [NaN] is [false]. *)
Definition lt (a b : number) : bool :=
  match a, b with
  | NaN, _ | _, NaN => false
  | Infinity, _ => false
  | _, NegInfinity => false
  | NegInfinity, _ => true
  | _, Infinity => true
  | Finite x, Finite y => negb (Qle_bool y x)
  end.

Definition le (a b : number) : bool :=
  match a, b with
  | NaN, _ | _, NaN => false
  | _, Infinity => true
  | NegInfinity, _ => true
  | Infinity, _ => false
  | _, NegInfinity => false
  | Finite x, Finite y => Qle_bool x y
  end.

(** ** Reading a decimal as a binary64 number *)

(** [n / d] rounded to the nearest integer, ties to the even one; [n] is
    not negative and [d] is positive. *)
Definition round_even (n d : Z) : Z :=
  let q := (n / d)%Z in
  match (2 * (n mod d) ?= d)%Z with
  | Lt => q
  | Gt => (q + 1)%Z
  | Eq => if Z.even q then q else (q + 1)%Z
  end.

(** [b ^ p <= n / d], for a base [b] and an exponent [p] of any sign. *)
Definition pow_le (b p n d : Z) : bool :=
  if (0 <=? p)%Z then (d * b ^ p <=? n)%Z else (d <=? n * b ^ (- p))%Z.

(** [m * b ^ p] as a rational. *)
Definition scale (b m p : Z) : Q :=
  if (0 <=? p)%Z then inject_Z (m * b ^ p)
  else Qred (Qmake m (Z.to_pos (b ^ (- p)))).

(** The binary64 value nearest to the positive rational [n / d], ties to
    the even significand: 53 bits above the least exponent -1022, fewer
    below it. [None] when the value is beyond the largest finite
    number. *)
Definition binary64 (n d : Z) : option Q :=
  let e0 := (Z.log2 n - Z.log2 d)%Z in
  let e := if pow_le 2 e0 n d then e0 else (e0 - 1)%Z in
  let s := (Z.max e (-1022) - 52)%Z in
  let m :=
    if (0 <=? s)%Z then round_even n (d * 2 ^ s)
    else round_even (n * 2 ^ (- s)) d in
  if ((0 <=? s) && (2 ^ 1024 <=? m * 2 ^ s))%Z then None
  else Some (scale 2 m s).

(** The least [p] from [p0] on with [n / d < 10 ^ p]. *)
Fixpoint digits_before_point (fuel : nat) (p0 n d : Z) : Z :=
  match fuel with
  | O => p0
  | S fuel' =>
      if pow_le 10 p0 n d then digits_before_point fuel' (p0 + 1)%Z n d
      else p0
  end.

(** The shortest decimal that reads back as the binary64 value [v],
    which is positive: among the decimals with [k] significant digits,
    for the least [k] that has one, the one nearest to [v]. *)
Fixpoint shortest_decimal (fuel : nat) (k p : Z) (v : Q) : Q :=
  match fuel with
  | O => v
  | S fuel' =>
      let x := (p - k)%Z in
      let n := Qnum v in
      let d := Zpos (Qden v) in
      let lo :=
        if (0 <=? x)%Z then (n / (d * 10 ^ x))%Z
        else (n * 10 ^ (- x) / d)%Z in
      let c1 := scale 10 lo x in
      let c2 := scale 10 (lo + 1) x in
      let back c :=
        match binary64 (Qnum c) (Zpos (Qden c)) with
        | Some v' => Qeq_bool v' v
        | None => false
        end in
      let ok1 := ((0 <? lo)%Z && back c1)%bool in
      let ok2 := back c2 in
      if (ok1 && ok2)%bool then
        match Qcompare (v - c1) (c2 - v) with
        | Lt => c1
        | Gt => c2
        | Eq => if Z.even lo then c1 else c2
        end
      else if ok1 then c1
      else if ok2 then c2
      else shortest_decimal fuel' (k + 1)%Z p v
  end.

(** The number a decimal with the exact value [q] is read as. *)
Definition read_decimal (q : Q) : number :=
  let n := Z.abs (Qnum q) in
  let d := Zpos (Qden q) in
  if (n =? 0)%Z then Finite 0
  else
    match binary64 n d with
    | None => if (Qnum q <? 0)%Z then NegInfinity else Infinity
    | Some v =>
        if (Qnum v =? 0)%Z then Finite 0
        else
          let p0 :=
            ((Z.log2 (Qnum v) - Z.log2 (Zpos (Qden v))) * 1233 / 4096 - 3)%Z in
          let p := digits_before_point 8 p0 (Qnum v) (Zpos (Qden v)) in
          let r := shortest_decimal 17 1 p v in
          Finite (if (Qnum q <? 0)%Z then Qred (- r) else r)
    end.

(** ** Characters and strings (ASCII text) *)

Definition dquote : ascii := "034"%char.

(** The token ["<digits>"] with its two double quotes. *)
Definition quoted (s : string) : string :=
  String dquote (s +:+ String dquote "").

Definition is_digit (c : ascii) : bool :=
  let n := nat_of_ascii c in (48 <=? n)%nat && (n <=? 57)%nat.

Definition digit_value (c : ascii) : Z := Z.of_nat (nat_of_ascii c - 48).

Fixpoint all_digits (s : string) : bool :=
  match s with
  | EmptyString => true
  | String c s' => is_digit c && all_digits s'
  end.

(** A string that does not begin with a digit. *)
Definition no_leading_digit (s : string) : Prop :=
  match s with
  | EmptyString => True
  | String c _ => is_digit c = false
  end.

(** White space and line terminators of the ASCII range. *)
Definition is_white (c : ascii) : bool :=
  let n := nat_of_ascii c in
  ((9 <=? n)%nat && (n <=? 13)%nat) || (n =? 32)%nat.

Definition to_lower (c : ascii) : ascii :=
  let n := nat_of_ascii c in
  if (65 <=? n)%nat && (n <=? 90)%nat then ascii_of_nat (n + 32) else c.

Definition to_upper (c : ascii) : ascii :=
  let n := nat_of_ascii c in
  if (97 <=? n)%nat && (n <=? 122)%nat then ascii_of_nat (n - 32) else c.

Fixpoint map_string (f : ascii -> ascii) (s : string) : string :=
  match s with
  | EmptyString => EmptyString
  | String c s' => String (f c) (map_string f s')
  end.

(** [String.prototype.toLowerCase] and [toUpperCase] *)
Definition toLowerCase : string -> string := map_string to_lower.
Definition toUpperCase : string -> string := map_string to_upper.

Fixpoint trimStart (s : string) : string :=
  match s with
  | String c s' => if is_white c then trimStart s' else s
  | EmptyString => EmptyString
  end.

(** [String.prototype.trim] *)
Definition trim (s : string) : string :=
  String.rev (trimStart (String.rev (trimStart s))).

(** [String.prototype.slice (from, to)], negative indices counting from
    the end of the string. *)
Definition slice (from to : Z) (s : string) : string :=
  let len := Z.of_nat (String.length s) in
  let clamp i := if (i <? 0)%Z then Z.max (len + i) 0 else Z.min i len in
  let a := clamp from in
  let b := clamp to in
  String.substring (Z.to_nat a) (Z.to_nat (b - a)) s.

(** [String.prototype.startsWith] *)
Definition startsWith (p s : string) : bool := String.prefix p s.

(** [String.prototype.includes]: [p] occurs somewhere in [s]. *)
Fixpoint includes (p s : string) : bool :=
  String.prefix p s ||
  match s with
  | EmptyString => false
  | String _ s' => includes p s'
  end.

(** The operator [LIKE] of the database: in the pattern an underscore
    stands for any one character, a percent sign for any sequence of
    characters, and a backslash makes the character behind it stand for
    itself. *)
Fixpoint like (pattern : string) : string -> bool :=
  match pattern with
  | EmptyString =>
      fun s => match s with EmptyString => true | _ => false end
  | String c rest =>
      if Ascii.eqb c "%" then
        fix any (s : string) : bool :=
          like rest s ||
          match s with
          | EmptyString => false
          | String _ s' => any s'
          end
      else if Ascii.eqb c "_" then
        fun s =>
          match s with
          | EmptyString => false
          | String _ s' => like rest s'
          end
      else if Ascii.eqb c "\" then
        match rest with
        | EmptyString => fun _ => false
        | String e rest' =>
            fun s =>
              match s with
              | EmptyString => false
              | String d s' => Ascii.eqb e d && like rest' s'
              end
        end
      else
        fun s =>
          match s with
          | EmptyString => false
          | String d s' => Ascii.eqb c d && like rest s'
          end
  end.

(** A character that stands for itself in a [LIKE] pattern. *)
Definition plain (c : ascii) : bool :=
  negb (Ascii.eqb c "%" || Ascii.eqb c "_" || Ascii.eqb c "\").

Fixpoint all_plain (s : string) : bool :=
  match s with
  | EmptyString => true
  | String c s' => plain c && all_plain s'
  end.

(** ** Parsing numbers *)

(** The longest prefix of decimal digits, and what follows it. *)
Fixpoint span_digits (s : string) : string * string :=
  match s with
  | String c s' =>
      if is_digit c
      then let '(ds, r) := span_digits s' in (String c ds, r)
      else (EmptyString, s)
  | EmptyString => (EmptyString, EmptyString)
  end.

Fixpoint digits_value_from (acc : Z) (ds : string) : Z :=
  match ds with
  | EmptyString => acc
  | String c ds' => digits_value_from (10 * acc + digit_value c) ds'
  end.

Definition digits_value : string -> Z := digits_value_from 0.

(** An optional sign: is it a minus, and what follows it. *)
Definition split_sign (s : string) : bool * string :=
  match s with
  | String "-" s' => (true, s')
  | String "+" s' => (false, s')
  | _ => (false, s)
  end.

Definition signed (neg : bool) (z : Z) : Z := if neg then (- z)%Z else z.

(** [Number.parseInt (s, 10)]: leading white space is skipped, then an
    optional sign and the longest run of decimal digits are read; [NaN]
    when there is no digit. *)
Definition parseInt10 (s : string) : number :=
  let '(neg, s1) := split_sign (trimStart s) in
  let '(ds, _) := span_digits s1 in
  match ds with
  | EmptyString => NaN
  | _ => read_decimal (inject_Z (signed neg (digits_value ds)))
  end.

(** [m * 10^e] as a rational. *)
Definition scale10 (m e : Z) : Q :=
  if (0 <=? e)%Z then inject_Z (m * 10 ^ e)
  else Qmake m (Z.to_pos (10 ^ (- e))).

Definition exponent_part (s : string) : Z :=
  match s with
  | String c s' =>
      if (Ascii.eqb c "e" || Ascii.eqb c "E")%bool
      then let '(neg, s2) := split_sign s' in
           let '(ds, _) := span_digits s2 in
           match ds with
           | EmptyString => 0%Z
           | _ => signed neg (digits_value ds)
           end
      else 0%Z
  | EmptyString => 0%Z
  end.

(** [Number.parseFloat (s)]: the longest prefix of the trimmed string
    that is a decimal literal ([Infinity], or digits with an optional
    fraction and exponent); [NaN] when there is none. *)
Definition parseFloatStr (s : string) : number :=
  let '(neg, s1) := split_sign (trimStart s) in
  if String.prefix "Infinity" s1
  then (if neg then NegInfinity else Infinity)
  else
    let '(ip, r1) := span_digits s1 in
    let '(fp, r2) :=
      match r1 with
      | String "." r => span_digits r
      | _ => (EmptyString, r1)
      end in
    match ip +:+ fp with
    | EmptyString => NaN
    | ds =>
        read_decimal (scale10 (signed neg (digits_value ds))
                        (exponent_part r2 - Z.of_nat (String.length fp)))
    end.

(** ** Values *)

(** The values a search parameter can hold at run time. *)
Inductive value : Type :=
  | VUndefined
  | VNull
  | VBoolean (b : bool)
  | VNumber (n : number)
  | VString (s : string).

(** The conversion [Boolean (v)]. *)
Definition ToBoolean (v : value) : bool :=
  match v with
  | VUndefined | VNull => false
  | VBoolean b => b
  | VNumber NaN => false
  | VNumber (Finite q) => negb (Qeq_bool q 0)
  | VNumber _ => true
  | VString s => negb (String.eqb s "")
  end.

(** ** Regular expressions

    The fragment used by the patterns of the services: a literal
    character, [\d], concatenation and bounded repetition [r{lo,hi}]. *)
Inductive regex : Type :=
  | Chr (c : ascii)
  | Digit
  | Cat (r1 r2 : regex)
  | Rep (r : regex) (lo hi : nat).

(** All the ways [r] can match a prefix of [s]: the list of what remains
    of [s] after each match. *)
Fixpoint rests (r : regex) (s : string) : list string :=
  match r with
  | Chr c =>
      match s with
      | String a s' => if Ascii.eqb a c then [s'] else []
      | EmptyString => []
      end
  | Digit =>
      match s with
      | String a s' => if is_digit a then [s'] else []
      | EmptyString => []
      end
  | Cat r1 r2 => flat_map (rests r2) (rests r1 s)
  | Rep r0 lo hi =>
      (fix rep (lo hi : nat) (s : string) {struct hi} : list string :=
         ((if (lo =? 0)%nat then [s] else []) ++
          match hi with
          | O => []
          | S hi' => flat_map (rep (Nat.pred lo) hi') (rests r0 s)
          end)%list) lo hi s
  end.

(** [/^r/.test (s)]: the pattern is anchored at the start of the string
    only, so anything may follow the match. *)
Definition test_anchored_start (r : regex) (s : string) : bool :=
  match rests r s with [] => false | _ => true end.

(** [/^r$/.test (s)]: anchored at both ends. *)
Definition test_anchored_both (r : regex) (s : string) : bool :=
  existsb (String.eqb "") (rests r s).

End Js.

Import Js.

(* ===================================================================== *)
(** * The persisted schema (create-table.sql) *)
(* ===================================================================== *)

(** [CREATE TYPE autoart AS ENUM ('COUPE', 'LIMO', 'KOMBI')] *)
Inductive autoart : Type := COUPE | LIMO | KOMBI.

Definition autoart_name (a : autoart) : string :=
  match a with COUPE => "COUPE" | LIMO => "LIMO" | KOMBI => "KOMBI" end.

(** A row of table [bild]. *)
Record bild : Type := {
  beschriftung : string;
  content_type : string;
}.

(** A row of table [auto] together with the rows it owns: the label of
    its [modell] row and its [bild] rows, which are created with it and
    removed with it ([ON DELETE CASCADE]). Dates are time values in
    milliseconds; the two time stamps of the table are left out. *)
Record auto : Type := {
  id : Z;
  version : Z;
  fgnr : string;
  art : option autoart;
  preis : Q;
  rabatt : Z;
  lieferbar : bool;
  datum : option Z;
  schlagwoerter : option (list string);
  modell : option string;
  bilder : list bild;
}.

(* ===================================================================== *)
(** * Inputs of the persistence layer *)
(* ===================================================================== *)

(** [Prisma.autoCreateInput] *)
Module AutoCreate.
Record t : Type := {
  version : option Z;
  fgnr : option string;
  art : option autoart;
  preis : number;
  rabatt : number;
  lieferbar : bool;
  datum : option number;
  schlagwoerter : option (list string);
  modell : option string;
  bild : list bild;
}.
End AutoCreate.

(** An update operation on an integer column. *)
Inductive intFieldUpdate : Type :=
  | set (n : Z)
  | increment (n : Z).

(** [Prisma.autoUpdateInput]: an absent field leaves the column as it is. *)
Module AutoUpdate.
Record t : Type := {
  version : option intFieldUpdate;
  fgnr : option string;
  art : option (option autoart);
  preis : option number;
  rabatt : option number;
  lieferbar : option bool;
  datum : option (option number);
  schlagwoerter : option (list string);
}.

(** The assignment [auto.version = v]. *)
Definition with_version (v : intFieldUpdate) (a : t) : t :=
  {| version := Some v; fgnr := fgnr a; art := art a; preis := preis a;
     rabatt := rabatt a; lieferbar := lieferbar a; datum := datum a;
     schlagwoerter := schlagwoerter a |}.
End AutoUpdate.

(** A filter on a string column. *)
Inductive stringFilter : Type :=
  | equals (v : value)
  | startsWith (v : value)
  | contains_insensitive (v : value).

(** [autoWhereInput], with the fields the services set. The operand of
    [preis] is the bound of [lte], those of [rabatt] and [datum] are the
    bounds of [gte], [schlagwoerter] is the operand of [has]. *)
Module Where.
Record t : Type := {
  modell : option stringFilter;
  fgnr : option stringFilter;
  preis : option number;
  rabatt : option number;
  art : option value;
  lieferbar : option bool;
  datum : option number;
  schlagwoerter : option string;
}.

Definition empty : t :=
  {| modell := None; fgnr := None; preis := None; rabatt := None;
     art := None; lieferbar := None; datum := None;
     schlagwoerter := None |}.

Definition set_modell f (w : t) : t :=
  {| modell := Some f; fgnr := fgnr w; preis := preis w;
     rabatt := rabatt w; art := art w; lieferbar := lieferbar w;
     datum := datum w; schlagwoerter := schlagwoerter w |}.
Definition set_fgnr f (w : t) : t :=
  {| modell := modell w; fgnr := Some f; preis := preis w;
     rabatt := rabatt w; art := art w; lieferbar := lieferbar w;
     datum := datum w; schlagwoerter := schlagwoerter w |}.
Definition set_preis n (w : t) : t :=
  {| modell := modell w; fgnr := fgnr w; preis := Some n;
     rabatt := rabatt w; art := art w; lieferbar := lieferbar w;
     datum := datum w; schlagwoerter := schlagwoerter w |}.
Definition set_rabatt n (w : t) : t :=
  {| modell := modell w; fgnr := fgnr w; preis := preis w;
     rabatt := Some n; art := art w; lieferbar := lieferbar w;
     datum := datum w; schlagwoerter := schlagwoerter w |}.
Definition set_art v (w : t) : t :=
  {| modell := modell w; fgnr := fgnr w; preis := preis w;
     rabatt := rabatt w; art := Some v; lieferbar := lieferbar w;
     datum := datum w; schlagwoerter := schlagwoerter w |}.
Definition set_lieferbar b (w : t) : t :=
  {| modell := modell w; fgnr := fgnr w; preis := preis w;
     rabatt := rabatt w; art := art w; lieferbar := Some b;
     datum := datum w; schlagwoerter := schlagwoerter w |}.
Definition set_datum d (w : t) : t :=
  {| modell := modell w; fgnr := fgnr w; preis := preis w;
     rabatt := rabatt w; art := art w; lieferbar := lieferbar w;
     datum := Some d; schlagwoerter := schlagwoerter w |}.
Definition set_schlagwoerter s (w : t) : t :=
  {| modell := modell w; fgnr := fgnr w; preis := preis w;
     rabatt := rabatt w; art := art w; lieferbar := lieferbar w;
     datum := datum w; schlagwoerter := Some s |}.
End Where.

(** ** What a where-clause selects *)

Definition string_filter_ok (f : stringFilter) : bool :=
  match f with
  | equals (VString _) | startsWith (VString _)
  | contains_insensitive (VString _) => true
  | _ => false
  end.

(** Prisma hands [startsWith] and [contains] to the database as
    [LIKE] patterns made of the operand and a percent sign, without
    escaping the operand; [mode: insensitive] makes it [ILIKE], which
    compares in lower case. *)
Definition string_filter_matches (f : stringFilter) (s : string) : bool :=
  match f with
  | equals (VString p) => String.eqb p s
  | startsWith (VString p) => like (p +:+ "%") s
  | contains_insensitive (VString p) =>
      like (toLowerCase ("%" +:+ p +:+ "%")) (toLowerCase s)
  | _ => false
  end.

Definition on_some {A} (p : A -> bool) (o : option A) : bool :=
  match o with Some a => p a | None => true end.

Definition is_finite (n : number) : bool :=
  match n with Finite _ => true | _ => false end.

(** An integer that fits the 32 bits of a column of type [integer]. *)
Definition is_int32 (n : number) : bool :=
  match n with
  | Finite q =>
      let r := Qred q in
      Pos.eqb (Qden r) 1 &&
      (- 2147483648 <=? Qnum r)%Z && (Qnum r <=? 2147483647)%Z
  | _ => false
  end.

(** The client refuses a where-clause whose string operands are not
    strings, whose price is not a finite number, whose discount is not
    an integer of 32 bits or whose date is invalid. *)
Definition where_ok (w : Where.t) : bool :=
  on_some string_filter_ok (Where.modell w) &&
  on_some string_filter_ok (Where.fgnr w) &&
  on_some is_finite (Where.preis w) &&
  on_some is_int32 (Where.rabatt w) &&
  on_some (fun d => negb (Number_isNaN d)) (Where.datum w).

Definition art_matches (v : value) (a : option autoart) : bool :=
  match v, a with
  | VUndefined, _ => true
  | VNull, None => true
  | VString s, Some a => String.eqb s (autoart_name a)
  | _, _ => false
  end.

(** Does row [r] satisfy every condition of [w]? *)
Definition matches (w : Where.t) (r : auto) : bool :=
  on_some (fun f => match modell r with
                    | Some m => string_filter_matches f m
                    | None => false
                    end) (Where.modell w) &&
  on_some (fun f => string_filter_matches f (fgnr r)) (Where.fgnr w) &&
  on_some (fun n => le (Finite (preis r)) n) (Where.preis w) &&
  on_some (fun n => le n (of_Z (rabatt r))) (Where.rabatt w) &&
  on_some (fun v => art_matches v (art r)) (Where.art w) &&
  on_some (fun b => Bool.eqb b (lieferbar r)) (Where.lieferbar w) &&
  on_some (fun d => match datum r with
                    | Some t => le d (of_Z t)
                    | None => false
                    end) (Where.datum w) &&
  on_some (fun s => match schlagwoerter r with
                    | Some l => existsb (String.eqb s) l
                    | None => false
                    end) (Where.schlagwoerter w).

(* ===================================================================== *)
(** * Exceptions, the state of the system, computations *)
(* ===================================================================== *)

(** [{ number, size }] *)
Record Pageable : Type := {
  number : nat;
  size : nat;
}.

(** A search parameter object: its own properties in property order. *)
Definition Suchparameter : Type := list (string * value).

(** The message of a [NotFoundException]. *)
Inductive notFound : Type :=
  | KeinAutoMitDerId (id : option Z)
  | UngueltigeSuchparameter
  | KeineAutosGefunden (suchparameter : Suchparameter) (seite : nat)
  | UngueltigeSeite (seite : nat).

(** Why the persistence layer rejected a call. *)
Inductive prismaError : Type :=
  | ValidationError
  | ConstraintFailed
  | RecordNotFound.

Inductive exception : Type :=
  | NotFoundException (msg : notFound)
  | FgnrExistsException (fgnr : string)
  | VersionInvalidException (version : string)
  | VersionOutdatedException (version : Js.number)
  | PrismaClientError (e : prismaError)
  | TypeErrorException.

(** The calls the services make to the persistence layer and to the
    mail service. *)
Inductive call : Type :=
  | auto_findUnique (id : Z)
  | auto_findMany (w : option Where.t) (skip take : nat)
  | auto_count (w : option Where.t)
  | auto_create (data : AutoCreate.t)
  | auto_update (id : Z) (data : AutoUpdate.t)
  | auto_delete (id : Z)
  | sendmail (id : Js.number) (modell : string).

(** The state: table [auto] keyed by its primary key, the next value of
    the identity column, and the calls made so far, latest first. *)
Record world : Type := {
  autos : gmap Z auto;
  next_id : Z;
  calls : list call;
}.

Definition log (c : call) (w : world) : world :=
  {| autos := autos w; next_id := next_id w; calls := c :: calls w |}.

Definition with_autos (t : gmap Z auto) (w : world) : world :=
  {| autos := t; next_id := next_id w; calls := calls w |}.

Inductive outcome (A : Type) : Type :=
  | Return (a : A)
  | Throw (e : exception).
Arguments Return {A} a.
Arguments Throw {A} e.

(** An [async] method: it runs on a state and either returns or throws. *)
Definition M (A : Type) : Type := world -> outcome A * world.

Definition ret {A} (a : A) : M A := fun w => (Return a, w).

Definition throw {A} (e : exception) : M A := fun w => (Throw e, w).

Definition bind {A B} (m : M A) (k : A -> M B) : M B :=
  fun w =>
    match m w with
    | (Return a, w') => k a w'
    | (Throw e, w') => (Throw e, w')
    end.

#[global] Instance M_ret : MRet M := @ret.
#[global] Instance M_bind : MBind M := fun A B k m => bind m k.

(** [$transaction (body)]: when [body] throws, its changes of the table
    are undone. *)
Definition transaction {A} (body : M A) : M A :=
  fun w =>
    match body w with
    | (Return a, w') => (Return a, w')
    | (Throw e, w') => (Throw e, with_autos (autos w) w')
    end.

(** The rows of the table, in the order the database returns them to
    a [findMany] with [skip] and [take]: by ascending primary key. *)
Definition key_le (a b : Z * auto) : Prop := (a.1 <= b.1)%Z.

#[global] Instance key_le_dec : RelDecision key_le.
Proof. intros a b. unfold key_le. apply _. Defined.

Definition rows (w : world) : list auto :=
  (merge_sort key_le (map_to_list (autos w))).*2.

Definition selected (wh : option Where.t) (w : world) : list auto :=
  match wh with
  | Some x => List.filter (matches x) (rows w)
  | None => rows w
  end.

Definition checked {A} (wh : option Where.t) (m : M A) : M A :=
  match wh with
  | Some x =>
      if where_ok x then m else throw (PrismaClientError ValidationError)
  | None => m
  end.

(** [auto.findUnique ({ where: { id } })] *)
Definition findUnique (i : Z) : M (option auto) :=
  fun w => (Return (autos w !! i), log (auto_findUnique i) w).

(** [auto.findMany ({ where, skip, take })] *)
Definition findMany (wh : option Where.t) (skip take : nat)
  : M (list auto) :=
  fun w =>
    checked wh (ret (firstn take (skipn skip (selected wh w))))
            (log (auto_findMany wh skip take) w).

(** [auto.count ({ where })] *)
Definition count_where (wh : option Where.t) : M nat :=
  fun w =>
    checked wh (ret (length (selected wh w))) (log (auto_count wh) w).

(** ** Writing rows *)

(** What a column of type [decimal(8,2)] stores for a number: its value
    rounded to two decimals, a tie away from zero. Nothing for a number
    that is not finite. *)
Definition stored_decimal (n : Js.number) : option Q :=
  match n with
  | Finite q =>
      let c := ((200 * Z.abs (Qnum q) + Zpos (Qden q)) /
                (2 * Zpos (Qden q)))%Z in
      Some (Qred (Qmake (if (Qnum q <? 0)%Z then (- c)%Z else c) 100))
  | _ => None
  end.

(** What a column of type [integer] stores for a number: its integer
    part. *)
Definition stored_integer (n : Js.number) : option Z :=
  match n with
  | Finite q => Some (Z.quot (Qnum q) (Zpos (Qden q)))
  | _ => None
  end.

(** The integer a number is, if it is one. *)
Definition integer (n : Js.number) : option Z :=
  match n with
  | Finite q =>
      let r := Qred q in
      if Pos.eqb (Qden r) 1 then Some (Qnum r) else None
  | _ => None
  end.

(** What a column of type [date] stores for a [Date]: the time value of
    the start of its day. Nothing for an invalid date. *)
Definition date (d : option Js.number) : option (option Z) :=
  match d with
  | None => Some None
  | Some t =>
      (fun ms => Some (86400000 * (ms / 86400000))%Z) <$> integer t
  end.

(** The row [auto.create] inserts for [data] under primary key [i]:
    [version] has the column default 0. [None] when a value does not fit
    its column. *)
Definition created_row (i : Z) (data : AutoCreate.t) : option auto :=
  f ← AutoCreate.fgnr data;
  p ← stored_decimal (AutoCreate.preis data);
  r ← stored_integer (AutoCreate.rabatt data);
  d ← date (AutoCreate.datum data);
  Some {| id := i;
          version := default 0%Z (AutoCreate.version data);
          fgnr := f;
          art := AutoCreate.art data;
          preis := p;
          rabatt := r;
          lieferbar := AutoCreate.lieferbar data;
          datum := d;
          schlagwoerter := AutoCreate.schlagwoerter data;
          modell := AutoCreate.modell data;
          bilder := AutoCreate.bild data |}.

Definition update_int (op : option intFieldUpdate) (old : Z) : Z :=
  match op with
  | None => old
  | Some (set n) => n
  | Some (increment n) => (old + n)%Z
  end.

Definition or_old {A B} (f : A -> option B) (new : option A) (old : B)
  : option B :=
  match new with None => Some old | Some a => f a end.

(** The row [auto.update] writes in place of [r]. *)
Definition updated_row (data : AutoUpdate.t) (r : auto) : option auto :=
  p ← or_old stored_decimal (AutoUpdate.preis data) (preis r);
  b ← or_old stored_integer (AutoUpdate.rabatt data) (rabatt r);
  d ← or_old date (AutoUpdate.datum data) (datum r);
  Some {| id := id r;
          version := update_int (AutoUpdate.version data) (version r);
          fgnr := default (fgnr r) (AutoUpdate.fgnr data);
          art := default (art r) (AutoUpdate.art data);
          preis := p;
          rabatt := b;
          lieferbar := default (lieferbar r) (AutoUpdate.lieferbar data);
          datum := d;
          schlagwoerter :=
            match AutoUpdate.schlagwoerter data with
            | Some l => Some l
            | None => schlagwoerter r
            end;
          modell := modell r;
          bilder := bilder r |}.

(** The integrity rules of create-table.sql for the columns of table
    [auto]: [fgnr] is [UNIQUE] and [rabatt] satisfies its [CHECK]. The
    first argument holds the other rows of the table. *)
Definition schema_constraints (others : gmap Z auto) (r : auto) : bool :=
  forallb (fun o => negb (String.eqb (fgnr o) (fgnr r)))
          (map_to_list others).*2 &&
  (0 <=? rabatt r)%Z && (rabatt r <=? 100)%Z.

(** ** Parameters of the write service and DTOs *)

(** [UpdateParams] *)
Module UpdateParams.
Record t : Type := {
  id : option Z;
  auto : AutoUpdate.t;
  version : string;
}.
End UpdateParams.

(** [BildDTO] *)
Record BildDTO : Type := {
  dto_beschriftung : string;
  contentType : string;
}.

(** The date of a DTO: a string, or a [Date] with its time value. *)
Inductive dtoDatum : Type :=
  | datum_string (s : string)
  | datum_Date (t : Js.number).

(** [AutoDTO]: the validated properties, a [BigNumber] given by the
    number it converts to, and whatever further properties the request
    body has, such as a [version]. *)
Module AutoDTO.
Record t : Type := {
  fgnr : string;
  art : option autoart;
  preis : Js.number;
  rabatt : option Js.number;
  lieferbar : option bool;
  datum : option dtoDatum;
  schlagwoerter : option (list string);
  modell : option string;
  bilder : option (list BildDTO);
  further : list (string * value);
}.
End AutoDTO.

Section Application.

(** What the database enforces when a row is written next to the other
    rows of the table: the rules of [schema_constraints] and the ranges
    of the column types. *)
Variable accepts : gmap Z auto -> auto -> bool.

(** [new Date (s)] as a time value, [NaN] for an invalid date. *)
Variable new_Date : value -> Js.number.

(** [Number.prototype.toString] *)
Variable Number_toString : Js.number -> string.

(** [tx.auto.create ({ data })] *)
Definition create_row (data : AutoCreate.t) : M auto :=
  fun w =>
    let w1 := log (auto_create data) w in
    match created_row (next_id w) data with
    | None => (Throw (PrismaClientError ValidationError), w1)
    | Some r =>
        let w2 := {| autos := autos w1; next_id := (next_id w1 + 1)%Z;
                     calls := calls w1 |} in
        if accepts (autos w) r && bool_decide (autos w !! id r = None)
        then (Return r, with_autos (<[id r := r]> (autos w)) w2)
        else (Throw (PrismaClientError ConstraintFailed), w2)
    end.

(** [tx.auto.update ({ data, where: { id } })] *)
Definition update_row (i : Z) (data : AutoUpdate.t) : M auto :=
  fun w =>
    let w1 := log (auto_update i data) w in
    match autos w !! i with
    | None => (Throw (PrismaClientError RecordNotFound), w1)
    | Some old =>
        match updated_row data old with
        | None => (Throw (PrismaClientError ValidationError), w1)
        | Some r =>
            if accepts (delete i (autos w)) r
            then (Return r, with_autos (<[i := r]> (autos w)) w1)
            else (Throw (PrismaClientError ConstraintFailed), w1)
        end
    end.

(** [tx.auto.delete ({ where: { id } })] *)
Definition delete_row (i : Z) : M auto :=
  fun w =>
    let w1 := log (auto_delete i) w in
    match autos w !! i with
    | None => (Throw (PrismaClientError RecordNotFound), w1)
    | Some old => (Return old, with_autos (delete i (autos w)) w1)
    end.

(* ===================================================================== *)
(** * WhereBuilder (where-builder.ts) *)
(* ===================================================================== *)

(** The conversion of a value to a string, as [parseFloat] and
    [parseInt] apply it to their argument. *)
Definition ToString (v : value) : string :=
  match v with
  | VUndefined => "undefined"
  | VNull => "null"
  | VBoolean true => "true"
  | VBoolean false => "false"
  | VNumber n => Number_toString n
  | VString s => s
  end.

Definition parseFloat (v : value) : Js.number := parseFloatStr (ToString v).
Definition parseInt (v : value) : Js.number := parseInt10 (ToString v).

(** Reading property [key] of an object. *)
Definition get (key : string) (o : Suchparameter) : value :=
  match List.find (fun kv => String.eqb kv.1 key) o with
  | Some kv => kv.2
  | None => VUndefined
  end.

(** The rest of an object after property [key] is taken out of it. *)
Definition without (key : string) (o : Suchparameter) : Suchparameter :=
  List.filter (fun kv => negb (String.eqb kv.1 key)) o.

(** A method call on a value that has no such method. *)
Inductive TypeError : Type := not_a_function.

(** [#buildSchlagwoerter] *)
Definition buildSchlagwoerter (schlagwort : value)
  : TypeError + option string :=
  match schlagwort with
  | VUndefined => inr None
  | VString s =>
      if String.eqb (trim s) "" then inr None else inr (Some (toUpperCase s))
  | _ => inl not_a_function
  end.

(** The body of the loop over [Object.entries (restProps)]: the [switch]
    on the key. *)
Definition build_entry (w : Where.t) (entry : string * value) : Where.t :=
  let '(key, value) := entry in
  if String.eqb key "modell" then
    Where.set_modell (contains_insensitive value) w
  else if String.eqb key "fgnr" then
    Where.set_fgnr (startsWith value) w
  else if String.eqb key "preis" then
    let preisNumber := parseFloat value in
    if negb (Number_isNaN preisNumber)
    then Where.set_preis preisNumber w
    else w
  else if String.eqb key "rabatt" then
    let rabattNumber := parseInt value in
    if negb (Number_isNaN rabattNumber)
    then Where.set_rabatt rabattNumber w
    else w
  else if String.eqb key "art" then
    Where.set_art value w
  else if String.eqb key "lieferbar" then
    let boolValue :=
      match value with
      | VString s => String.eqb (toLowerCase s) "true"
      | _ => ToBoolean value
      end in
    Where.set_lieferbar boolValue w
  else if String.eqb key "datum" then
    Where.set_datum (new_Date value) w
  else w.

(** What the loop of [build] does to the where-clause for the key
    [preis] and for the key [rabatt]. *)
Definition preis_entry (v : value) (w : Where.t) : Where.t :=
  build_entry w ("preis", v).

Definition rabatt_entry (v : value) (w : Where.t) : Where.t :=
  build_entry w ("rabatt", v).

(** [WhereBuilder.build] *)
Definition build (suchparameter : Suchparameter) : TypeError + Where.t :=
  let schlagwort := get "schlagwort" suchparameter in
  let restProps := without "schlagwort" suchparameter in
  let where_ := fold_left build_entry restProps Where.empty in
  match buildSchlagwoerter schlagwort with
  | inl e => inl e
  | inr None => inr where_
  | inr (Some schlagwoerter) =>
      inr (Where.set_schlagwoerter schlagwoerter where_)
  end.

(* ===================================================================== *)
(** * AutoService (auto-service.ts) *)
(* ===================================================================== *)

(** [{ content, totalElements }] *)
Record Slice : Type := {
  content : list auto;
  totalElements : nat;
}.

(** The names a search parameter may have. *)
Definition suchparameterNamen : list string :=
  ["fgnr"; "art"; "preis"; "rabatt"; "lieferbar"; "datum"; "schlagwort";
   "modell"].

(** [Array.prototype.includes] on an array of strings. *)
Definition array_includes (l : list string) (x : string) : bool :=
  existsb (String.eqb x) l.

(** [auto.schlagwoerter ??= []] *)
Definition schlagwoerter_or_empty (r : auto) : auto :=
  {| id := id r; version := version r; fgnr := fgnr r; art := art r;
     preis := preis r; rabatt := rabatt r; lieferbar := lieferbar r;
     datum := datum r;
     schlagwoerter := Some (default [] (schlagwoerter r));
     modell := modell r; bilder := bilder r |}.

(** A row loaded with [include: { modell: true }], that is without its
    [bild] rows. *)
Definition ohne_bilder (r : auto) : auto :=
  {| id := id r; version := version r; fgnr := fgnr r; art := art r;
     preis := preis r; rabatt := rabatt r; lieferbar := lieferbar r;
     datum := datum r; schlagwoerter := schlagwoerter r;
     modell := modell r; bilder := [] |}.

(** [AutoService.findById] *)
Definition findById (i : Z) (mitBilder : bool) : M auto :=
  auto ← findUnique i;
  match auto with
  | None => throw (NotFoundException (KeinAutoMitDerId (Some i)))
  | Some r =>
      let r := if mitBilder then r else ohne_bilder r in
      mret (schlagwoerter_or_empty r)
  end.

(** [AutoService.count] *)
Definition count : M nat := count_where None.

(** [#createSlice] *)
Definition createSlice (autos : list auto) (totalElements : nat) : Slice :=
  {| content := schlagwoerter_or_empty <$> autos;
     totalElements := totalElements |}.

(** [#findAll] *)
Definition findAll (pageable : Pageable) : M Slice :=
  autos ← findMany None (number pageable * size pageable) (size pageable);
  match autos with
  | [] => throw (NotFoundException (UngueltigeSeite (number pageable)))
  | _ =>
      totalElements ← count;
      mret (createSlice (ohne_bilder <$> autos) totalElements)
  end.

(** [#checkKeys] *)
Definition checkKeys (keys : list string) : bool :=
  fold_left
    (fun validKeys key =>
       if negb (array_includes suchparameterNamen key) then false
       else validKeys)
    keys true.

(** [#checkEnums] *)
Definition checkEnums (suchparameter : Suchparameter) : bool :=
  let art := get "art" suchparameter in
  match art with
  | VUndefined => true
  | VString s =>
      String.eqb s "COUPE" || String.eqb s "LIMO" || String.eqb s "KOMBI"
  | _ => false
  end.

(** [AutoService.find] *)
Definition find (suchparameter : option Suchparameter) (pageable : Pageable)
  : M Slice :=
  match suchparameter with
  | None => findAll pageable
  | Some suchparameter =>
      let keys := suchparameter.*1 in
      if (length keys =? 0)%nat then findAll pageable
      else if negb (checkKeys keys) || negb (checkEnums suchparameter)
      then throw (NotFoundException UngueltigeSuchparameter)
      else
        match build suchparameter with
        | inl _ => throw TypeErrorException
        | inr where_ =>
            autos ← findMany (Some where_)
                      (number pageable * size pageable) (size pageable);
            match autos with
            | [] =>
                throw (NotFoundException
                         (KeineAutosGefunden suchparameter (number pageable)))
            | _ =>
                totalElements ← count;
                mret (createSlice (ohne_bilder <$> autos) totalElements)
            end
        end
  end.

(* ===================================================================== *)
(** * AutoWriteService (auto-write-service.ts, kept in suchparameter.ts) *)
(* ===================================================================== *)

(** [/^"\d{1,3}"/u] *)
Definition VERSION_PATTERN : regex :=
  Cat (Chr dquote) (Cat (Rep Digit 1 3) (Chr dquote)).

(** [#sendmail]: the call of the mail service, with the id and the model
    name that subject and body are made of. Sending is taken to
    succeed. *)
Definition send_mail (i : Js.number) (modell : string) : M unit :=
  fun w => (Return tt, log (sendmail i modell) w).

(** [{ where: { fgnr } }] *)
Definition where_fgnr (f : string) : Where.t :=
  Where.set_fgnr (equals (VString f)) Where.empty.

(** [#validateCreate] *)
Definition validateCreate (auto : AutoCreate.t) : M unit :=
  match AutoCreate.fgnr auto with
  | None => mret tt
  | Some fgnr =>
      anzahl ← count_where (Some (where_fgnr fgnr));
      if (0 <? anzahl)%nat then throw (FgnrExistsException fgnr)
      else mret tt
  end.

(** [AutoWriteService.create]. The transaction either throws or leaves
    the inserted row in [autoDb]. *)
Definition create (auto : AutoCreate.t) : M Js.number :=
  validateCreate auto;;
  autoDb ← transaction (create_row auto);
  send_mail (of_Z (id autoDb)) (default "N/A" (modell autoDb));;
  mret (of_Z (id autoDb)).

(** [#validateUpdate] *)
Definition validateUpdate (i : Z) (versionStr : string) : M unit :=
  if negb (test_anchored_start VERSION_PATTERN versionStr)
  then throw (VersionInvalidException versionStr)
  else
    let version_ := parseInt10 (slice 1 (-1) versionStr) in
    autoDb ← findById i false;
    if lt version_ (of_Z (version autoDb))
    then throw (VersionOutdatedException version_)
    else mret tt.

(** [AutoWriteService.update] *)
Definition update (params : UpdateParams.t) : M Js.number :=
  match UpdateParams.id params with
  | None => throw (NotFoundException (KeinAutoMitDerId None))
  | Some i =>
      validateUpdate i (UpdateParams.version params);;
      let auto :=
        AutoUpdate.with_version (increment 1) (UpdateParams.auto params) in
      autoUpdated ← transaction (update_row i auto);
      mret (of_Z (version autoUpdated))
  end.

(** [AutoWriteService.delete]; [delete] itself names the removal of a
    key from a map. *)
Definition delete_ (i : Z) : M bool :=
  auto ← findUnique i;
  match auto with
  | None => mret false
  | Some _ =>
      transaction (delete_row i);;
      mret true
  end.

(* ===================================================================== *)
(** * From DTO to the input of the service *)
(* ===================================================================== *)

(** The [datumValue] of both mappings. *)
Definition datumValue (d : option dtoDatum) : option Js.number :=
  match d with
  | None => None
  | Some (datum_string s) => Some (new_Date (VString s))
  | Some (datum_Date t) => Some t
  end.

Definition bild_of_dto (b : BildDTO) : bild :=
  {| beschriftung := dto_beschriftung b; content_type := contentType b |}.

(** [AutoWriteController.#autoDtoToAutoCreateInput] *)
Definition autoDtoToAutoCreateInput (autoDTO : AutoDTO.t) : AutoCreate.t :=
  let bilder :=
    default [] (fmap (M := list) bild_of_dto <$> AutoDTO.bilder autoDTO) in
  {| AutoCreate.version := Some 0%Z;
     AutoCreate.fgnr := Some (AutoDTO.fgnr autoDTO);
     AutoCreate.art := AutoDTO.art autoDTO;
     AutoCreate.preis := AutoDTO.preis autoDTO;
     AutoCreate.rabatt := default (of_Z 0) (AutoDTO.rabatt autoDTO);
     AutoCreate.lieferbar := default false (AutoDTO.lieferbar autoDTO);
     AutoCreate.datum := datumValue (AutoDTO.datum autoDTO);
     AutoCreate.schlagwoerter :=
       Some (default [] (AutoDTO.schlagwoerter autoDTO));
     AutoCreate.modell := AutoDTO.modell autoDTO;
     AutoCreate.bild := bilder |}.

(** [AutoWriteController.post], up to the response it sends. *)
Definition post (autoDTO : AutoDTO.t) : M Js.number :=
  create (autoDtoToAutoCreateInput autoDTO).

(** [AutoMutationResolver.#autoDtoToAutoCreate] *)
Definition autoDtoToAutoCreate (autoDTO : AutoDTO.t) : AutoCreate.t :=
  let bilder :=
    default [] (fmap (M := list) bild_of_dto <$> AutoDTO.bilder autoDTO) in
  {| AutoCreate.version := Some 0%Z;
     AutoCreate.fgnr := Some (AutoDTO.fgnr autoDTO);
     AutoCreate.art := AutoDTO.art autoDTO;
     AutoCreate.preis := AutoDTO.preis autoDTO;
     AutoCreate.rabatt := default (of_Z 0) (AutoDTO.rabatt autoDTO);
     AutoCreate.lieferbar := default false (AutoDTO.lieferbar autoDTO);
     AutoCreate.datum := datumValue (AutoDTO.datum autoDTO);
     AutoCreate.schlagwoerter :=
       Some (default [] (AutoDTO.schlagwoerter autoDTO));
     AutoCreate.modell := AutoDTO.modell autoDTO;
     AutoCreate.bild := bilder |}.

(** [AutoMutationResolver.create] *)
Definition mutation_create (autoDTO : AutoDTO.t) : M Js.number :=
  create (autoDtoToAutoCreate autoDTO).

End Application.

(** A history of [update] calls, each run on the state the one before
    left. *)
Definition run_updates (accepts : gmap Z auto -> auto -> bool)
    (history : list UpdateParams.t) (w : world) : world :=
  fold_left (fun w params => (update accepts params w).2) history w.

(* ===================================================================== *)
(** * A concrete runtime and a small database, for examples *)
(* ===================================================================== *)

Module Example.

(** Decimal digits of a natural number. *)
Fixpoint digits_of (fuel : nat) (n : N) (acc : string) : string :=
  match fuel with
  | O => acc
  | S fuel' =>
      let acc' := String (ascii_of_N (48 + n mod 10)) acc in
      if (n / 10 =? 0)%N then acc' else digits_of fuel' (n / 10)%N acc'
  end.

(** [Number.prototype.toString] on [NaN], the infinities and the
    integers below 10^21; the examples use no other number. *)
Definition Number_toString (n : Js.number) : string :=
  match n with
  | NaN => "NaN"
  | Infinity => "Infinity"
  | NegInfinity => "-Infinity"
  | Finite q =>
      let z := Qnum (Qred q) in
      (if (z <? 0)%Z then "-" else "") +:+
      digits_of 22 (Z.abs_N z) ""
  end.

(** Days from 1970-01-01 to the given civil date. *)
Definition days_from_civil (y m d : Z) : Z :=
  let y' := (if m <=? 2 then y - 1 else y)%Z in
  let era := (y' / 400)%Z in
  let yoe := (y' - era * 400)%Z in
  let mp := ((m + 9) mod 12)%Z in
  let doy := ((153 * mp + 2) / 5 + d - 1)%Z in
  let doe := (yoe * 365 + yoe / 4 - yoe / 100 + doy)%Z in
  (era * 146097 + doe - 719468)%Z.

(** [new Date (s)] for a date [YYYY-MM-DD]; every other argument is
    given as an invalid date here. *)
Definition new_Date (v : value) : Js.number :=
  match v with
  | VString s =>
      let y := String.substring 0 4 s in
      let m := String.substring 5 2 s in
      let d := String.substring 8 2 s in
      if (String.length s =? 10)%nat && all_digits (y +:+ m +:+ d)
         && String.eqb (String.substring 4 1 s) "-"
         && String.eqb (String.substring 7 1 s) "-"
         && (1 <=? digits_value m)%Z && (digits_value m <=? 12)%Z
         && (1 <=? digits_value d)%Z && (digits_value d <=? 31)%Z
      then of_Z (86400000 *
                 days_from_civil (digits_value y) (digits_value m)
                                 (digits_value d))
      else NaN
  | _ => NaN
  end.

Definition row (i v : Z) (f : string) (m : string) (p : Q) (rab : Z)
  : auto :=
  {| id := i; version := v; fgnr := f; art := Some COUPE; preis := p;
     rabatt := rab; lieferbar := true; datum := None;
     schlagwoerter := Some ["SPORT"]; modell := Some m; bilder := [] |}.

Definition bmw : auto := row 1000 3 "1-0001-6" "BMW" 44990 5.
Definition audi : auto := row 1001 0 "1-0002-6" "AUDI" 30000 10.
Definition alt : auto := row 1002 1000 "2-0003-6" "VW" 9000 0.

Definition db : world :=
  {| autos := <[1000%Z := bmw]> (<[1001%Z := audi]> (<[1002%Z := alt]> ∅));
     next_id := 1003; calls := [] |}.

Definition page0 : Pageable := {| number := 0; size := 5 |}.

Definition find_ := find new_Date Number_toString.
Definition update_ := update schema_constraints.
Definition create_ := create schema_constraints.

Definition daten : AutoUpdate.t :=
  {| AutoUpdate.version := None; AutoUpdate.fgnr := Some "1-0002-6";
     AutoUpdate.art := Some None; AutoUpdate.preis := Some (of_Z 100);
     AutoUpdate.rabatt := Some (of_Z 7); AutoUpdate.lieferbar := Some false;
     AutoUpdate.datum := Some None; AutoUpdate.schlagwoerter := Some [] |}.

Definition params (i : Z) (v : string) : UpdateParams.t :=
  {| UpdateParams.id := Some i; UpdateParams.auto := daten;
     UpdateParams.version := v |}.

(** Row 1001 after [daten] has been written with a version one higher. *)
Definition audi_neu : auto :=
  {| id := 1001; version := 1; fgnr := "1-0002-6"; art := None;
     preis := 100; rabatt := 7; lieferbar := false; datum := None;
     schlagwoerter := Some []; modell := Some "AUDI"; bilder := [] |}.

(** A request body that also carries a version. *)
Definition neues_auto (f : string) : AutoDTO.t :=
  {| AutoDTO.fgnr := f; AutoDTO.art := Some KOMBI;
     AutoDTO.preis := of_Z 20000; AutoDTO.rabatt := Some (of_Z 5);
     AutoDTO.lieferbar := Some true;
     AutoDTO.datum := Some (datum_string "2025-02-01");
     AutoDTO.schlagwoerter := Some ["KOMFORT"];
     AutoDTO.modell := Some "POSTMODELL"; AutoDTO.bilder := None;
     AutoDTO.further := [("version", VNumber (of_Z 7))] |}.

(** The row stored for [neues_auto "1-0100-6"] in [db]. *)
Definition neu : auto :=
  {| id := 1003; version := 0; fgnr := "1-0100-6"; art := Some KOMBI;
     preis := 20000; rabatt := 5; lieferbar := true;
     datum := Some 1738368000000%Z; schlagwoerter := Some ["KOMFORT"];
     modell := Some "POSTMODELL"; bilder := [] |}.

Definition nach_modell : Suchparameter := [("modell", VString "bm")].

Definition where_modell : Where.t :=
  Where.set_modell (contains_insensitive (VString "bm")) Where.empty.

Definition mit_farbe : Suchparameter :=
  [("farbe", VString "rot"); ("modell", VString "bm")].

Definition preis_unlesbar : Suchparameter :=
  [("preis", VString "abc"); ("rabatt", VString "7");
   ("fgnr", VString "1-")].

Definition where_rabatt_fgnr : Where.t :=
  Where.set_fgnr (startsWith (VString "1-"))
    (Where.set_rabatt (of_Z 7) Where.empty).

Definition where_fgnr_only : Where.t :=
  Where.set_fgnr (startsWith (VString "1-")) Where.empty.

Definition history : list UpdateParams.t :=
  [params 1002 (quoted "999"); params 1001 (quoted "0")].

End Example.

(* ===================================================================== *)
(** * The REST controllers and the GraphQL resolvers *)
(* ===================================================================== *)

(** A string is the decimal numeral of [z]: digits only, with the value
    [z], and without a leading zero unless it is ["0"]. *)
Definition decimal_numeral (s : string) (z : Z) : Prop :=
  all_digits s = true /\ digits_value s = z /\
  match s with
  | EmptyString => False
  | String c rest => rest = EmptyString \/ Ascii.eqb c "0" = false
  end.

(** The assignment [o[key] = v]: the value of an own property is
    replaced where it stands, a new property is added at the end. *)
Definition set_property (key : string) (v : value) (o : Suchparameter)
  : Suchparameter :=
  if existsb (fun kv => String.eqb kv.1 key) o
  then List.map (fun kv => if String.eqb kv.1 key then (key, v) else kv) o
  else (o ++ [(key, v)])%list.

(** [v === 'true'] *)
Definition is_string_true (v : value) : bool :=
  match v with VString s => String.eqb s "true" | _ => false end.

(** [v === undefined] *)
Definition is_undefined (v : value) : bool :=
  match v with VUndefined => true | _ => false end.

(** What [AutoController.get] sends. *)
Inductive getResponse : Type :=
  | get_not_acceptable
  | get_count (count : nat)
  | get_page (slice : Slice) (pageable : Pageable).

(** What [AutoController.getById] sends. *)
Inductive getByIdResponse : Type :=
  | not_acceptable
  | not_modified
  | ok_auto (etag : string) (auto : auto).

(** What [AutoWriteController.put] sends. *)
Inductive putResponse : Type :=
  | precondition_required (msg : string)
  | no_content (etag : string).

Section Transport.

Variable accepts : gmap Z auto -> auto -> bool.
Variable new_Date : value -> Js.number.
Variable Number_toString : Js.number -> string.

(** [createPageable ({ number, size })] of pageable.ts. *)
Variable createPageable : value -> value -> Pageable.

(** The query object [q] that [AutoController.get] hands to [find]: the
    copy of the query without [page] and [size], with [sport] and
    [komfort] turned into a [schlagwort], and without the properties
    whose value is undefined. *)
Definition mapped_query (query : Suchparameter) : Suchparameter :=
  let q := without "size" (without "page" query) in
  let q :=
    if is_string_true (get "sport" q)
    then set_property "schlagwort" (VString "SPORT") q else q in
  let q :=
    if is_string_true (get "komfort" q)
    then set_property "schlagwort" (VString "KOMFORT") q else q in
  let q := without "komfort" (without "sport" q) in
  List.filter (fun kv => negb (is_undefined kv.2)) q.

(** [AutoController.get]; [acceptable] tells whether the request accepts
    JSON or HTML. The page object is given by the slice and the pageable
    that [createPage] makes it of. *)
Definition controller_get (acceptable : bool) (query : Suchparameter)
  : M getResponse :=
  if negb acceptable then mret get_not_acceptable
  else if negb (is_undefined (get "only" query)) then
    count ← count;
    mret (get_count count)
  else
    let pageable := createPageable (get "page" query) (get "size" query) in
    autosSlice ← find new_Date Number_toString
                   (Some (mapped_query query)) pageable;
    mret (get_page autosSlice pageable).

(** The entity tag of a version: the number between double quotes. *)
Definition etag (versionDb : Js.number) : string :=
  quoted (Number_toString versionDb).

(** [AutoController.getById]; [version] is the header [If-None-Match]. *)
Definition controller_getById (acceptable : bool) (i : Z)
    (ifNoneMatch : option string) : M getByIdResponse :=
  if negb acceptable then mret not_acceptable
  else
    auto ← findById i false;
    let versionDb := of_Z (version auto) in
    if bool_decide (ifNoneMatch = Some (etag versionDb))
    then mret not_modified
    else mret (ok_auto (etag versionDb) auto).

(** [AutoWriteController.#autoDtoToAutoUpdate]. It reads neither
    [modell] nor [bilder]. *)
Definition autoDtoToAutoUpdate (autoDTO : AutoDTO.t) : AutoUpdate.t :=
  {| AutoUpdate.version := None;
     AutoUpdate.fgnr := Some (AutoDTO.fgnr autoDTO);
     AutoUpdate.art := Some (AutoDTO.art autoDTO);
     AutoUpdate.preis := Some (AutoDTO.preis autoDTO);
     AutoUpdate.rabatt := Some (default (of_Z 0) (AutoDTO.rabatt autoDTO));
     AutoUpdate.lieferbar :=
       Some (default false (AutoDTO.lieferbar autoDTO));
     AutoUpdate.datum := Some (datumValue new_Date (AutoDTO.datum autoDTO));
     AutoUpdate.schlagwoerter :=
       Some (default [] (AutoDTO.schlagwoerter autoDTO)) |}.

(** The text sent when the header [If-Match] is missing. *)
Definition msg_if_match_fehlt : string :=
  "Header " +:+ quoted "If-Match" +:+ " fehlt".

(** [AutoWriteController.put]; [ifMatch] is the header [If-Match]. *)
Definition controller_put (autoDTO : AutoDTO.t) (i : Z)
    (ifMatch : option string) : M putResponse :=
  match ifMatch with
  | None => mret (precondition_required msg_if_match_fehlt)
  | Some versionStr =>
      let auto := autoDtoToAutoUpdate autoDTO in
      neueVersion ← update accepts
                      {| UpdateParams.id := Some i;
                         UpdateParams.auto := auto;
                         UpdateParams.version := versionStr |};
      mret (no_content (etag neueVersion))
  end.

(** [AutoWriteController.delete]: what [delete] of the service returns
    is not looked at. *)
Definition controller_delete (i : Z) : M unit :=
  delete_ i;;
  mret tt.

(** [lieferbar.toString ()] *)
Definition value_toString (v : value) : TypeError + string :=
  match v with
  | VUndefined | VNull => inl not_a_function
  | VBoolean true => inr "true"
  | VBoolean false => inr "false"
  | VNumber n => inr (Number_toString n)
  | VString s => inr s
  end.

(** The search parameters [AutoQueryResolver.find] passes on: a
    [lieferbar] that is not undefined is replaced by its string. *)
Definition resolver_suchparameter (suchparameter : Suchparameter)
  : TypeError + Suchparameter :=
  let lieferbar := get "lieferbar" suchparameter in
  if is_undefined lieferbar then inr suchparameter
  else
    match value_toString lieferbar with
    | inl e => inl e
    | inr s => inr (set_property "lieferbar" (VString s) suchparameter)
    end.

(** [AutoQueryResolver.find] *)
Definition resolver_find (input : option Suchparameter) : M (list auto) :=
  let pageable := createPageable VUndefined VUndefined in
  match input with
  | None =>
      autosSlice ← find new_Date Number_toString None pageable;
      mret (content autosSlice)
  | Some suchparameter =>
      match resolver_suchparameter suchparameter with
      | inl _ => throw TypeErrorException
      | inr suchparameter =>
          autosSlice ← find new_Date Number_toString
                         (Some suchparameter) pageable;
          mret (content autosSlice)
      end
  end.

End Transport.

(* ===================================================================== *)
(** * The base URI of a request (create-base-uri.ts) *)
(* ===================================================================== *)

(** [s.lastIndexOf (c)] for a search string of the one character [c]:
    the index of its last occurrence, -1 when there is none. *)
Fixpoint lastIndexOf (c : ascii) (s : string) : Z :=
  match s with
  | EmptyString => (-1)%Z
  | String d s' =>
      let i := lastIndexOf c s' in
      if (0 <=? i)%Z then (i + 1)%Z
      else if Ascii.eqb d c then 0%Z else (-1)%Z
  end.

(** [s.slice (from)], up to the end of the string. *)
Definition slice_from (from : Z) (s : string) : string :=
  slice from (Z.of_nat (String.length s)) s.

(** [AutoService.ID_PATTERN.test], for [/^[1-9]\d{0,10}$/u]: a digit
    from 1 to 9, then at most ten digits, and nothing else. *)
Definition ID_PATTERN_test (s : string) : bool :=
  match s with
  | EmptyString => false
  | String c rest =>
      is_digit c && negb (Ascii.eqb c "0") &&
      all_digits rest && (String.length rest <=? 10)%nat
  end.

(** What [createBaseUri] reads of the request. *)
Record Request : Type := {
  protocol : string;
  hostname : string;
  url : string;
}.

Section BaseUri.

(** The constant [port]: a colon and the port of the configuration. *)
Variable port : string.

(** [createBaseUri] *)
Definition createBaseUri (req : Request) : string :=
  let basePath :=
    if includes "?" (url req)
    then slice 0 (lastIndexOf "?" (url req)) (url req)
    else url req in
  let indexLastSlash := lastIndexOf "/" basePath in
  let basePath :=
    if (0 <? indexLastSlash)%Z then
      let idStr := slice_from (indexLastSlash + 1) basePath in
      if ID_PATTERN_test idStr
      then slice 0 indexLastSlash basePath
      else basePath
    else basePath in
  protocol req +:+ "://" +:+ hostname req +:+ port +:+ basePath.

End BaseUri.

(* ===================================================================== *)
(** * The binary file of a car: table [auto_file] *)
(* ===================================================================== *)

(** A row of table [auto_file]. *)
Module AutoFile.
Record t : Type := {
  id : Z;
  data : list Byte.byte;
  filename : string;
  mimetype : option string;
  autoId : Z;
}.
End AutoFile.

(** Table [auto] with table [auto_file], both keyed by their primary
    key, and the next value of the identity column of [auto_file]. *)
Record database : Type := {
  auto_table : gmap Z auto;
  auto_file_table : gmap Z AutoFile.t;
  auto_file_next_id : Z;
}.

(** [AutoService.findFileByAutoId]: [autoFile.findUnique] by [autoId];
    [None] stands for [undefined]. *)
Definition findFileByAutoId (autoId : Z) (db : database)
  : option AutoFile.t :=
  List.find (fun f => Z.eqb (AutoFile.autoId f) autoId)
            (map_to_list (auto_file_table db)).*2.

Section Files.

(** [(await fileTypeFromBuffer (data))?.mime ?? null] of the package
    file-type. *)
Variable fileTypeFromBuffer : list Byte.byte -> option string.

(** [AutoWriteService.addFile]. The whole body is one transaction: when
    it throws, the tables are as before; a value taken from the identity
    column is used up. *)
Definition addFile (autoId : Z) (data : list Byte.byte) (filename : string)
    (size : Z) (db : database) : outcome AutoFile.t * database :=
  match auto_table db !! autoId with
  | None => (Throw (NotFoundException (KeinAutoMitDerId (Some autoId))), db)
  | Some _ =>
      let remaining :=
        filter (fun kv => AutoFile.autoId kv.2 <> autoId)
               (auto_file_table db) in
      let mimetype := fileTypeFromBuffer data in
      let autoFileCreated :=
        {| AutoFile.id := auto_file_next_id db;
           AutoFile.data := data;
           AutoFile.filename := filename;
           AutoFile.mimetype := mimetype;
           AutoFile.autoId := autoId |} in
      match remaining !! auto_file_next_id db with
      | Some _ =>
          (Throw (PrismaClientError ConstraintFailed),
           {| auto_table := auto_table db;
              auto_file_table := auto_file_table db;
              auto_file_next_id := (auto_file_next_id db + 1)%Z |})
      | None =>
          (Return autoFileCreated,
           {| auto_table := auto_table db;
              auto_file_table :=
                <[auto_file_next_id db := autoFileCreated]> remaining;
              auto_file_next_id := (auto_file_next_id db + 1)%Z |})
      end
  end.

End Files.

(** Every car has at most one file, and every file belongs to a stored
    car: the rules [UNIQUE] and [REFERENCES auto] of column [auto_id]. *)
Definition file_constraints (db : database) : Prop :=
  (forall i j f g,
     auto_file_table db !! i = Some f -> auto_file_table db !! j = Some g ->
     AutoFile.autoId f = AutoFile.autoId g -> i = j) /\
  (forall i f,
     auto_file_table db !! i = Some f ->
     is_Some (auto_table db !! AutoFile.autoId f)).

(** ** Notions used to state further properties *)

(** The mails sent so far, latest first. *)
Definition mails (w : world) : list call :=
  List.filter (fun c => match c with sendmail _ _ => true | _ => false end)
              (calls w).

(** No two rows have the same chassis number. *)
Definition fgnr_unique (t : gmap Z auto) : Prop :=
  forall i j r s,
    t !! i = Some r -> t !! j = Some s -> fgnr r = fgnr s -> i = j.

(** The rows of the requested page, among the rows [l]. *)
Definition page_of (pageable : Pageable) (l : list auto) : list auto :=
  firstn (size pageable) (skipn (number pageable * size pageable) l).

(** A row as [find] returns it: without its [bild] rows and with a list
    of [schlagwoerter]. *)
Definition as_found (r : auto) : auto :=
  schlagwoerter_or_empty (ohne_bilder r).

(* ===================================================================== *)
(** * More examples: requests, queries and files *)
(* ===================================================================== *)

Module Sample.

(** Row 1001 of [Example.db] after a PUT with the body
    [Example.neues_auto "1-0002-6"]. *)
Definition audi_put : auto :=
  {| id := 1001; version := 1; fgnr := "1-0002-6"; art := Some KOMBI;
     preis := 20000; rabatt := 5; lieferbar := true;
     datum := Some 1738368000000%Z; schlagwoerter := Some ["KOMFORT"];
     modell := Some "AUDI"; bilder := [] |}.

(** A filter that no row of [Example.db] matches. *)
Definition nach_xyz : Suchparameter := [("modell", VString "xyz")].

Definition where_xyz : Where.t :=
  Where.set_modell (contains_insensitive (VString "xyz")) Where.empty.

(** The same two search parameters in two orders. *)
Definition modell_fgnr : Suchparameter :=
  [("modell", VString "bm"); ("fgnr", VString "1-")].

Definition fgnr_modell : Suchparameter :=
  [("fgnr", VString "1-"); ("modell", VString "bm")].

(** Search parameters of a GraphQL query. *)
Definition lieferbare : Suchparameter :=
  [("lieferbar", VBoolean true); ("modell", VString "bm")].

(** The query of [GET /rest?page=0&sport=true&modell=bm&schlagwort=x]. *)
Definition sport_query : Suchparameter :=
  [("page", VString "0"); ("sport", VString "true");
   ("modell", VString "bm"); ("schlagwort", VString "x")].

(** The query of [GET /rest?only=count&modell=bm]. *)
Definition count_query : Suchparameter :=
  [("only", VString "count"); ("modell", VString "bm")].

(** The query of [GET /rest?page=1&size=2]. *)
Definition page_query : Suchparameter :=
  [("page", VString "1"); ("size", VString "2")].

(** A [createPageable] that reads the page number and the page size as
    integers, with 0 and 5 where they are missing or unreadable. *)
Definition nat_or (d : nat) (v : value) : nat :=
  match v with
  | VString s => if all_digits s then Z.to_nat (digits_value s) else d
  | _ => d
  end.

Definition createPageable (number size : value) : Pageable :=
  {| number := nat_or 0 number; size := nat_or 5 size |}.

(** A file type detection for buffers that begin with no signature it
    knows, such as the text below: it reports no type. *)
Definition fileTypeFromBuffer (data : list Byte.byte) : option string :=
  None.

(** The bytes of the text [Audi A4]. *)
Definition text : list Byte.byte :=
  [Byte.x41; Byte.x75; Byte.x64; Byte.x69; Byte.x20; Byte.x41; Byte.x34].

Definition altes_bild : AutoFile.t :=
  {| AutoFile.id := 1000; AutoFile.data := []; AutoFile.filename := "alt.bin";
     AutoFile.mimetype := None; AutoFile.autoId := 1001 |}.

Definition neues_bild : AutoFile.t :=
  {| AutoFile.id := 1001; AutoFile.data := text;
     AutoFile.filename := "audi.txt"; AutoFile.mimetype := None;
     AutoFile.autoId := 1001 |}.

(** A request body with the price 0.125 and the discount 5.5. *)
Definition bruch (f : string) : AutoDTO.t :=
  {| AutoDTO.fgnr := f; AutoDTO.art := None;
     AutoDTO.preis := Finite (Qmake 1 8);
     AutoDTO.rabatt := Some (Finite (Qmake 11 2));
     AutoDTO.lieferbar := None; AutoDTO.datum := None;
     AutoDTO.schlagwoerter := None; AutoDTO.modell := Some "BRUCH";
     AutoDTO.bilder := None; AutoDTO.further := [] |}.

(** The row stored for [bruch "1-0200-6"] in [Example.db]. *)
Definition bruch_neu : auto :=
  {| id := 1003; version := 0; fgnr := "1-0200-6"; art := None;
     preis := Qmake 13 100; rabatt := 5; lieferbar := false; datum := None;
     schlagwoerter := Some []; modell := Some "BRUCH"; bilder := [] |}.

(** Row 1001 of [Example.db] after a PUT with the body
    [bruch "1-0002-6"]. *)
Definition audi_bruch : auto :=
  {| id := 1001; version := 1; fgnr := "1-0002-6"; art := None;
     preis := Qmake 13 100; rabatt := 5; lieferbar := false; datum := None;
     schlagwoerter := Some []; modell := Some "AUDI"; bilder := [] |}.

(** The cars of [Example.db], one of them with a file. *)
Definition files_db : database :=
  {| auto_table := autos Example.db;
     auto_file_table := <[1000%Z := altes_bild]> ∅;
     auto_file_next_id := 1001 |}.

End Sample.

(* ===================================================================== *)
(** * Properties of the runtime functions *)
(* ===================================================================== *)

Lemma lt_of_Z (a b : Z) : lt (of_Z a) (of_Z b) = (a <? b)%Z.
Proof.
  unfold lt, of_Z, Qle_bool; simpl. rewrite !Z.mul_1_r.
  rewrite Z.ltb_antisym. reflexivity.
Qed.

Lemma digit_value_bounds (c : ascii) :
  is_digit c = true -> (0 <= digit_value c <= 9)%Z.
Proof.
  unfold is_digit, digit_value. intros H.
  apply andb_prop in H as [H1 H2].
  apply Nat.leb_le in H1. apply Nat.leb_le in H2. lia.
Qed.

Lemma dquote_not_digit : is_digit dquote = false.
Proof. reflexivity. Qed.

Lemma digit_not_white (c : ascii) : is_digit c = true -> is_white c = false.
Proof.
  unfold is_digit, is_white. intros H.
  apply andb_prop in H as [H1 H2].
  apply Nat.leb_le in H1. apply Nat.leb_le in H2.
  apply orb_false_intro.
  - apply andb_false_intro2. apply Nat.leb_gt. lia.
  - apply Nat.eqb_neq. lia.
Qed.

Lemma digit_not_sign (c : ascii) (s : string) :
  is_digit c = true -> split_sign (String c s) = (false, String c s).
Proof.
  intros H. unfold split_sign.
  destruct c as [[] [] [] [] [] [] [] []]; try reflexivity; discriminate H.
Qed.

Lemma span_digits_stop (s : string) :
  no_leading_digit s -> span_digits s = (EmptyString, s).
Proof. destruct s as [|c s]; simpl; [reflexivity|]. intros ->. reflexivity. Qed.

(** Taking the first [n] characters. *)
Lemma substring_0_cons (c : ascii) (s : string) (n : nat) :
  String.substring 0 (S n) (String c s) = String c (String.substring 0 n s).
Proof. reflexivity. Qed.

Lemma no_leading_digit_prefix (c : ascii) (s : string) (n : nat) :
  is_digit c = false -> no_leading_digit (String.substring 0 n (String c s)).
Proof. intros H. destruct n; simpl; [exact I | exact H]. Qed.

(** [s.slice (1, -1)] drops the first and the last character. *)
Lemma slice_1_m1 (c : ascii) (s : string) :
  slice 1 (-1) (String c s) =
  String.substring 0 (String.length s - 1) s.
Proof.
  unfold slice. cbn [String.length].
  replace (1 <? 0)%Z with false by reflexivity.
  replace (-1 <? 0)%Z with true by reflexivity.
  cbv beta zeta.
  rewrite Z.min_l by lia. rewrite Z.max_l by lia.
  replace (Z.to_nat 1) with 1%nat by reflexivity.
  replace (Z.to_nat (Z.of_nat (S (String.length s)) + -1 - 1))
    with (String.length s - 1)%nat by lia.
  reflexivity.
Qed.

Lemma length_app_string (a b : string) :
  String.length (a +:+ b) = (String.length a + String.length b)%nat.
Proof. induction a as [|c a IH]; simpl; [reflexivity|]. now rewrite IH. Qed.

Lemma substring_0_app (ds u : string) (n : nat) :
  String.substring 0 (String.length ds + n) (ds +:+ u) =
  ds +:+ String.substring 0 n u.
Proof.
  induction ds as [|c ds IH]; simpl; [reflexivity|]. now rewrite IH.
Qed.

Lemma span_digits_app (ds t : string) :
  all_digits ds = true -> no_leading_digit t ->
  span_digits (ds +:+ t) = (ds, t).
Proof.
  induction ds as [|c ds IH]; simpl; intros Hd Ht.
  - now apply span_digits_stop.
  - apply andb_prop in Hd as [Hc Hd]. rewrite Hc, IH by assumption.
    reflexivity.
Qed.

Lemma digits_value_bound (ds : string) :
  all_digits ds = true -> (String.length ds <= 3)%nat ->
  (0 <= digits_value ds <= 999)%Z.
Proof.
  intros Hd Hl.
  destruct ds as [|c1 [|c2 [|c3 [|c4 ds]]]]; simpl in Hl; try lia;
    simpl in Hd;
    repeat (apply andb_prop in Hd as [?%digit_value_bounds Hd]);
    unfold digits_value; simpl; lia.
Qed.

(** An integer of at most three digits is read as itself. *)
Lemma read_decimal_small (n : Z) :
  (0 <= n <= 999)%Z -> read_decimal (inject_Z n) = of_Z n.
Proof.
  intros H.
  assert (Forall (fun k => read_decimal (inject_Z (Z.of_nat k)) =
                           of_Z (Z.of_nat k)) (seq 0 1000)) as Hall
    by (apply (bool_decide_unpack _); vm_compute; reflexivity).
  rewrite Forall_forall in Hall. specialize (Hall (Z.to_nat n)).
  rewrite Z2Nat.id in Hall by lia. apply Hall. apply elem_of_seq. lia.
Qed.

(** [parseInt] on a string that begins with one to three digits reads
    exactly them. *)
Lemma parseInt10_digits (ds t : string) :
  ds <> EmptyString -> all_digits ds = true ->
  (String.length ds <= 3)%nat -> no_leading_digit t ->
  parseInt10 (ds +:+ t) = of_Z (digits_value ds).
Proof.
  intros Hne Hd Hl Ht. unfold parseInt10.
  pose proof (digits_value_bound _ Hd Hl) as Hb.
  destruct ds as [|c ds]; [congruence|].
  pose proof Hd as Hd'. simpl in Hd'. apply andb_prop in Hd' as [Hc _].
  change (String c ds +:+ t) with (String c (ds +:+ t)).
  cbn [trimStart]. rewrite (digit_not_white c Hc).
  rewrite (digit_not_sign c _ Hc).
  change (String c (ds +:+ t)) with (String c ds +:+ t).
  rewrite span_digits_app by assumption. cbn [signed].
  now apply read_decimal_small.
Qed.

(** What [VERSION_PATTERN] accepts: a double quote, one to three digits,
    a double quote, and then anything. *)
Lemma VERSION_PATTERN_accepts (s : string) :
  test_anchored_start VERSION_PATTERN s = true ->
  exists ds rest,
    s = String dquote (ds +:+ String dquote rest) /\
    all_digits ds = true /\
    (1 <= String.length ds <= 3)%nat.
Proof.
  unfold test_anchored_start, VERSION_PATTERN.
  destruct s as [|c0 s1]; [discriminate|].
  cbn [rests flat_map].
  destruct (Ascii.eqb c0 dquote) eqn:E0; [|discriminate].
  apply Ascii.eqb_eq in E0 as ->.
  destruct s1 as [|c1 s2]; [discriminate|].
  cbn [rests flat_map app Nat.eqb Nat.pred].
  destruct (is_digit c1) eqn:D1; [|discriminate].
  destruct s2 as [|c2 s3]; [discriminate|].
  cbn [rests flat_map app Nat.eqb Nat.pred].
  destruct (Ascii.eqb c2 dquote) eqn:E2.
  { apply Ascii.eqb_eq in E2 as ->. intros _.
    exists (String c1 ""), s3. simpl. rewrite D1. repeat split; lia. }
  destruct (is_digit c2) eqn:D2; [|discriminate].
  destruct s3 as [|c3 s4]; [discriminate|].
  cbn [rests flat_map app Nat.eqb Nat.pred].
  destruct (Ascii.eqb c3 dquote) eqn:E3.
  { apply Ascii.eqb_eq in E3 as ->. intros _.
    exists (String c1 (String c2 "")), s4. simpl. rewrite D1, D2.
    repeat split; lia. }
  destruct (is_digit c3) eqn:D3; [|discriminate].
  destruct s4 as [|c4 s5]; [discriminate|].
  cbn [rests flat_map app Nat.eqb Nat.pred].
  destruct (Ascii.eqb c4 dquote) eqn:E4; [|discriminate].
  apply Ascii.eqb_eq in E4 as ->. intros _.
  exists (String c1 (String c2 (String c3 ""))), s5. simpl.
  rewrite D1, D2, D3. repeat split; lia.
Qed.

(** Conversely, whatever follows the closing quote, the token is
    accepted. *)
Lemma VERSION_PATTERN_accepts_prefix (ds rest : string) :
  all_digits ds = true ->
  (1 <= String.length ds <= 3)%nat ->
  test_anchored_start VERSION_PATTERN
    (String dquote (ds +:+ String dquote rest)) = true.
Proof.
  intros Hd Hl.
  assert (forall c, is_digit c = true -> Ascii.eqb c dquote = false) as Hq.
  { intros c Hc. apply Ascii.eqb_neq. intros ->. discriminate Hc. }
  unfold test_anchored_start, VERSION_PATTERN.
  destruct ds as [|c1 [|c2 [|c3 [|c4 ds]]]]; simpl in Hl; try lia;
    simpl in Hd; cbv [String.append];
    repeat match type of Hd with
           | (_ && _)%bool = true => apply andb_prop in Hd as [? Hd]
           end;
    repeat (progress
              (cbn [rests flat_map app Nat.eqb Nat.pred];
               rewrite ?Ascii.eqb_refl;
               repeat match goal with
                      | H : is_digit ?c = true |- _ =>
                          progress (rewrite ?H, ?(Hq c H))
                      end));
    reflexivity.
Qed.

(** The number [#validateUpdate] reads from an accepted token. *)
Lemma accepted_token_value (s : string) :
  test_anchored_start VERSION_PATTERN s = true ->
  exists n, parseInt10 (slice 1 (-1) s) = of_Z n /\ (0 <= n <= 999)%Z.
Proof.
  intros (ds & rest & -> & Hd & Hl)%VERSION_PATTERN_accepts.
  exists (digits_value ds). split; [|apply digits_value_bound; [easy|lia]].
  rewrite slice_1_m1.
  replace (String.length (ds +:+ String dquote rest) - 1)%nat
    with (String.length ds + String.length rest)%nat.
  2:{ rewrite length_app_string. simpl. lia. }
  rewrite substring_0_app.
  apply parseInt10_digits; [|assumption|lia|].
  - destruct ds; [simpl in Hl; lia|congruence].
  - apply no_leading_digit_prefix, dquote_not_digit.
Qed.

(* ===================================================================== *)
(** * Properties of the services *)
(* ===================================================================== *)

Ltac unfold_monad :=
  unfold mbind, M_bind, bind, mret, M_ret, ret, throw, transaction.

Section Properties.

Variable accepts : gmap Z auto -> auto -> bool.
Variable new_Date : value -> Js.number.
Variable Number_toString : Js.number -> string.

(** ** Reading by id *)

Lemma findById_found (w : world) (i : Z) (r : auto) (mitBilder : bool) :
  autos w !! i = Some r ->
  findById i mitBilder w =
  (Return (schlagwoerter_or_empty (if mitBilder then r else ohne_bilder r)),
   log (auto_findUnique i) w).
Proof.
  intros H. unfold findById, findUnique. unfold_monad. now rewrite H.
Qed.

Lemma findById_missing (w : world) (i : Z) (mitBilder : bool) :
  autos w !! i = None ->
  findById i mitBilder w =
  (Throw (NotFoundException (KeinAutoMitDerId (Some i))),
   log (auto_findUnique i) w).
Proof.
  intros H. unfold findById, findUnique. unfold_monad. now rewrite H.
Qed.

(** ** The version check *)

(** A token the pattern rejects is refused before anything is read. *)
Lemma validateUpdate_invalid (w : world) (i : Z) (versionStr : string) :
  test_anchored_start VERSION_PATTERN versionStr = false ->
  validateUpdate i versionStr w =
  (Throw (VersionInvalidException versionStr), w).
Proof. intros H. unfold validateUpdate. now rewrite H. Qed.

Lemma validateUpdate_valid (w : world) (i : Z) (versionStr : string)
    (n : Z) (r : auto) :
  test_anchored_start VERSION_PATTERN versionStr = true ->
  parseInt10 (slice 1 (-1) versionStr) = of_Z n ->
  autos w !! i = Some r ->
  validateUpdate i versionStr w =
  (if (n <? version r)%Z
   then Throw (VersionOutdatedException (of_Z n))
   else Return tt,
   log (auto_findUnique i) w).
Proof.
  intros Ht Hn Hr. unfold validateUpdate. rewrite Ht, Hn.
  unfold_monad. cbn [negb]. cbv beta iota.
  rewrite (findById_found _ _ _ _ Hr).
  cbn [version schlagwoerter_or_empty ohne_bilder].
  rewrite lt_of_Z. now destruct (n <? version r)%Z.
Qed.

Lemma update_invalid (w : world) (i : option Z) (a : AutoUpdate.t)
    (versionStr : string) :
  test_anchored_start VERSION_PATTERN versionStr = false ->
  exists e,
    update accepts
      {| UpdateParams.id := i; UpdateParams.auto := a;
         UpdateParams.version := versionStr |} w = (Throw e, w) /\
    (i <> None -> e = VersionInvalidException versionStr).
Proof.
  intros H. unfold update. cbn [UpdateParams.id UpdateParams.version].
  destruct i as [i|].
  - unfold_monad. rewrite (validateUpdate_invalid _ _ _ H). eauto.
  - unfold_monad. eexists. split; [reflexivity|congruence].
Qed.

Lemma update_outdated (w : world) (i : Z) (a : AutoUpdate.t)
    (versionStr : string) (n : Z) (r : auto) :
  test_anchored_start VERSION_PATTERN versionStr = true ->
  parseInt10 (slice 1 (-1) versionStr) = of_Z n ->
  autos w !! i = Some r ->
  (n < version r)%Z ->
  update accepts
    {| UpdateParams.id := Some i; UpdateParams.auto := a;
       UpdateParams.version := versionStr |} w =
  (Throw (VersionOutdatedException (of_Z n)), log (auto_findUnique i) w).
Proof.
  intros Ht Hn Hr Hlt. unfold update.
  cbn [UpdateParams.id UpdateParams.version]. unfold_monad.
  rewrite (validateUpdate_valid _ _ _ _ _ Ht Hn Hr).
  apply Z.ltb_lt in Hlt. now rewrite Hlt.
Qed.

Lemma update_current (w : world) (i : Z) (a : AutoUpdate.t)
    (versionStr : string) (n : Z) (r : auto) :
  test_anchored_start VERSION_PATTERN versionStr = true ->
  parseInt10 (slice 1 (-1) versionStr) = of_Z n ->
  autos w !! i = Some r ->
  (version r <= n)%Z ->
  update accepts
    {| UpdateParams.id := Some i; UpdateParams.auto := a;
       UpdateParams.version := versionStr |} w =
  let data := AutoUpdate.with_version (increment 1) a in
  let w1 := log (auto_update i data) (log (auto_findUnique i) w) in
  match updated_row data r with
  | None => (Throw (PrismaClientError ValidationError), w1)
  | Some r' =>
      if accepts (delete i (autos w)) r'
      then (Return (of_Z (version r')), with_autos (<[i := r']> (autos w)) w1)
      else (Throw (PrismaClientError ConstraintFailed), w1)
  end.
Proof.
  intros Ht Hn Hr Hle. unfold update.
  cbn [UpdateParams.id UpdateParams.version UpdateParams.auto].
  unfold_monad.
  rewrite (validateUpdate_valid _ _ _ _ _ Ht Hn Hr).
  apply Z.ltb_ge in Hle. rewrite Hle.
  unfold update_row. cbn [autos log]. rewrite Hr.
  destruct (updated_row _ r) as [r'|]; [|reflexivity].
  destruct (accepts _ r'); reflexivity.
Qed.

Lemma updated_row_version (a : AutoUpdate.t) (r r' : auto) :
  updated_row (AutoUpdate.with_version (increment 1) a) r = Some r' ->
  version r' = (version r + 1)%Z.
Proof.
  unfold updated_row. intros H.
  destruct (or_old stored_decimal _ _); [|discriminate].
  destruct (or_old stored_integer _ _); [|discriminate].
  destruct (or_old date _ _); [|discriminate].
  simpl in H. injection H as <-. reflexivity.
Qed.

Lemma validateUpdate_autos (w : world) (i : Z) (versionStr : string) :
  autos (validateUpdate i versionStr w).2 = autos w.
Proof.
  unfold validateUpdate.
  destruct (test_anchored_start VERSION_PATTERN versionStr); cbn [negb];
    [|reflexivity].
  unfold_monad. cbv beta.
  destruct (autos w !! i) as [r|] eqn:Hr.
  - rewrite (findById_found _ _ _ _ Hr). now destruct (lt _ _).
  - now rewrite (findById_missing _ _ _ Hr).
Qed.

(** An update leaves the rows with another id as they are. *)
Lemma update_other (w : world) (p : UpdateParams.t) (i : Z) :
  UpdateParams.id p <> Some i ->
  autos (update accepts p w).2 !! i = autos w !! i.
Proof.
  intros Hi. unfold update.
  destruct (UpdateParams.id p) as [j|]; [|reflexivity].
  assert (j <> i) as Hj by congruence.
  unfold_monad.
  pose proof (validateUpdate_autos w j (UpdateParams.version p)) as Hv.
  destruct (validateUpdate j (UpdateParams.version p) w) as [[[]|e] w1];
    simpl in Hv; [|simpl; now rewrite Hv].
  unfold update_row. cbv beta zeta. rewrite !Hv.
  destruct (autos w !! j) as [old|]; [|reflexivity].
  destruct (updated_row _ old) as [r'|]; [|reflexivity].
  destruct (accepts _ r'); [|reflexivity].
  simpl. now rewrite lookup_insert_ne.
Qed.

(** With a stored version of 1000 or more every token is refused: the
    pattern admits three digits at most. *)
Lemma update_stuck (w : world) (i : Z) (r : auto) (a : AutoUpdate.t)
    (versionStr : string) :
  autos w !! i = Some r ->
  (1000 <= version r)%Z ->
  exists e w',
    update accepts
      {| UpdateParams.id := Some i; UpdateParams.auto := a;
         UpdateParams.version := versionStr |} w = (Throw e, w') /\
    autos w' = autos w /\
    (e = VersionInvalidException versionStr \/
     exists n, (0 <= n <= 999)%Z /\ e = VersionOutdatedException (of_Z n)).
Proof.
  intros Hr Hv.
  destruct (test_anchored_start VERSION_PATTERN versionStr) eqn:Ht.
  - destruct (accepted_token_value _ Ht) as (n & Hn & Hb).
    eexists _, _. split; [apply (update_outdated _ _ _ _ _ _ Ht Hn Hr); lia|].
    split; [reflexivity|]. right. eauto.
  - destruct (update_invalid w (Some i) a _ Ht) as (e & He & Hi).
    exists e, w. split; [exact He|]. split; [reflexivity|].
    left. now apply Hi.
Qed.

Lemma run_updates_keeps (history : list UpdateParams.t) (w : world)
    (i : Z) (r : auto) :
  autos w !! i = Some r ->
  (1000 <= version r)%Z ->
  autos (run_updates accepts history w) !! i = Some r.
Proof.
  intros Hr Hv. unfold run_updates.
  revert w Hr. induction history as [|p ps IH]; intros w Hr; [exact Hr|].
  cbn [fold_left]. apply IH.
  destruct (decide (UpdateParams.id p = Some i)) as [Hi|Hi].
  - destruct p as [pi pa pv]. simpl in Hi. subst pi.
    destruct (update_stuck w i r pa pv Hr Hv) as (e & w' & -> & Hw & _).
    simpl. now rewrite Hw.
  - now rewrite update_other.
Qed.

(** ** The claims about [update] *)

(** C3: on an existing entity, an accepted version token whose number is
    below the stored version makes [update] fail with
    [VersionOutdatedException] and leaves the table, and so the stored
    entity and its version, as it was; a number equal to or above the
    stored version passes the check of [#validateUpdate]. *)
Theorem update_outdated_version_rejected (w : world) (i : Z) (r : auto)
    (a : AutoUpdate.t) (versionStr : string) (n : Z) :
  autos w !! i = Some r ->
  test_anchored_start VERSION_PATTERN versionStr = true ->
  parseInt10 (slice 1 (-1) versionStr) = of_Z n ->
  ((n < version r)%Z ->
   exists w',
     update accepts
       {| UpdateParams.id := Some i; UpdateParams.auto := a;
          UpdateParams.version := versionStr |} w =
     (Throw (VersionOutdatedException (of_Z n)), w') /\
     autos w' = autos w) /\
  ((version r <= n)%Z ->
   exists w',
     validateUpdate i versionStr w = (Return tt, w') /\
     autos w' = autos w).
Proof.
  intros Hr Ht Hn. split; intros Hc.
  - eexists. split; [now apply (update_outdated _ _ _ _ _ _ Ht Hn Hr)|].
    reflexivity.
  - eexists. rewrite (validateUpdate_valid _ _ _ _ _ Ht Hn Hr).
    apply Z.ltb_ge in Hc. rewrite Hc. split; reflexivity.
Qed.

(** C4, as amended: on an existing entity, with an accepted version
    token whose number is equal to or above the stored version, and with
    changes the persistence layer accepts (the values fit their columns
    and the changed row satisfies the integrity rules next to the other
    rows), [update] succeeds, the stored version becomes the previous one
    plus 1, and that number is returned. *)
Theorem update_increments_version (w : world) (i : Z) (r r' : auto)
    (a : AutoUpdate.t) (versionStr : string) (n : Z) :
  autos w !! i = Some r ->
  test_anchored_start VERSION_PATTERN versionStr = true ->
  parseInt10 (slice 1 (-1) versionStr) = of_Z n ->
  (version r <= n)%Z ->
  updated_row (AutoUpdate.with_version (increment 1) a) r = Some r' ->
  accepts (delete i (autos w)) r' = true ->
  exists w',
    update accepts
      {| UpdateParams.id := Some i; UpdateParams.auto := a;
         UpdateParams.version := versionStr |} w =
    (Return (of_Z (version r + 1)), w') /\
    autos w' = <[i := r']> (autos w) /\
    version r' = (version r + 1)%Z.
Proof.
  intros Hr Ht Hn Hle Hu Ha.
  rewrite (update_current _ _ _ _ _ _ Ht Hn Hr Hle). cbv zeta.
  rewrite Hu, Ha. rewrite (updated_row_version _ _ _ Hu).
  eexists. split; [reflexivity|]. split; [reflexivity|].
  reflexivity.
Qed.

(** C10: an entity whose stored version is 1000 or more can never be
    updated. After any history of [update] calls the entity is stored
    unchanged, and every further [update] of it fails, with
    [VersionInvalidException] when the pattern rejects the token and
    otherwise with [VersionOutdatedException] for a claimed version of
    999 at most; the table stays as it is. *)
Theorem update_impossible_from_version_1000 (w : world) (i : Z) (r : auto)
    (history : list UpdateParams.t) (a : AutoUpdate.t)
    (versionStr : string) :
  autos w !! i = Some r ->
  (1000 <= version r)%Z ->
  let w1 := run_updates accepts history w in
  autos w1 !! i = Some r /\
  exists e w2,
    update accepts
      {| UpdateParams.id := Some i; UpdateParams.auto := a;
         UpdateParams.version := versionStr |} w1 = (Throw e, w2) /\
    autos w2 = autos w1 /\
    (e = VersionInvalidException versionStr \/
     exists n, (0 <= n <= 999)%Z /\ e = VersionOutdatedException (of_Z n)).
Proof.
  intros Hr Hv w1.
  assert (autos w1 !! i = Some r) as Hr1
    by now apply run_updates_keeps.
  split; [exact Hr1|]. now apply update_stuck with (r := r).
Qed.

(** ** Deleting *)

Lemma delete_existing (w : world) (i : Z) (r : auto) :
  autos w !! i = Some r ->
  delete_ i w =
  (Return true,
   with_autos (delete i (autos w))
     (log (auto_delete i) (log (auto_findUnique i) w))).
Proof.
  intros H. unfold delete_, findUnique, delete_row. unfold_monad.
  simpl. rewrite H.
  change (autos (log (auto_findUnique i) w)) with (autos w).
  now rewrite H.
Qed.

Lemma delete_missing (w : world) (i : Z) :
  autos w !! i = None ->
  delete_ i w = (Return false, log (auto_findUnique i) w).
Proof.
  intros H. unfold delete_, findUnique. unfold_monad. now rewrite H.
Qed.

(** C9: [delete] never fails because the row is absent. When a row with
    the id exists, [delete] returns [true] and removes it, after which
    [findById] fails with [NotFoundException] and a second [delete]
    returns [false]; when no row exists, [delete] returns [false] and
    the table is as it was. *)
Theorem delete_reports_existence (w : world) (i : Z) :
  (forall r, autos w !! i = Some r ->
     exists w',
       delete_ i w = (Return true, w') /\
       autos w' = delete i (autos w) /\
       autos w' !! i = None /\
       (forall mitBilder,
          (findById i mitBilder w').1 =
          Throw (NotFoundException (KeinAutoMitDerId (Some i)))) /\
       (delete_ i w').1 = Return false) /\
  (autos w !! i = None ->
     exists w',
       delete_ i w = (Return false, w') /\ autos w' = autos w).
Proof.
  split.
  - intros r Hr. rewrite (delete_existing _ _ _ Hr). eexists.
    split; [reflexivity|]. cbn [autos with_autos].
    assert (delete i (autos w) !! i = None) as Hgone
      by apply lookup_delete_eq.
    repeat split; try assumption.
    + intros b. now rewrite findById_missing.
    + now rewrite delete_missing.
  - intros Hr. rewrite (delete_missing _ _ Hr). eexists.
    split; reflexivity.
Qed.

(** ** Creating *)

Lemma matches_where_fgnr (f : string) (r : auto) :
  matches (where_fgnr f) r = String.eqb f (fgnr r).
Proof.
  unfold matches, where_fgnr. simpl. now destruct (String.eqb f (fgnr r)).
Qed.

Lemma elem_of_rows (w : world) (i : Z) (r : auto) :
  autos w !! i = Some r -> In r (rows w).
Proof.
  intros H. apply list_elem_of_In. unfold rows.
  apply list_elem_of_fmap. exists (i, r). split; [reflexivity|].
  rewrite merge_sort_Permutation. now apply elem_of_map_to_list.
Qed.

Lemma validateCreate_existing (w : world) (a : AutoCreate.t) (f : string)
    (i : Z) (r : auto) :
  AutoCreate.fgnr a = Some f ->
  autos w !! i = Some r ->
  fgnr r = f ->
  validateCreate a w =
  (Throw (FgnrExistsException f), log (auto_count (Some (where_fgnr f))) w).
Proof.
  intros Hf Hr Hrf. unfold validateCreate. rewrite Hf.
  unfold count_where, checked. unfold_monad.
  replace (where_ok (where_fgnr f)) with true by reflexivity.
  cbv beta iota.
  assert (0 < length (selected (Some (where_fgnr f)) w))%nat as Hpos.
  { unfold selected.
    assert (In r (List.filter (matches (where_fgnr f)) (rows w))) as Hin.
    { apply filter_In. split; [now apply (elem_of_rows _ i)|].
      rewrite matches_where_fgnr. apply String.eqb_eq. congruence. }
    destruct (List.filter _ _); [destruct Hin|simpl; lia]. }
  apply Nat.ltb_lt in Hpos. now rewrite Hpos.
Qed.

(** C6: when the chassis number of the new car already occurs in a
    stored row, [create] fails with [FgnrExistsException] carrying that
    chassis number, and the table is as it was: no row is created. *)
Theorem create_existing_fgnr_conflict (w : world) (a : AutoCreate.t)
    (f : string) (i : Z) (r : auto) :
  AutoCreate.fgnr a = Some f ->
  autos w !! i = Some r ->
  fgnr r = f ->
  exists w',
    create accepts a w = (Throw (FgnrExistsException f), w') /\
    autos w' = autos w.
Proof.
  intros Hf Hr Hrf. unfold create. unfold_monad.
  rewrite (validateCreate_existing _ _ _ _ _ Hf Hr Hrf).
  eexists. split; reflexivity.
Qed.

Lemma validateCreate_autos (w : world) (a : AutoCreate.t) :
  autos (validateCreate a w).2 = autos w /\
  next_id (validateCreate a w).2 = next_id w.
Proof.
  unfold validateCreate. destruct (AutoCreate.fgnr a) as [f|];
    [|split; reflexivity].
  unfold count_where, checked. unfold_monad.
  replace (where_ok (where_fgnr f)) with true by reflexivity.
  cbv beta iota. destruct (0 <? _)%nat; split; reflexivity.
Qed.

(** What a successful [create] has done: the row made from its argument
    is stored under a new id, with the version the argument carries and
    the column default 0 when it carries none. *)
Lemma create_returns (w w' : world) (a : AutoCreate.t) (n : Js.number) :
  create accepts a w = (Return n, w') ->
  exists r,
    created_row (next_id w) a = Some r /\
    n = of_Z (id r) /\
    autos w !! id r = None /\
    autos w' = <[id r := r]> (autos w).
Proof.
  unfold create. unfold_monad.
  destruct (validateCreate_autos w a) as [Hv Hn].
  destruct (validateCreate a w) as [[[]|e] w1]; [|discriminate].
  simpl in Hv, Hn. unfold create_row. cbv beta zeta. cbn [next_id log].
  rewrite Hn, Hv.
  destruct (created_row (next_id w) a) as [r|]; [|discriminate].
  destruct (accepts (autos w) r); [|discriminate].
  destruct (bool_decide (autos w !! id r = None)) eqn:Hfresh;
    [|discriminate].
  apply bool_decide_eq_true in Hfresh.
  cbn [andb]. unfold send_mail. intros [= <- <-].
  exists r. repeat split; assumption || reflexivity.
Qed.

Lemma created_row_version (i : Z) (a : AutoCreate.t) (r : auto) :
  created_row i a = Some r ->
  version r = default 0%Z (AutoCreate.version a) /\ id r = i.
Proof.
  unfold created_row. intros H.
  destruct (AutoCreate.fgnr a); [|discriminate].
  destruct (stored_decimal _); [|discriminate].
  destruct (stored_integer _); [|discriminate].
  destruct (date _); [|discriminate].
  simpl in H. injection H as <-. split; reflexivity.
Qed.

(** C5: every car created through the REST controller ([post]) or the
    GraphQL resolver ([create]) is stored, under a new id, with version
    0, whatever the request carries: both mappings from the DTO set
    [version: 0] themselves and read no version from it. *)
Theorem created_entity_has_version_0 (w w' : world) (autoDTO : AutoDTO.t)
    (n : Js.number) :
  post accepts new_Date autoDTO w = (Return n, w') \/
  mutation_create accepts new_Date autoDTO w = (Return n, w') ->
  exists r,
    n = of_Z (id r) /\
    autos w !! id r = None /\
    autos w' !! id r = Some r /\
    version r = 0%Z.
Proof.
  unfold post, mutation_create.
  intros [H|H]; apply create_returns in H as (r & Hc & -> & Hfresh & ->);
    apply created_row_version in Hc as [Hv _];
    exists r; rewrite lookup_insert_eq; repeat split;
      assumption || reflexivity.
Qed.

(** ** Searching *)

Lemma checkKeys_forallb (keys : list string) :
  checkKeys keys = forallb (array_includes suchparameterNamen) keys.
Proof.
  unfold checkKeys.
  assert (forall b,
    fold_left
      (fun validKeys key =>
         if negb (array_includes suchparameterNamen key) then false
         else validKeys) keys b =
    b && forallb (array_includes suchparameterNamen) keys) as H.
  { induction keys as [|k keys IH]; intros b; cbn [fold_left forallb].
    - now rewrite andb_true_r.
    - rewrite IH. destruct (array_includes suchparameterNamen k);
        cbn [negb andb]; [reflexivity|now rewrite andb_false_r]. }
  apply H.
Qed.

Lemma array_includes_elem_of (l : list string) (x : string) :
  array_includes l x = true <-> x ∈ l.
Proof.
  unfold array_includes. rewrite existsb_exists, list_elem_of_In. split.
  - intros (y & Hy & ->%String.eqb_eq). exact Hy.
  - intros H. exists x. split; [exact H|apply String.eqb_refl].
Qed.

(** C7: a filter that is not empty and has a key outside the list of
    names, or whose [art] is neither undefined nor one of the three enum
    names, makes [find] fail with [NotFoundException], whatever its other
    keys are; nothing is read from the database. *)
Theorem find_invalid_filter_not_found (w : world)
    (suchparameter : Suchparameter) (pageable : Pageable) :
  suchparameter <> [] ->
  (exists key, key ∈ suchparameter.*1 /\ key ∉ suchparameterNamen) \/
  (get "art" suchparameter <> VUndefined /\
   forall a, get "art" suchparameter <> VString (autoart_name a)) ->
  find new_Date Number_toString (Some suchparameter) pageable w =
  (Throw (NotFoundException UngueltigeSuchparameter), w).
Proof.
  intros Hne Hbad. unfold find.
  destruct suchparameter as [|kv rest] eqn:Hsp; [congruence|].
  rewrite <- Hsp in *. replace (length suchparameter.*1 =? 0)%nat with false
    by now rewrite Hsp.
  assert (negb (checkKeys suchparameter.*1) ||
          negb (checkEnums suchparameter) = true) as ->; [|reflexivity].
  apply orb_true_iff. destruct Hbad as [(key & Hin & Hout)|[Hu Henum]].
  - left. apply negb_true_iff. rewrite checkKeys_forallb.
    apply not_true_is_false. intros Hall.
    rewrite forallb_forall in Hall. apply Hout.
    apply array_includes_elem_of, Hall. now apply list_elem_of_In.
  - right. apply negb_true_iff. unfold checkEnums.
    destruct (get "art" suchparameter) as [| | | |s]; try reflexivity;
      [congruence|].
    apply not_true_is_false. intros H.
    apply orb_true_iff in H as [H|H%String.eqb_eq];
      [apply orb_true_iff in H as [H%String.eqb_eq|H%String.eqb_eq]|].
    + now apply (Henum COUPE); subst.
    + now apply (Henum LIMO); subst.
    + now apply (Henum KOMBI); subst.
Qed.

Lemma findAll_returns (w w' : world) (pageable : Pageable) (s : Slice) :
  findAll pageable w = (Return s, w') ->
  totalElements s = length (rows w).
Proof.
  unfold findAll, findMany, count, count_where, checked. unfold_monad.
  cbv beta. cbn [selected].
  destruct (firstn _ _); [discriminate|].
  intros [= <- _]. reflexivity.
Qed.

(** What [find] has done when it returns for a filter: the filter is
    valid, the content is the requested page of the rows that match the
    where-clause built from it, and [totalElements] is the number of all
    rows of the table. *)
Lemma find_returns (w w' : world) (suchparameter : Suchparameter)
    (pageable : Pageable) (s : Slice) :
  suchparameter <> [] ->
  find new_Date Number_toString (Some suchparameter) pageable w =
  (Return s, w') ->
  exists where_,
    build new_Date Number_toString suchparameter = inr where_ /\
    content s =
      schlagwoerter_or_empty <$>
        (ohne_bilder <$>
           firstn (size pageable)
             (skipn (number pageable * size pageable)
                (List.filter (matches where_) (rows w)))) /\
    totalElements s = length (rows w).
Proof.
  intros Hne. unfold find.
  destruct suchparameter as [|kv rest] eqn:Hsp; [congruence|].
  rewrite <- Hsp in *. replace (length suchparameter.*1 =? 0)%nat with false
    by now rewrite Hsp.
  destruct (negb (checkKeys _) || negb (checkEnums _)); [discriminate|].
  destruct (build _ _ suchparameter) as [e|where_]; [discriminate|].
  unfold findMany, count, count_where, checked. unfold_monad. cbv beta.
  destruct (where_ok where_); [|discriminate].
  cbn [selected].
  destruct (firstn _ _) as [|r l] eqn:Hpage; [discriminate|].
  intros [= <- _]. exists where_. rewrite Hpage.
  repeat split; reflexivity.
Qed.

Lemma length_rows (w : world) :
  length (rows w) = length (map_to_list (autos w)).
Proof.
  unfold rows. rewrite length_fmap. now rewrite merge_sort_Permutation.
Qed.

(** C1, as amended: for a filter that is not empty and valid, the
    [totalElements] of the slice [find] returns is the number of all
    rows of the table, as [count ()] gives it without a where-clause; it
    is not the number of rows matching the filter. *)
Theorem find_totalElements_counts_all_rows (w w' : world)
    (suchparameter : Suchparameter) (pageable : Pageable) (s : Slice) :
  suchparameter <> [] ->
  checkKeys suchparameter.*1 = true ->
  checkEnums suchparameter = true ->
  find new_Date Number_toString (Some suchparameter) pageable w =
  (Return s, w') ->
  totalElements s = length (map_to_list (autos w)) /\
  (count w).1 = Return (totalElements s).
Proof.
  intros Hne _ _ H.
  apply find_returns in H as (where_ & Hb & Hc & Ht); [|exact Hne].
  rewrite Ht. split; [apply length_rows|reflexivity].
Qed.

(** ** Building the where-clause *)

Local Abbreviation build_entry' := (build_entry new_Date Number_toString).
Local Abbreviation build' := (build new_Date Number_toString).

Lemma without_absent (key : string) (o : Suchparameter) :
  key ∉ o.*1 -> without key o = o.
Proof.
  induction o as [|[k x] o IH]; intros H; [reflexivity|].
  unfold without in *. cbn [List.filter fst].
  rewrite fmap_cons, not_elem_of_cons in H. destruct H as [Hk Ho].
  cbn [fst] in Hk.
  assert (String.eqb k key = false) as -> by (apply String.eqb_neq; congruence).
  cbn [negb]. now rewrite IH.
Qed.

Lemma without_keys (key k : string) (o : Suchparameter) :
  k ∈ (without key o).*1 <-> k ∈ o.*1 /\ k <> key.
Proof.
  induction o as [|[k1 x] o IH]; unfold without in *; cbn [List.filter fst].
  - rewrite fmap_nil. split; [intros []%elem_of_nil|intros [[]%elem_of_nil _]].
  - destruct (String.eqb k1 key) eqn:E; cbn [negb].
    + apply String.eqb_eq in E as ->. rewrite IH, fmap_cons, elem_of_cons.
      cbn [fst]. intuition congruence.
    + apply String.eqb_neq in E. rewrite !fmap_cons, !elem_of_cons, IH.
      cbn [fst]. intuition congruence.
Qed.

Lemma without_NoDup (key : string) (o : Suchparameter) :
  NoDup o.*1 -> NoDup (without key o).*1.
Proof.
  induction o as [|[k x] o IH]; intros H; [exact H|].
  rewrite fmap_cons in H. apply NoDup_cons in H as [Hk Ho].
  unfold without in *. cbn [List.filter fst].
  destruct (String.eqb k key); cbn [negb]; [now apply IH|].
  rewrite fmap_cons. apply NoDup_cons. split; [|now apply IH].
  cbn [fst] in *. intros Hin. apply Hk.
  now apply (without_keys key k o) in Hin as [Hin _].
Qed.

Lemma without_elem (key k : string) (x : value) (o : Suchparameter) :
  k <> key -> (k, x) ∈ o -> (k, x) ∈ without key o.
Proof.
  intros Hk. induction o as [|[k1 x1] o IH]; intros H;
    [now apply elem_of_nil in H|].
  unfold without in *. cbn [List.filter fst].
  apply elem_of_cons in H as [[= <- <-]|H].
  - assert (String.eqb k key = false) as -> by now apply String.eqb_neq.
    cbn [negb]. apply elem_of_cons. now left.
  - destruct (String.eqb k1 key); cbn [negb]; [now apply IH|].
    apply elem_of_cons. right. now apply IH.
Qed.

Lemma without_comm (k1 k2 : string) (o : Suchparameter) :
  without k1 (without k2 o) = without k2 (without k1 o).
Proof.
  induction o as [|[k x] o IH]; [reflexivity|].
  unfold without in *. cbn [List.filter fst].
  destruct (String.eqb k k1) eqn:E1, (String.eqb k k2) eqn:E2;
    cbn [negb List.filter fst]; rewrite ?E1, ?E2; cbn [negb];
    now rewrite IH.
Qed.

Lemma get_without (key k : string) (o : Suchparameter) :
  k <> key -> get k (without key o) = get k o.
Proof.
  intros Hk. unfold get, without.
  induction o as [|[k1 x] o IH]; [reflexivity|].
  cbn [List.filter List.find fst].
  destruct (String.eqb k1 key) eqn:E; cbn [negb List.find fst].
  - apply String.eqb_eq in E as ->.
    assert (String.eqb key k = false) as ->
      by (apply String.eqb_neq; congruence).
    exact IH.
  - destruct (String.eqb k1 k); [reflexivity|exact IH].
Qed.

(** The loop of [build], when one key is handled by [upd] and [upd]
    does not interfere with the handling of the other keys. *)
Section One_key.

Variable key : string.
Variable upd : value -> Where.t -> Where.t.

Hypothesis upd_entry : forall v w, build_entry' w (key, v) = upd v w.
Hypothesis upd_other : forall v k x w,
  k <> key -> build_entry' (upd v w) (k, x) = upd v (build_entry' w (k, x)).

Lemma fold_upd_absent (l : Suchparameter) (v : value) (w : Where.t) :
  key ∉ l.*1 ->
  fold_left build_entry' l (upd v w) = upd v (fold_left build_entry' l w).
Proof.
  revert w. induction l as [|[k x] l IH]; intros w H; [reflexivity|].
  rewrite fmap_cons, not_elem_of_cons in H. destruct H as [Hk Hl].
  cbn [fold_left]. rewrite upd_other by (cbn in Hk; congruence).
  now apply IH.
Qed.

Lemma fold_upd_present (l : Suchparameter) (v : value) (w : Where.t) :
  NoDup l.*1 -> (key, v) ∈ l ->
  fold_left build_entry' l w =
  upd v (fold_left build_entry' (without key l) w).
Proof.
  revert w. induction l as [|[k x] l IH]; intros w Hnd Hin;
    [now apply elem_of_nil in Hin|].
  rewrite fmap_cons in Hnd. apply NoDup_cons in Hnd as [Hk Hnd].
  cbn [fst] in Hk. cbn [fold_left].
  unfold without. cbn [List.filter fst]. fold (without key l).
  destruct (String.eqb k key) eqn:E; cbn [negb].
  - apply String.eqb_eq in E as ->.
    assert (x = v) as ->.
    { apply elem_of_cons in Hin as [[= ->]|Hin]; [reflexivity|].
      exfalso. apply Hk. apply list_elem_of_fmap. now exists (key, v). }
    rewrite without_absent by exact Hk.
    rewrite upd_entry. now apply fold_upd_absent.
  - apply String.eqb_neq in E. cbn [fold_left]. apply IH; [exact Hnd|].
    apply elem_of_cons in Hin as [[= ? ?]|Hin]; [congruence|exact Hin].
Qed.

End One_key.

Local Abbreviation preis_entry' := (preis_entry new_Date Number_toString).
Local Abbreviation rabatt_entry' := (rabatt_entry new_Date Number_toString).

Lemma preis_entry_eq (v : value) (w : Where.t) :
  preis_entry' v w =
  if Number_isNaN (parseFloat Number_toString v) then w
  else Where.set_preis (parseFloat Number_toString v) w.
Proof.
  unfold preis_entry, build_entry. cbn [String.eqb Ascii.eqb Bool.eqb].
  now destruct (Number_isNaN _).
Qed.

Lemma rabatt_entry_eq (v : value) (w : Where.t) :
  rabatt_entry' v w =
  if Number_isNaN (parseInt Number_toString v) then w
  else Where.set_rabatt (parseInt Number_toString v) w.
Proof.
  unfold rabatt_entry, build_entry. cbn [String.eqb Ascii.eqb Bool.eqb].
  now destruct (Number_isNaN _).
Qed.

(** Going through the cases of the [switch] on the key [k]; the case of
    a key that [k] is assumed to differ from is closed. *)
Ltac by_key k :=
  unfold build_entry;
  repeat match goal with
         | |- context [String.eqb k ?lit] =>
             let E := fresh "E" in
             destruct (String.eqb k lit) eqn:E;
             [try (apply String.eqb_eq in E; congruence)|]
         end.

Lemma preis_entry_other (v : value) (k : string) (x : value) (w : Where.t) :
  k <> "preis" ->
  build_entry' (preis_entry' v w) (k, x) =
  preis_entry' v (build_entry' w (k, x)).
Proof.
  intros Hk. rewrite !preis_entry_eq.
  destruct (Number_isNaN (parseFloat Number_toString v)); [reflexivity|].
  by_key k; try reflexivity. now destruct (negb _).
Qed.

Lemma rabatt_entry_other (v : value) (k : string) (x : value) (w : Where.t) :
  k <> "rabatt" ->
  build_entry' (rabatt_entry' v w) (k, x) =
  rabatt_entry' v (build_entry' w (k, x)).
Proof.
  intros Hk. rewrite !rabatt_entry_eq.
  destruct (Number_isNaN (parseInt Number_toString v)); [reflexivity|].
  by_key k; try reflexivity. now destruct (negb _).
Qed.

(** Without the key, the loop leaves the field as it is. *)
Lemma fold_preis_absent (l : Suchparameter) (w : Where.t) :
  "preis" ∉ l.*1 ->
  Where.preis (fold_left build_entry' l w) = Where.preis w.
Proof.
  revert w. induction l as [|[k x] l IH]; intros w H; [reflexivity|].
  rewrite fmap_cons, not_elem_of_cons in H. destruct H as [Hk Hl].
  cbn [fst] in Hk. cbn [fold_left]. rewrite IH by exact Hl.
  by_key k; try reflexivity. now destruct (negb _).
Qed.

Lemma fold_rabatt_absent (l : Suchparameter) (w : Where.t) :
  "rabatt" ∉ l.*1 ->
  Where.rabatt (fold_left build_entry' l w) = Where.rabatt w.
Proof.
  revert w. induction l as [|[k x] l IH]; intros w H; [reflexivity|].
  rewrite fmap_cons, not_elem_of_cons in H. destruct H as [Hk Hl].
  cbn [fst] in Hk. cbn [fold_left]. rewrite IH by exact Hl.
  by_key k; try reflexivity. now destruct (negb _).
Qed.

(** [build] on an object with the key, from [build] on the object
    without it. *)
Lemma build_one_key (key : string) (upd : value -> Where.t -> Where.t)
    (suchparameter : Suchparameter) (v : value) :
  key <> "schlagwort" ->
  (forall v w, build_entry' w (key, v) = upd v w) ->
  (forall v k x w, k <> key ->
     build_entry' (upd v w) (k, x) = upd v (build_entry' w (k, x))) ->
  (forall v s w,
     Where.set_schlagwoerter s (upd v w) =
     upd v (Where.set_schlagwoerter s w)) ->
  NoDup suchparameter.*1 ->
  (key, v) ∈ suchparameter ->
  build' suchparameter =
  sum_map (fun e => e) (upd v) (build' (without key suchparameter)).
Proof.
  intros Hkey H1 H2 H3 Hnd Hin. unfold build.
  rewrite get_without by congruence.
  rewrite (without_comm "schlagwort" key).
  rewrite (fold_upd_present key upd H1 H2 _ v);
    [|now apply without_NoDup|now apply without_elem].
  destruct (buildSchlagwoerter _) as [e|[s|]]; cbn [sum_map];
    [reflexivity| |reflexivity].
  now rewrite H3.
Qed.

Lemma build_field_absent (suchparameter : Suchparameter) (where_ : Where.t) :
  build' suchparameter = inr where_ ->
  ("preis" ∉ suchparameter.*1 -> Where.preis where_ = None) /\
  ("rabatt" ∉ suchparameter.*1 -> Where.rabatt where_ = None).
Proof.
  unfold build. intros H.
  assert (forall k, k ∉ suchparameter.*1 ->
            k ∉ (without "schlagwort" suchparameter).*1) as Hw.
  { intros k Hk Hin. now apply without_keys in Hin as [Hin _]. }
  destruct (buildSchlagwoerter _) as [e|[s|]]; [discriminate| |];
    injection H as <-; split; intros Hk; cbn [Where.set_schlagwoerter
      Where.preis Where.rabatt];
    (rewrite fold_preis_absent by now apply Hw) ||
    (rewrite fold_rabatt_absent by now apply Hw); reflexivity.
Qed.

Lemma matches_preis (n : Js.number) (w : Where.t) (r : auto) :
  matches (Where.set_preis n w) r = true -> le (Finite (preis r)) n = true.
Proof.
  unfold matches. cbn [Where.set_preis Where.preis on_some].
  intros H. repeat (apply andb_prop in H as [H ?]). assumption.
Qed.

Lemma matches_rabatt (n : Js.number) (w : Where.t) (r : auto) :
  matches (Where.set_rabatt n w) r = true -> le n (of_Z (rabatt r)) = true.
Proof.
  unfold matches. cbn [Where.set_rabatt Where.rabatt on_some].
  intros H. repeat (apply andb_prop in H as [H ?]). assumption.
Qed.

Lemma preis_entry_schlagwoerter (v : value) (s : string) (w : Where.t) :
  Where.set_schlagwoerter s (preis_entry' v w) =
  preis_entry' v (Where.set_schlagwoerter s w).
Proof. rewrite !preis_entry_eq. now destruct (Number_isNaN _). Qed.

Lemma rabatt_entry_schlagwoerter (v : value) (s : string) (w : Where.t) :
  Where.set_schlagwoerter s (rabatt_entry' v w) =
  rabatt_entry' v (Where.set_schlagwoerter s w).
Proof. rewrite !rabatt_entry_eq. now destruct (Number_isNaN _). Qed.


End Properties.

(* ===================================================================== *)
(** * The properties on the example database *)
(* ===================================================================== *)

Import Example.

Ltac evaluate := vm_compute; reflexivity.

(** ** The runtime functions on some inputs *)

Example parseInt10_examples :
  parseInt10 "12px" = of_Z 12 /\
  parseInt10 "  -7" = of_Z (-7) /\
  parseInt10 "+5.9" = of_Z 5 /\
  parseInt10 "abc" = NaN /\
  parseInt10 "-" = NaN /\
  parseInt10 "" = NaN /\
  parseInt10 "9007199254740993" = of_Z 9007199254740992.
Proof. repeat split; evaluate. Qed.

Example parseFloatStr_examples :
  parseFloatStr "44990" = Finite 44990 /\
  parseFloatStr " 12.5e1 EUR" = Finite 125 /\
  parseFloatStr "-.5" = Finite (Qmake (-1) 2) /\
  parseFloatStr "1e-2" = Finite (Qmake 1 100) /\
  parseFloatStr "1e" = Finite 1 /\
  parseFloatStr "0.3" = Finite (Qmake 3 10) /\
  parseFloatStr "0.299999999999999999" = Finite (Qmake 3 10) /\
  parseFloatStr "1e400" = Infinity /\
  parseFloatStr "-1.8e308" = NegInfinity /\
  parseFloatStr "2e-324" = Finite 0 /\
  parseFloatStr "Infinity" = Infinity /\
  parseFloatStr "." = NaN /\
  parseFloatStr "abc" = NaN.
Proof. repeat split; evaluate. Qed.

Example VERSION_PATTERN_examples :
  test_anchored_start VERSION_PATTERN <$>
    [quoted "0"; quoted "12"; quoted "123"; quoted "1234"; quoted "";
     quoted "-1"; "0"; "x" +:+ quoted "0"; quoted "0" +:+ "x"] =
  [true; true; true; false; false; false; false; false; true].
Proof. reflexivity. Qed.

Example slice_examples :
  slice 1 (-1) (quoted "12") = "12" /\
  slice 1 (-1) (quoted "12" +:+ "x") = "12" +:+ String dquote "" /\
  slice 1 (-1) "a" = "" /\
  slice 1 (-1) "" = "".
Proof. repeat split. Qed.

Example string_examples :
  trim "  sport " = "sport" /\
  toUpperCase "sport" = "SPORT" /\
  toLowerCase "TRUE" = "true" /\
  includes "bm" (toLowerCase "BMW") = true /\
  Js.startsWith "1-00" "1-0001-6" = true.
Proof. repeat split. Qed.

Example like_examples :
  like "2_%" "2-0003-6" = true /\
  like "2_%" "1-0001-6" = false /\
  like "%" "" = true /\
  like "%bm%" "bmw" = true /\
  like "a\_%" "a_b" = true /\
  like "a\_%" "axb" = false /\
  like "a\" "a\" = false.
Proof. repeat split. Qed.

Example stored_examples :
  stored_decimal (Finite (Qmake 1 8)) = Some (Qmake 13 100) /\
  stored_decimal (Finite (Qmake (-1) 8)) = Some (Qmake (-13) 100) /\
  stored_decimal (parseFloatStr "1.005") = Some (Qmake 101 100) /\
  stored_decimal (of_Z 44990) = Some (Qmake 44990 1) /\
  stored_decimal NaN = None /\
  stored_integer (Finite (Qmake 11 2)) = Some 5%Z /\
  stored_integer (Finite (Qmake (-11) 2)) = Some (-5)%Z /\
  date (Some (of_Z 1738404000000)) = Some (Some 1738368000000%Z).
Proof. repeat split; evaluate. Qed.

(** The store on filters with wildcards and with numbers it refuses. *)
Example find_examples :
  (find_ (Some [("fgnr", VString "2_")]) page0 db).1 =
    Return {| content := [alt]; totalElements := 3 |} /\
  (find_ (Some [("modell", VString "%")]) page0 db).1 =
    Return {| content := [bmw; audi; alt]; totalElements := 3 |} /\
  (find_ (Some [("preis", VString "Infinity")]) page0 db).1 =
    Throw (PrismaClientError ValidationError) /\
  (find_ (Some [("rabatt", VString "2147483648")]) page0 db).1 =
    Throw (PrismaClientError ValidationError) /\
  (find_ (Some [("art", VString "COUPE")]) {| number := 0; size := 2 |}
     db).1 =
    Return {| content := [bmw; audi]; totalElements := 3 |}.
Proof. repeat split; evaluate. Qed.

Example createBaseUri_examples :
  createBaseUri ":3000"
    {| protocol := "https"; hostname := "localhost";
       url := "/rest/1000?a=b?c" |} = "https://localhost:3000/rest/1000?a=b" /\
  createBaseUri ":3000"
    {| protocol := "https"; hostname := "localhost"; url := "/1" |} =
    "https://localhost:3000/1".
Proof. repeat split. Qed.

(** C2 at the token ["0"x]: the pattern, anchored at the start only,
    accepts the token although characters follow the closing quote;
    [update] then reads version 0 from it, raises no
    [VersionInvalidException], writes the row and returns version 1. *)
Lemma update_accepts_trailing_characters :
  test_anchored_start VERSION_PATTERN (quoted "0" +:+ "x") = true /\
  test_anchored_both VERSION_PATTERN (quoted "0" +:+ "x") = false /\
  parseInt10 (slice 1 (-1) (quoted "0" +:+ "x")) = of_Z 0 /\
  (update_ (params 1001 (quoted "0" +:+ "x")) db).1 = Return (of_Z 1) /\
  autos (update_ (params 1001 (quoted "0" +:+ "x")) db).2 !! 1001%Z =
  Some audi_neu.
Proof. repeat split; evaluate. Qed.

(** C1 as stated fails: for the filter [{ modell: "bm" }] one row of the
    three matches, and [find] returns it with [totalElements] 3. *)
Lemma find_totalElements_is_not_the_matching_count :
  checkKeys nach_modell.*1 = true /\
  checkEnums nach_modell = true /\
  build new_Date Number_toString nach_modell = inr where_modell /\
  (find_ (Some nach_modell) page0 db).1 =
    Return {| content := [bmw]; totalElements := 3 |} /\
  List.filter (matches where_modell) (rows db) = [bmw].
Proof. repeat split; evaluate. Qed.

(** C4 as stated fails: row 1000 has version 3 and the token ["3"] is
    accepted, but the changes give the row the chassis number of row
    1001, the database rejects that, and [update] throws; the table is as
    it was. *)
Lemma update_rejected_by_unique_fgnr :
  autos db !! 1000%Z = Some bmw /\
  test_anchored_start VERSION_PATTERN (quoted "3") = true /\
  parseInt10 (slice 1 (-1) (quoted "3")) = of_Z 3 /\
  (version bmw <= 3)%Z /\
  AutoUpdate.fgnr daten = Some (fgnr audi) /\
  (update_ (params 1000 (quoted "3")) db).1 =
    Throw (PrismaClientError ConstraintFailed) /\
  autos (update_ (params 1000 (quoted "3")) db).2 = autos db.
Proof. repeat split; try evaluate. vm_compute. discriminate. Qed.

(** C3 on row 1000 (version 3) with the token ["2"]. *)
Lemma update_outdated_version_rejected_witness :
  autos db !! 1000%Z = Some bmw /\
  test_anchored_start VERSION_PATTERN (quoted "2") = true /\
  parseInt10 (slice 1 (-1) (quoted "2")) = of_Z 2 /\
  (2 < version bmw)%Z /\
  exists w',
    update_ (params 1000 (quoted "2")) db =
    (Throw (VersionOutdatedException (of_Z 2)), w') /\
    autos w' = autos db.
Proof.
  assert (autos db !! 1000%Z = Some bmw) as H1 by evaluate.
  assert (test_anchored_start VERSION_PATTERN (quoted "2") = true) as H2
    by evaluate.
  assert (parseInt10 (slice 1 (-1) (quoted "2")) = of_Z 2) as H3
    by evaluate.
  assert (2 < version bmw)%Z as H4 by evaluate.
  split; [exact H1|]. split; [exact H2|]. split; [exact H3|].
  split; [exact H4|].
  exact (proj1 (update_outdated_version_rejected schema_constraints
                  db 1000 bmw daten (quoted "2") 2 H1 H2 H3) H4).
Defined.

(** C4 as amended on row 1001 (version 0) with the token ["0"]. *)
Lemma update_increments_version_witness :
  autos db !! 1001%Z = Some audi /\
  test_anchored_start VERSION_PATTERN (quoted "0") = true /\
  parseInt10 (slice 1 (-1) (quoted "0")) = of_Z 0 /\
  (version audi <= 0)%Z /\
  updated_row (AutoUpdate.with_version (increment 1) daten) audi =
    Some audi_neu /\
  schema_constraints (delete 1001%Z (autos db)) audi_neu = true /\
  exists w',
    update_ (params 1001 (quoted "0")) db =
    (Return (of_Z (version audi + 1)), w') /\
    autos w' = <[1001%Z := audi_neu]> (autos db) /\
    version audi_neu = (version audi + 1)%Z.
Proof.
  assert (autos db !! 1001%Z = Some audi) as H1 by evaluate.
  assert (test_anchored_start VERSION_PATTERN (quoted "0") = true) as H2
    by evaluate.
  assert (parseInt10 (slice 1 (-1) (quoted "0")) = of_Z 0) as H3
    by evaluate.
  assert (version audi <= 0)%Z as H4 by (vm_compute; discriminate).
  assert (updated_row (AutoUpdate.with_version (increment 1) daten) audi =
          Some audi_neu) as H5 by evaluate.
  assert (schema_constraints (delete 1001%Z (autos db)) audi_neu = true)
    as H6 by evaluate.
  split; [exact H1|]. split; [exact H2|]. split; [exact H3|].
  split; [exact H4|]. split; [exact H5|]. split; [exact H6|].
  exact (update_increments_version schema_constraints
           db 1001 audi audi_neu daten (quoted "0") 0 H1 H2 H3 H4 H5 H6).
Defined.

(** C10 on row 1002 (version 1000), after two updates. *)
Lemma update_impossible_from_version_1000_witness :
  autos db !! 1002%Z = Some alt /\
  (1000 <= version alt)%Z /\
  autos (run_updates schema_constraints history db) !! 1002%Z = Some alt /\
  exists e w2,
    update_ (params 1002 (quoted "999"))
      (run_updates schema_constraints history db) = (Throw e, w2) /\
    autos w2 = autos (run_updates schema_constraints history db) /\
    (e = VersionInvalidException (quoted "999") \/
     exists n, (0 <= n <= 999)%Z /\ e = VersionOutdatedException (of_Z n)).
Proof.
  assert (autos db !! 1002%Z = Some alt) as H1 by evaluate.
  assert (1000 <= version alt)%Z as H2 by (vm_compute; discriminate).
  split; [exact H1|]. split; [exact H2|].
  exact (update_impossible_from_version_1000 schema_constraints
           db 1002 alt history daten (quoted "999") H1 H2).
Defined.

(** C9 on row 1000, and on the id 5 that no row has. *)
Lemma delete_reports_existence_witness :
  autos db !! 1000%Z = Some bmw /\
  autos db !! 5%Z = None /\
  (exists w',
     delete_ 1000 db = (Return true, w') /\
     autos w' = delete 1000%Z (autos db) /\
     autos w' !! 1000%Z = None /\
     (forall mitBilder,
        (findById 1000 mitBilder w').1 =
        Throw (NotFoundException (KeinAutoMitDerId (Some 1000%Z)))) /\
     (delete_ 1000 w').1 = Return false) /\
  (exists w', delete_ 5 db = (Return false, w') /\ autos w' = autos db).
Proof.
  assert (autos db !! 1000%Z = Some bmw) as H1 by evaluate.
  assert (autos db !! 5%Z = None) as H2 by evaluate.
  split; [exact H1|]. split; [exact H2|].
  split.
  - exact (proj1 (delete_reports_existence db 1000) bmw H1).
  - exact (proj2 (delete_reports_existence db 5) H2).
Defined.

(** C6 on a new car with the chassis number of row 1000. *)
Lemma create_existing_fgnr_conflict_witness :
  AutoCreate.fgnr (autoDtoToAutoCreateInput new_Date (neues_auto "1-0001-6"))
    = Some "1-0001-6" /\
  autos db !! 1000%Z = Some bmw /\
  fgnr bmw = "1-0001-6" /\
  exists w',
    create_ (autoDtoToAutoCreateInput new_Date (neues_auto "1-0001-6")) db =
    (Throw (FgnrExistsException "1-0001-6"), w') /\
    autos w' = autos db.
Proof.
  assert (autos db !! 1000%Z = Some bmw) as H1 by evaluate.
  split; [reflexivity|]. split; [exact H1|]. split; [reflexivity|].
  exact (create_existing_fgnr_conflict schema_constraints db
           (autoDtoToAutoCreateInput new_Date (neues_auto "1-0001-6"))
           "1-0001-6" 1000 bmw eq_refl H1 eq_refl).
Defined.

(** C5 on a request body that carries version 7. *)
Lemma created_entity_has_version_0_witness :
  get "version" (AutoDTO.further (neues_auto "1-0100-6")) =
    VNumber (of_Z 7) /\
  (post schema_constraints new_Date (neues_auto "1-0100-6") db).1 =
    Return (of_Z 1003) /\
  autos (post schema_constraints new_Date (neues_auto "1-0100-6") db).2
    !! 1003%Z = Some neu /\
  exists r,
    of_Z 1003 = of_Z (id r) /\
    autos db !! id r = None /\
    autos (post schema_constraints new_Date (neues_auto "1-0100-6") db).2
      !! id r = Some r /\
    version r = 0%Z.
Proof.
  assert (post schema_constraints new_Date (neues_auto "1-0100-6") db =
          (Return (of_Z 1003),
           (post schema_constraints new_Date (neues_auto "1-0100-6") db).2))
    as H by evaluate.
  split; [reflexivity|]. split; [now rewrite H|].
  split; [evaluate|].
  exact (created_entity_has_version_0 schema_constraints new_Date db _
           (neues_auto "1-0100-6") (of_Z 1003) (or_introl H)).
Defined.

(** C7 on a filter with the key [farbe]. *)
Lemma find_invalid_filter_not_found_witness :
  mit_farbe <> [] /\
  ("farbe" ∈ mit_farbe.*1) /\
  ("farbe" ∉ suchparameterNamen) /\
  find_ (Some mit_farbe) page0 db =
  (Throw (NotFoundException UngueltigeSuchparameter), db).
Proof.
  assert (mit_farbe <> []) as H1 by discriminate.
  assert ("farbe" ∈ mit_farbe.*1) as H2 by (apply elem_of_cons; now left).
  assert ("farbe" ∉ suchparameterNamen) as H3.
  { intros H%array_includes_elem_of. vm_compute in H. discriminate H. }
  split; [exact H1|]. split; [exact H2|]. split; [exact H3|].
  exact (find_invalid_filter_not_found new_Date Number_toString db
           mit_farbe page0 H1
           (or_introl (ex_intro _ "farbe" (conj H2 H3)))).
Defined.

(** C1 as amended on the filter [{ modell: "bm" }]. *)
Lemma find_totalElements_counts_all_rows_witness :
  nach_modell <> [] /\
  checkKeys nach_modell.*1 = true /\
  checkEnums nach_modell = true /\
  (find_ (Some nach_modell) page0 db).1 =
    Return {| content := [bmw]; totalElements := 3 |} /\
  length (map_to_list (autos db)) = 3%nat /\
  (count db).1 = Return 3%nat.
Proof.
  assert (nach_modell <> []) as H1 by discriminate.
  assert (checkKeys nach_modell.*1 = true) as H2 by evaluate.
  assert (checkEnums nach_modell = true) as H3 by evaluate.
  assert (find_ (Some nach_modell) page0 db =
          (Return {| content := [bmw]; totalElements := 3 |},
           (find_ (Some nach_modell) page0 db).2)) as H4 by evaluate.
  split; [exact H1|]. split; [exact H2|]. split; [exact H3|].
  split; [now rewrite H4|].
  exact (find_totalElements_counts_all_rows new_Date Number_toString
           db _ nach_modell page0 _ H1 H2 H3 H4).
Defined.


(* ===================================================================== *)
(** * Further properties: reading *)
(* ===================================================================== *)

Section Reading.

Variable new_Date : value -> Js.number.
Variable Number_toString : Js.number -> string.

Local Abbreviation find' := (find new_Date Number_toString).

Lemma findMany_state (w : world) (wh : option Where.t) (skip take : nat) :
  (findMany wh skip take w).2 = log (auto_findMany wh skip take) w.
Proof.
  unfold findMany, checked. destruct wh as [x|]; [|reflexivity].
  now destruct (where_ok x).
Qed.

Lemma findAll_table (w : world) (pageable : Pageable) :
  autos (findAll pageable w).2 = autos w /\
  next_id (findAll pageable w).2 = next_id w.
Proof.
  unfold findAll, findMany, count, count_where, checked. unfold_monad.
  cbv beta. cbn [selected]. now destruct (firstn _ _).
Qed.

Lemma find_table (w : world) (suchparameter : option Suchparameter)
    (pageable : Pageable) :
  autos (find' suchparameter pageable w).2 = autos w /\
  next_id (find' suchparameter pageable w).2 = next_id w.
Proof.
  unfold find. destruct suchparameter as [sp|]; [|apply findAll_table].
  destruct (length sp.*1 =? 0)%nat; [apply findAll_table|].
  destruct (negb _ || negb _); [split; reflexivity|].
  destruct (build _ _ sp) as [e|where_]; [split; reflexivity|].
  unfold findMany, count, count_where, checked. unfold_monad. cbv beta.
  destruct (where_ok where_); [|split; reflexivity].
  cbn [selected]. now destruct (firstn _ _).
Qed.

(** X1: reading never writes. [findById], [find] and [count] leave the
    table and the next id as they are, whether they return or throw. *)
Theorem reading_leaves_the_table (w : world) :
  (forall i mitBilder,
     autos (findById i mitBilder w).2 = autos w /\
     next_id (findById i mitBilder w).2 = next_id w) /\
  (forall suchparameter pageable,
     autos (find' suchparameter pageable w).2 = autos w /\
     next_id (find' suchparameter pageable w).2 = next_id w) /\
  autos (count w).2 = autos w /\ next_id (count w).2 = next_id w.
Proof.
  split; [|split; [apply find_table|split; reflexivity]].
  intros i b. destruct (autos w !! i) as [r|] eqn:Hr.
  - now rewrite (findById_found _ _ _ _ Hr).
  - now rewrite (findById_missing _ _ _ Hr).
Qed.

Lemma page_of_nil (pageable : Pageable) (l : list auto) :
  page_of pageable l = [] <->
  size pageable = 0%nat \/
  (length l <= number pageable * size pageable)%nat.
Proof.
  unfold page_of. split.
  - intros H. destruct (size pageable) as [|n] eqn:Hs; [now left|right].
    destruct (skipn _ l) as [|a l'] eqn:Hd; [|discriminate H].
    apply (f_equal (@length auto)) in Hd. rewrite length_skipn in Hd.
    simpl in Hd. lia.
  - intros [->|H]; [reflexivity|].
    rewrite skipn_all2 by exact H. now destruct (size pageable).
Qed.

Lemma findAll_result (w : world) (pageable : Pageable) :
  findAll pageable w =
  match page_of pageable (rows w) with
  | [] =>
      (Throw (NotFoundException (UngueltigeSeite (number pageable))),
       log (auto_findMany None (number pageable * size pageable)
              (size pageable)) w)
  | page =>
      (Return {| content := as_found <$> page;
                 totalElements := length (rows w) |},
       log (auto_count None)
         (log (auto_findMany None (number pageable * size pageable)
                 (size pageable)) w))
  end.
Proof.
  unfold findAll, findMany, count, count_where, checked, page_of.
  unfold_monad. cbv beta. cbn [selected].
  destruct (firstn _ _) as [|r l]; [reflexivity|].
  unfold createSlice, as_found. now rewrite <- list_fmap_compose.
Qed.

(** The rows are the rows of the table, by ascending primary key. *)
Lemma rows_ascending (w : world) :
  exists l,
    rows w = l.*2 /\ l ≡ₚ map_to_list (autos w) /\
    StronglySorted key_le l.
Proof.
  exists (merge_sort key_le (map_to_list (autos w))).
  split; [reflexivity|]. split; [apply merge_sort_Permutation|].
  apply StronglySorted_merge_sort.
  - intros a b c. unfold key_le. lia.
  - intros a b. unfold key_le. lia.
Qed.

(** X2: without a filter, or with an empty one, [find] lists the table
    page by page, the rows taken by ascending primary key. It throws
    [NotFoundException] for the page exactly when the page size is 0 or
    the page lies behind the last row; otherwise it returns the rows of
    the page with the number of all rows as [totalElements]. *)
Theorem find_without_filter_lists_the_table (w : world)
    (suchparameter : option Suchparameter) (pageable : Pageable) :
  suchparameter = None \/ suchparameter = Some [] ->
  ((size pageable = 0%nat \/
    (length (rows w) <= number pageable * size pageable)%nat) ->
   (find' suchparameter pageable w).1 =
   Throw (NotFoundException (UngueltigeSeite (number pageable)))) /\
  (size pageable <> 0%nat ->
   (number pageable * size pageable < length (rows w))%nat ->
   (find' suchparameter pageable w).1 =
   Return {| content := as_found <$> page_of pageable (rows w);
             totalElements := length (rows w) |} /\
   page_of pageable (rows w) <> []).
Proof.
  intros Hsp.
  assert (find' suchparameter pageable w = findAll pageable w) as ->
    by (destruct Hsp as [->| ->]; reflexivity).
  rewrite findAll_result. split.
  - intros H. apply page_of_nil in H. now rewrite H.
  - intros Hs Hn.
    assert (page_of pageable (rows w) <> []) as Hne.
    { intros H. apply page_of_nil in H. lia. }
    split; [|exact Hne]. now destruct (page_of pageable (rows w)).
Qed.

Lemma rows_elem_of (w : world) (r : auto) :
  In r (rows w) -> exists i, autos w !! i = Some r.
Proof.
  intros H. apply list_elem_of_In in H. unfold rows in H.
  apply list_elem_of_fmap in H as ([i r'] & -> & H).
  rewrite merge_sort_Permutation in H.
  exists i. now apply elem_of_map_to_list.
Qed.

Lemma In_firstn (n : nat) (l : list auto) (r : auto) :
  In r (firstn n l) -> In r l.
Proof.
  revert l. induction n as [|n IH]; intros [|a l]; simpl; try tauto.
  intros [->|H]; [now left|right; now apply IH].
Qed.

Lemma In_skipn (n : nat) (l : list auto) (r : auto) :
  In r (skipn n l) -> In r l.
Proof.
  revert l. induction n as [|n IH]; intros [|a l]; simpl; try tauto.
  intros H. right. now apply IH.
Qed.

Lemma page_of_In (pageable : Pageable) (l : list auto) (r : auto) :
  In r (page_of pageable l) -> In r l.
Proof.
  unfold page_of. intros H. now apply In_firstn, In_skipn in H.
Qed.

Lemma page_of_length (pageable : Pageable) (l : list auto) :
  (length (page_of pageable l) <= size pageable)%nat.
Proof. unfold page_of. apply firstn_le_length. Qed.

(** [find] with a filter that is not empty, case by case. *)
Lemma find_result (w : world) (suchparameter : Suchparameter)
    (pageable : Pageable) :
  suchparameter <> [] ->
  find' (Some suchparameter) pageable w =
  if negb (checkKeys suchparameter.*1) || negb (checkEnums suchparameter)
  then (Throw (NotFoundException UngueltigeSuchparameter), w)
  else
    match build new_Date Number_toString suchparameter with
    | inl _ => (Throw TypeErrorException, w)
    | inr where_ =>
        let w1 := log (auto_findMany (Some where_)
                         (number pageable * size pageable)
                         (size pageable)) w in
        if where_ok where_ then
          match page_of pageable (List.filter (matches where_) (rows w)) with
          | [] =>
              (Throw (NotFoundException
                        (KeineAutosGefunden suchparameter
                           (number pageable))), w1)
          | page =>
              (Return {| content := as_found <$> page;
                         totalElements := length (rows w) |},
               log (auto_count None) w1)
          end
        else (Throw (PrismaClientError ValidationError), w1)
    end.
Proof.
  intros Hne. unfold find.
  destruct suchparameter as [|kv rest] eqn:Hsp; [congruence|].
  rewrite <- Hsp in *. replace (length suchparameter.*1 =? 0)%nat with false
    by now rewrite Hsp.
  destruct (negb _ || negb _); [reflexivity|].
  destruct (build _ _ suchparameter) as [e|where_]; [reflexivity|].
  unfold findMany, count, count_where, checked, page_of. unfold_monad.
  cbv beta zeta. destruct (where_ok where_); [|reflexivity].
  cbn [selected]. destruct (firstn _ _) as [|r l]; [reflexivity|].
  unfold createSlice, as_found. now rewrite <- list_fmap_compose.
Qed.

(** X3: what [find] returns for a filter is sound. The slice holds at
    least one and at most [size] rows, and each of them is a stored row
    that satisfies the where-clause built from the filter, given without
    its pictures and with a list of tags. *)
Theorem find_returns_matching_rows (w w' : world)
    (suchparameter : Suchparameter) (pageable : Pageable) (s : Slice) :
  suchparameter <> [] ->
  find' (Some suchparameter) pageable w = (Return s, w') ->
  (1 <= length (content s) <= size pageable)%nat /\
  exists where_,
    build new_Date Number_toString suchparameter = inr where_ /\
    forall a, In a (content s) ->
      exists i r,
        autos w !! i = Some r /\ matches where_ r = true /\
        a = as_found r.
Proof.
  intros Hne. rewrite (find_result _ _ _ Hne).
  destruct (negb _ || negb _); [discriminate|].
  destruct (build _ _ suchparameter) as [e|where_]; [discriminate|].
  cbv zeta. destruct (where_ok where_); [|discriminate].
  destruct (page_of _ _) as [|r l] eqn:Hpage; [discriminate|].
  intros [= <- _]. cbn [content].
  pose proof (page_of_length pageable
                (List.filter (matches where_) (rows w))) as Hlen.
  change (as_found r :: list_fmap auto auto as_found l)
    with (as_found <$> r :: l).
  rewrite <- Hpage. split.
  - rewrite length_fmap. split; [rewrite Hpage; simpl; lia|exact Hlen].
  - exists where_. split; [reflexivity|]. intros a Ha.
    apply in_map_iff in Ha as (r0 & <- & Hr0).
    apply page_of_In, filter_In in Hr0 as [Hin Hm].
    apply rows_elem_of in Hin as [i Hi]. now exists i, r0.
Qed.

(** X4: for a valid filter whose where-clause the client of the database
    takes, [find] decides by the requested page of the matching rows:
    when that page is empty, and so whenever no row matches, it throws
    [NotFoundException] naming the filter and the page; otherwise it
    returns the page. *)
Theorem find_not_found_for_empty_page (w : world)
    (suchparameter : Suchparameter) (pageable : Pageable)
    (where_ : Where.t) :
  suchparameter <> [] ->
  checkKeys suchparameter.*1 = true ->
  checkEnums suchparameter = true ->
  build new_Date Number_toString suchparameter = inr where_ ->
  where_ok where_ = true ->
  let matching := List.filter (matches where_) (rows w) in
  (matching = [] -> page_of pageable matching = []) /\
  (page_of pageable matching = [] ->
   (find' (Some suchparameter) pageable w).1 =
   Throw (NotFoundException
            (KeineAutosGefunden suchparameter (number pageable)))) /\
  (page_of pageable matching <> [] ->
   (find' (Some suchparameter) pageable w).1 =
   Return {| content := as_found <$> page_of pageable matching;
             totalElements := length (rows w) |}).
Proof.
  intros Hne Hk He Hb Hok matching.
  rewrite (find_result _ _ _ Hne), Hk, He, Hb. cbn [negb orb]. cbv zeta.
  rewrite Hok. fold matching. split; [|split].
  - intros ->. unfold page_of. rewrite skipn_nil. apply firstn_nil.
  - now intros ->.
  - intros H. now destruct (page_of pageable matching).
Qed.

End Reading.

(* ===================================================================== *)
(** * Further properties: writing *)
(* ===================================================================== *)

Section Writing.

Variable accepts : gmap Z auto -> auto -> bool.

Lemma positive_length_filter {A} (p : A -> bool) (l : list A) :
  (0 <? length (List.filter p l))%nat = existsb p l.
Proof.
  induction l as [|a l IH]; [reflexivity|]. simpl.
  destruct (p a); [reflexivity|exact IH].
Qed.

Lemma existsb_where_fgnr (f : string) (l : list auto) :
  existsb (matches (where_fgnr f)) l =
  existsb (fun r => String.eqb f (fgnr r)) l.
Proof.
  induction l as [|r l IH]; [reflexivity|]. simpl existsb.
  now rewrite IH, matches_where_fgnr.
Qed.

Lemma validateCreate_result (w : world) (a : AutoCreate.t) :
  validateCreate a w =
  match AutoCreate.fgnr a with
  | None => (Return tt, w)
  | Some f =>
      (if existsb (fun r => String.eqb f (fgnr r)) (rows w)
       then Throw (FgnrExistsException f) else Return tt,
       log (auto_count (Some (where_fgnr f))) w)
  end.
Proof.
  unfold validateCreate. destruct (AutoCreate.fgnr a) as [f|]; [|reflexivity].
  unfold count_where, checked. unfold_monad.
  replace (where_ok (where_fgnr f)) with true by reflexivity.
  cbv beta iota. unfold selected.
  rewrite positive_length_filter, existsb_where_fgnr.
  now destruct (existsb _ _).
Qed.

Lemma created_row_fgnr (i : Z) (a : AutoCreate.t) (r : auto) :
  created_row i a = Some r ->
  AutoCreate.fgnr a = Some (fgnr r) /\ id r = i /\
  modell r = AutoCreate.modell a /\ bilder r = AutoCreate.bild a.
Proof.
  unfold created_row. intros H.
  destruct (AutoCreate.fgnr a); [|discriminate].
  destruct (stored_decimal _); [|discriminate].
  destruct (stored_integer _); [|discriminate].
  destruct (date _); [|discriminate].
  simpl in H. injection H as <-. repeat split; reflexivity.
Qed.

(** The two ways [create] can end. *)
Lemma create_cases (w : world) (a : AutoCreate.t) :
  (exists e w',
     create accepts a w = (Throw e, w') /\
     autos w' = autos w /\ mails w' = mails w) \/
  (exists r w',
     create accepts a w = (Return (of_Z (id r)), w') /\
     created_row (next_id w) a = Some r /\
     (forall s, In s (rows w) -> fgnr s <> fgnr r) /\
     accepts (autos w) r = true /\
     autos w !! id r = None /\
     autos w' = <[id r := r]> (autos w) /\
     next_id w' = (next_id w + 1)%Z /\
     mails w' = sendmail (of_Z (id r)) (default "N/A" (modell r)) :: mails w).
Proof.
  unfold create. unfold_monad. rewrite validateCreate_result.
  assert (forall r, created_row (next_id w) a = Some r ->
            forall s, In s (rows w) -> fgnr s <> fgnr r \/
              exists f, AutoCreate.fgnr a = Some f /\
                existsb (fun r0 => String.eqb f (fgnr r0)) (rows w) = true)
    as Hdup.
  { intros r Hc s Hs.
    destruct (String.eqb (fgnr s) (fgnr r)) eqn:E;
      [|left; now apply String.eqb_neq].
    right. exists (fgnr r). apply created_row_fgnr in Hc as [Hfa _].
    split; [exact Hfa|]. apply existsb_exists. exists s.
    split; [exact Hs|]. rewrite String.eqb_sym. exact E. }
  destruct (AutoCreate.fgnr a) as [f|] eqn:Hfa;
    [destruct (existsb _ (rows w)) eqn:Hex;
       [left; eexists _, _; split; [reflexivity|]; split; reflexivity|]|];
    unfold create_row; cbv beta zeta; cbn [next_id autos log];
    (destruct (created_row (next_id w) a) as [r|] eqn:Hc;
       [|left; eexists _, _; split; [reflexivity|]; split; reflexivity]);
    (destruct (accepts (autos w) r) eqn:Hacc; cbn [andb];
       [|left; eexists _, _; split; [reflexivity|]; split; reflexivity]);
    (destruct (bool_decide (autos w !! id r = None)) eqn:Hfresh;
       [|left; eexists _, _; split; [reflexivity|]; split; reflexivity]);
    apply bool_decide_eq_true in Hfresh;
    right; exists r; eexists; (split; [reflexivity|]);
    (split; [reflexivity|]);
    (split;
       [intros s Hs;
        destruct (Hdup r ltac:(first [exact Hc|reflexivity]) s Hs)
          as [H|(f' & Hf' & Hex')];
          [exact H
          |first [discriminate Hf'|injection Hf' as <-; congruence]]|]);
    repeat split; try assumption; reflexivity.
Qed.

(** X5: what [create] has stored can be read back. After a successful
    [create] the returned id is the next id of the table, [findById]
    with that id and with pictures returns the row the database has
    stored for the input, which is [created_row]: the price rounded to
    two decimals, the integer part of the discount, the day of the
    date; and every other row is as it was. *)
Theorem create_then_findById (w w' : world) (a : AutoCreate.t)
    (n : Js.number) :
  create accepts a w = (Return n, w') ->
  exists r,
    created_row (next_id w) a = Some r /\
    n = of_Z (next_id w) /\
    AutoCreate.fgnr a = Some (fgnr r) /\
    (findById (next_id w) true w').1 = Return (schlagwoerter_or_empty r) /\
    forall i, i <> next_id w -> autos w' !! i = autos w !! i.
Proof.
  intros H.
  destruct (create_cases w a) as [(e & w1 & H1 & _)|
    (r & w1 & H1 & Hc & _ & _ & _ & Ht & _)]; [congruence|].
  rewrite H in H1. injection H1 as -> ->.
  destruct (created_row_fgnr _ _ _ Hc) as (Hf & Hid & _).
  exists r. split; [exact Hc|]. split; [now rewrite Hid|].
  split; [exact Hf|]. split.
  - rewrite (findById_found w1 (next_id w) r true); [reflexivity|].
    rewrite Ht, Hid. apply lookup_insert_eq.
  - intros i Hi. rewrite Ht, Hid. now apply lookup_insert_ne.
Qed.

(** X6: a mail is sent exactly when a car has been created. A
    successful [create] sends one mail, with the new id and the model
    name, or ["N/A"] when there is no model; a [create] that throws
    sends none. *)
Theorem create_sends_mail_iff_created (w : world) (a : AutoCreate.t) :
  (forall n w', create accepts a w = (Return n, w') ->
     exists r,
       created_row (next_id w) a = Some r /\
       mails w' =
         sendmail n (default "N/A" (AutoCreate.modell a)) :: mails w) /\
  (forall e w', create accepts a w = (Throw e, w') -> mails w' = mails w).
Proof.
  destruct (create_cases w a) as [(e & w1 & H1 & _ & Hm)|
    (r & w1 & H1 & Hc & _ & _ & _ & _ & _ & Hm)]; split;
    intros x w' H; rewrite H in H1; try discriminate H1.
  - now injection H1 as -> ->.
  - injection H1 as -> ->. exists r. split; [exact Hc|].
    destruct (created_row_fgnr _ _ _ Hc) as (_ & _ & Hmod & _).
    now rewrite <- Hmod.
Qed.

(** X7: [create] succeeds for a new chassis number. When no stored row
    has the chassis number of the input, the values of the input fit
    their columns, the id to come is free and the database accepts the
    row, [create] returns that id and the row is stored. *)
Theorem create_succeeds_for_new_fgnr (w : world) (a : AutoCreate.t)
    (r : auto) :
  (forall i s, autos w !! i = Some s -> Some (fgnr s) <> AutoCreate.fgnr a) ->
  created_row (next_id w) a = Some r ->
  autos w !! next_id w = None ->
  accepts (autos w) r = true ->
  exists w',
    create accepts a w = (Return (of_Z (next_id w)), w') /\
    autos w' = <[next_id w := r]> (autos w).
Proof.
  intros Hnew Hc Hfresh Hacc.
  destruct (created_row_fgnr _ _ _ Hc) as (Hf & Hid & _).
  unfold create. unfold_monad. rewrite validateCreate_result, Hf.
  assert (existsb (fun r0 => String.eqb (fgnr r) (fgnr r0)) (rows w) = false)
    as ->.
  { apply not_true_is_false. intros (s & Hs & He)%existsb_exists.
    apply String.eqb_eq in He. apply rows_elem_of in Hs as [i Hi].
    apply (Hnew i s Hi). congruence. }
  unfold create_row. cbv beta zeta. cbn [next_id autos log].
  rewrite Hc, Hacc, Hid. rewrite bool_decide_eq_true_2 by exact Hfresh.
  cbn [andb]. rewrite Hid. eexists. split; reflexivity.
Qed.

(** The ways [update] can end. *)
Lemma update_cases (w : world) (p : UpdateParams.t) :
  (exists e w',
     update accepts p w = (Throw e, w') /\
     autos w' = autos w /\ next_id w' = next_id w) \/
  (exists i r r' w',
     UpdateParams.id p = Some i /\
     update accepts p w = (Return (of_Z (version r')), w') /\
     autos w !! i = Some r /\
     updated_row
       (AutoUpdate.with_version (increment 1) (UpdateParams.auto p)) r =
       Some r' /\
     accepts (delete i (autos w)) r' = true /\
     autos w' = <[i := r']> (autos w) /\
     next_id w' = next_id w).
Proof.
  destruct p as [[i|] a vs].
  2:{ left. eexists _, _. split; [reflexivity|]. split; reflexivity. }
  destruct (test_anchored_start VERSION_PATTERN vs) eqn:Ht.
  2:{ destruct (update_invalid accepts w (Some i) a vs Ht) as (e & He & _).
      left. exists e, w. repeat split; assumption || reflexivity. }
  destruct (accepted_token_value _ Ht) as (n & Hn & _).
  destruct (autos w !! i) as [r|] eqn:Hr.
  2:{ left. unfold update, validateUpdate. cbn [UpdateParams.id
        UpdateParams.version]. rewrite Ht. unfold_monad. cbn [negb].
      cbv beta iota. rewrite (findById_missing _ _ _ Hr).
      eexists _, _. split; [reflexivity|]. split; reflexivity. }
  destruct (Z.lt_ge_cases n (version r)) as [Hlt|Hge].
  { left. rewrite (update_outdated accepts _ _ a _ _ _ Ht Hn Hr Hlt).
    eexists _, _. split; [reflexivity|]. split; reflexivity. }
  rewrite (update_current accepts _ _ a _ _ _ Ht Hn Hr Hge). cbv zeta.
  cbn [UpdateParams.auto].
  destruct (updated_row _ r) as [r'|] eqn:Hu.
  2:{ left. eexists _, _. split; [reflexivity|]. split; reflexivity. }
  destruct (accepts _ r') eqn:Hacc.
  2:{ left. eexists _, _. split; [reflexivity|]. split; reflexivity. }
  right. exists i, r, r'. eexists. repeat split; assumption || reflexivity.
Qed.

(** X8: the order in which [update] fails. Without an id it throws
    [NotFoundException] whatever the token is. With an id, a token the
    pattern rejects gives [VersionInvalidException] whether or not a row
    with the id exists, and nothing is read. Only with an accepted token
    is an unknown id reported, as [NotFoundException]. *)
Theorem update_error_precedence (w : world) (a : AutoUpdate.t)
    (versionStr : string) :
  update accepts
    {| UpdateParams.id := None; UpdateParams.auto := a;
       UpdateParams.version := versionStr |} w =
  (Throw (NotFoundException (KeinAutoMitDerId None)), w) /\
  (forall i,
     test_anchored_start VERSION_PATTERN versionStr = false ->
     update accepts
       {| UpdateParams.id := Some i; UpdateParams.auto := a;
          UpdateParams.version := versionStr |} w =
     (Throw (VersionInvalidException versionStr), w)) /\
  (forall i,
     test_anchored_start VERSION_PATTERN versionStr = true ->
     autos w !! i = None ->
     update accepts
       {| UpdateParams.id := Some i; UpdateParams.auto := a;
          UpdateParams.version := versionStr |} w =
     (Throw (NotFoundException (KeinAutoMitDerId (Some i))),
      log (auto_findUnique i) w)).
Proof.
  split; [reflexivity|]. split; intros i Ht.
  - destruct (update_invalid accepts w (Some i) a _ Ht) as (e & He & Hi).
    rewrite He. now rewrite Hi.
  - intros Hr. unfold update, validateUpdate.
    cbn [UpdateParams.id UpdateParams.version]. rewrite Ht. unfold_monad.
    cbn [negb]. cbv beta iota. now rewrite (findById_missing _ _ _ Hr).
Qed.

Lemma updated_row_kept (a : AutoUpdate.t) (r r' : auto) :
  updated_row a r = Some r' ->
  id r' = id r /\ modell r' = modell r /\ bilder r' = bilder r.
Proof.
  unfold updated_row. intros H.
  destruct (or_old stored_decimal _ _); [|discriminate].
  destruct (or_old stored_integer _ _); [|discriminate].
  destruct (or_old date _ _); [|discriminate].
  simpl in H. injection H as <-. repeat split; reflexivity.
Qed.

(** X9: the version is never set by the caller. Whatever operation on
    [version] the data of an [update] carries, the call does what it
    does without it. When it returns, the row has kept its id, its model
    and its pictures, its version is one higher and is the number
    returned, and every other row is as it was. *)
Theorem update_overrides_supplied_version (w : world) (i : option Z)
    (a : AutoUpdate.t) (versionStr : string) (v : intFieldUpdate) :
  update accepts
    {| UpdateParams.id := i; UpdateParams.auto := AutoUpdate.with_version v a;
       UpdateParams.version := versionStr |} w =
  update accepts
    {| UpdateParams.id := i; UpdateParams.auto := a;
       UpdateParams.version := versionStr |} w /\
  forall n w',
    update accepts
      {| UpdateParams.id := i; UpdateParams.auto := a;
         UpdateParams.version := versionStr |} w = (Return n, w') ->
    exists j r r',
      i = Some j /\ autos w !! j = Some r /\ autos w' !! j = Some r' /\
      version r' = (version r + 1)%Z /\ n = of_Z (version r + 1) /\
      id r' = id r /\ modell r' = modell r /\ bilder r' = bilder r /\
      forall k, k <> j -> autos w' !! k = autos w !! k.
Proof.
  split; [reflexivity|]. intros n w' H.
  destruct (update_cases w
              {| UpdateParams.id := i; UpdateParams.auto := a;
                 UpdateParams.version := versionStr |})
    as [(e & w1 & H1 & _)|(j & r & r' & w1 & Hi & H1 & Hr & Hu & _ & Ht & _)];
    [congruence|].
  rewrite H in H1. injection H1 as -> ->. cbn in Hi, Hu.
  destruct (updated_row_kept _ _ _ Hu) as (Hid & Hm & Hb).
  pose proof (updated_row_version _ _ _ Hu) as Hv.
  exists j, r, r'. rewrite Ht, lookup_insert_eq, Hv.
  repeat split; try assumption; try reflexivity.
  intros k Hk. now apply lookup_insert_ne.
Qed.

(** X10: a write that fails writes nothing. When [create] or [update]
    throws, for whatever reason, the table is as it was; and [delete]
    never throws. *)
Theorem failed_write_leaves_the_table (w : world) :
  (forall a e w', create accepts a w = (Throw e, w') -> autos w' = autos w) /\
  (forall p e w', update accepts p w = (Throw e, w') -> autos w' = autos w) /\
  (forall i, exists b w', delete_ i w = (Return b, w')).
Proof.
  split; [|split].
  - intros a e w' H.
    destruct (create_cases w a) as [(e1 & w1 & H1 & Ha & _)|
      (r & w1 & H1 & _)]; congruence.
  - intros p e w' H.
    destruct (update_cases w p) as [(e1 & w1 & H1 & Ha & _)|
      (j & r & r' & w1 & _ & H1 & _)]; congruence.
  - intros i. destruct (autos w !! i) as [r|] eqn:Hr.
    + rewrite (delete_existing _ _ _ Hr). eauto.
    + rewrite (delete_missing _ _ Hr). eauto.
Qed.

(** X11: versions only grow. Whatever [update] is called and however it
    ends, every row that was stored is still stored under its id, with
    the version it had or that version plus 1, and no row is added. *)
Theorem update_never_lowers_a_version (w : world) (p : UpdateParams.t)
    (i : Z) :
  (forall r, autos w !! i = Some r ->
     exists r',
       autos (update accepts p w).2 !! i = Some r' /\
       (version r <= version r' <= version r + 1)%Z) /\
  (autos w !! i = None -> autos (update accepts p w).2 !! i = None).
Proof.
  destruct (update_cases w p) as [(e1 & w1 & H1 & Ha & _)|
    (j & r0 & r' & w1 & _ & H1 & Hr0 & Hu & _ & Ht & _)];
    rewrite H1; cbn [snd].
  - rewrite Ha. split; [|trivial]. intros r Hr. exists r. split; [exact Hr|lia].
  - rewrite Ht. pose proof (updated_row_version _ _ _ Hu) as Hv.
    destruct (decide (j = i)) as [->|Hne].
    + rewrite lookup_insert_eq. split; [|congruence].
      intros r Hr. exists r'. split; [reflexivity|].
      assert (r = r0) as -> by congruence. lia.
    + rewrite lookup_insert_ne by exact Hne. split; [|trivial].
      intros r Hr. exists r. split; [exact Hr|lia].
Qed.

(** X12: [create] keeps the chassis numbers distinct on its own. If no
    two stored rows have the same chassis number, that is still so after
    [create], whatever rules the database enforces: the check of
    [#validateCreate] is enough. *)
Theorem create_keeps_fgnr_unique (w : world) (a : AutoCreate.t) :
  fgnr_unique (autos w) ->
  fgnr_unique (autos (create accepts a w).2).
Proof.
  intros Hu.
  destruct (create_cases w a) as [(e & w1 & H1 & Ha & _)|
    (r & w1 & H1 & Hc & Hnew & _ & Hfresh & Ht & _)];
    rewrite H1; cbn [snd]; [now rewrite Ha|].
  rewrite Ht. intros i j x y Hi Hj Hxy.
  destruct (decide (i = id r)) as [->|Hir],
           (decide (j = id r)) as [->|Hjr]; [reflexivity| | |].
  - rewrite lookup_insert_eq in Hi. rewrite lookup_insert_ne in Hj by done.
    injection Hi as <-. exfalso.
    apply (Hnew y); [now apply (elem_of_rows _ j)|congruence].
  - rewrite lookup_insert_eq in Hj. rewrite lookup_insert_ne in Hi by done.
    injection Hj as <-. exfalso.
    apply (Hnew x); [now apply (elem_of_rows _ i)|congruence].
  - rewrite lookup_insert_ne in Hi, Hj by done. now apply (Hu i j x y).
Qed.

End Writing.

(** X13: under the rules of create-table.sql, [update] keeps the chassis
    numbers distinct and the discounts between 0 and 100: a change that
    would break either is rejected and leaves the table as it was. *)
Theorem update_keeps_schema_constraints (w : world) (p : UpdateParams.t) :
  fgnr_unique (autos w) ->
  (forall i r, autos w !! i = Some r -> (0 <= rabatt r <= 100)%Z) ->
  let w' := (update schema_constraints p w).2 in
  fgnr_unique (autos w') /\
  (forall i r, autos w' !! i = Some r -> (0 <= rabatt r <= 100)%Z).
Proof.
  intros Hu Hr w'. subst w'.
  destruct (update_cases schema_constraints w p) as [(e & w1 & H1 & Ha & _)|
    (j & r0 & r' & w1 & _ & H1 & Hr0 & _ & Hacc & Ht & _)];
    rewrite H1; cbn [snd]; [now rewrite Ha|].
  rewrite Ht. unfold schema_constraints in Hacc.
  apply andb_prop in Hacc as [Hacc Hhi]. apply andb_prop in Hacc as [Hun Hlo].
  apply Z.leb_le in Hhi, Hlo. rewrite forallb_forall in Hun.
  assert (forall k x, k <> j -> autos w !! k = Some x -> fgnr x <> fgnr r')
    as Hother.
  { intros k x Hk Hx Heq.
    assert (In x (map_to_list (delete j (autos w))).*2) as Hin.
    { apply list_elem_of_In, list_elem_of_fmap. exists (k, x).
      split; [reflexivity|]. apply elem_of_map_to_list.
      now rewrite lookup_delete_ne. }
    apply Hun in Hin. apply negb_true_iff, String.eqb_neq in Hin.
    contradiction. }
  split.
  - intros i k x y Hi Hk Hxy.
    destruct (decide (i = j)) as [->|Hij], (decide (k = j)) as [->|Hkj];
      [reflexivity| | |].
    + rewrite lookup_insert_eq in Hi. rewrite lookup_insert_ne in Hk by done.
      injection Hi as <-. exfalso. now apply (Hother k y).
    + rewrite lookup_insert_eq in Hk. rewrite lookup_insert_ne in Hi by done.
      injection Hk as <-. exfalso. now apply (Hother i x).
    + rewrite lookup_insert_ne in Hi, Hk by done. now apply (Hu i k x y).
  - intros i x Hi. destruct (decide (i = j)) as [->|Hij].
    + rewrite lookup_insert_eq in Hi. injection Hi as <-. lia.
    + rewrite lookup_insert_ne in Hi by done. now apply (Hr i).
Qed.

(* ===================================================================== *)
(** * Further properties: the where-clause *)
(* ===================================================================== *)

(** ** Assigning a property *)

Lemma set_property_get (key : string) (v : value) (o : Suchparameter) :
  get key (set_property key v o) = v.
Proof.
  unfold set_property, get.
  destruct (existsb _ o) eqn:E.
  - induction o as [|[k x] o IH]; [discriminate|].
    cbn [existsb fst] in E. cbn [List.map List.find fst].
    destruct (String.eqb k key) eqn:Ek; cbn [List.find fst].
    + now rewrite String.eqb_refl.
    + rewrite Ek. apply IH. exact E.
  - induction o as [|[k x] o IH]; cbn [app List.find fst].
    + now rewrite String.eqb_refl.
    + cbn [existsb fst] in E. apply orb_false_elim in E as [Ek E].
      rewrite Ek. now apply IH.
Qed.

Lemma set_property_get_other (key k : string) (v : value)
    (o : Suchparameter) :
  k <> key -> get k (set_property key v o) = get k o.
Proof.
  intros Hk. unfold set_property, get.
  assert (String.eqb key k = false) as Hkk
    by (apply String.eqb_neq; congruence).
  destruct (existsb _ o).
  - induction o as [|[k1 x] o IH]; [reflexivity|].
    cbn [List.map List.find fst].
    destruct (String.eqb k1 key) eqn:Ek; cbn [List.find fst].
    + apply String.eqb_eq in Ek as ->. rewrite Hkk. exact IH.
    + destruct (String.eqb k1 k); [reflexivity|exact IH].
  - induction o as [|[k1 x] o IH]; cbn [app List.find fst].
    + now rewrite Hkk.
    + destruct (String.eqb k1 k); [reflexivity|exact IH].
Qed.

Lemma set_property_without (key : string) (v : value) (o : Suchparameter) :
  without key (set_property key v o) = without key o.
Proof.
  unfold set_property, without.
  destruct (existsb _ o).
  - induction o as [|[k x] o IH]; [reflexivity|].
    cbn [List.map List.filter fst].
    destruct (String.eqb k key) eqn:Ek; cbn [List.filter fst negb].
    + rewrite String.eqb_refl. exact IH.
    + rewrite Ek. cbn [negb]. now rewrite IH.
  - induction o as [|[k x] o IH]; cbn [app List.filter fst].
    + now rewrite String.eqb_refl.
    + destruct (negb (String.eqb k key)); now rewrite IH.
Qed.

Lemma existsb_key (key : string) (o : Suchparameter) :
  existsb (fun kv => String.eqb kv.1 key) o = true <-> key ∈ o.*1.
Proof.
  induction o as [|[k x] o IH]; cbn [existsb fst].
  - rewrite fmap_nil. split; [discriminate|intros []%elem_of_nil].
  - rewrite fmap_cons, elem_of_cons, orb_true_iff, IH, String.eqb_eq.
    cbn [fst]. intuition congruence.
Qed.

Lemma set_property_keys (key : string) (v : value) (o : Suchparameter) :
  (set_property key v o).*1 =
  if existsb (fun kv => String.eqb kv.1 key) o then o.*1
  else (o.*1 ++ [key])%list.
Proof.
  unfold set_property. destruct (existsb _ o).
  - induction o as [|[k x] o IH]; [reflexivity|].
    cbn [List.map]. rewrite !fmap_cons, IH. cbn [fst].
    destruct (String.eqb k key) eqn:Ek; [|reflexivity].
    apply String.eqb_eq in Ek as ->. reflexivity.
  - now rewrite fmap_app.
Qed.

Lemma get_elem_of (key : string) (o : Suchparameter) (v : value) :
  get key o = v -> v <> VUndefined -> (key, v) ∈ o.
Proof.
  unfold get. intros H Hv.
  destruct (List.find _ o) as [[k x]|] eqn:E; [|congruence].
  apply find_some in E as [Hin Hk]. cbn [fst snd] in *.
  apply String.eqb_eq in Hk as ->. subst x. now apply list_elem_of_In.
Qed.

(** ** The patterns of [LIKE] *)

Lemma like_percent (s : string) : like "%" s = true.
Proof.
  induction s as [|d s IH]; [reflexivity|].
  change (like "%" (String d s)) with (like "" (String d s) || like "%" s).
  rewrite IH. apply orb_true_r.
Qed.

Lemma like_plain_cons (c : ascii) (rest : string) (s : string) :
  plain c = true ->
  like (String c rest) s =
  match s with
  | EmptyString => false
  | String d s' => Ascii.eqb c d && like rest s'
  end.
Proof.
  unfold plain. intros H. apply negb_true_iff in H.
  apply orb_false_elim in H as [H H3]. apply orb_false_elim in H as [H1 H2].
  cbn [like]. now rewrite H1, H2, H3.
Qed.

(** A pattern without special characters, followed by a percent sign,
    asks for a prefix. *)
Lemma like_prefix (p s : string) :
  all_plain p = true -> like (p +:+ "%") s = String.prefix p s.
Proof.
  revert s. induction p as [|c p IH]; intros s Hp.
  - cbv [String.append]. rewrite like_percent. now destruct s.
  - cbn [all_plain] in Hp. apply andb_prop in Hp as [Hc Hp].
    cbv [String.append]; fold String.append.
    rewrite (like_plain_cons _ _ _ Hc).
    destruct s as [|d s]; [reflexivity|]. cbn [String.prefix].
    rewrite IH by exact Hp.
    destruct (ascii_dec c d) as [->|Hne].
    + now rewrite Ascii.eqb_refl.
    + apply Ascii.eqb_neq in Hne. now rewrite Hne.
Qed.

(** Between two percent signs it asks for a part of the string. *)
Lemma like_contains (p s : string) :
  all_plain p = true -> like ("%" +:+ p +:+ "%") s = includes p s.
Proof.
  intros Hp. cbv [String.append]; fold String.append.
  induction s as [|d s IH].
  - change (like (String "%" (p +:+ "%")) "")
      with (like (p +:+ "%") "" || false).
    cbn [includes]. now rewrite (like_prefix p "" Hp).
  - change (like (String "%" (p +:+ "%")) (String d s))
      with (like (p +:+ "%") (String d s) ||
            like (String "%" (p +:+ "%")) s).
    cbn [includes]. now rewrite (like_prefix p _ Hp), IH.
Qed.

Lemma plain_to_lower (c : ascii) : plain (to_lower c) = plain c.
Proof. destruct c as [[] [] [] [] [] [] [] []]; reflexivity. Qed.

Lemma all_plain_toLowerCase (s : string) :
  all_plain (toLowerCase s) = all_plain s.
Proof.
  unfold toLowerCase. induction s as [|c s IH]; [reflexivity|].
  cbn [map_string all_plain]. now rewrite plain_to_lower, IH.
Qed.

Lemma map_string_app (f : ascii -> ascii) (a b : string) :
  map_string f (a +:+ b) = map_string f a +:+ map_string f b.
Proof.
  induction a as [|c a IH]; [reflexivity|].
  cbv [String.append]; fold String.append. cbn [map_string].
  cbv [String.append]; fold String.append. now rewrite IH.
Qed.

Section Building.

Variable new_Date : value -> Js.number.
Variable Number_toString : Js.number -> string.

Local Abbreviation build_entry' := (build_entry new_Date Number_toString).
Local Abbreviation build' := (build new_Date Number_toString).

(** The cases of the [switch] on a key. *)
Ltac on_key k :=
  repeat match goal with
         | |- context [String.eqb k ?lit] =>
             let E := fresh "E" in
             destruct (String.eqb k lit) eqn:E;
             [apply String.eqb_eq in E; try congruence|]
         end.

(** Two properties with different names set different conditions. *)
Lemma build_entry_comm (k1 k2 : string) (v1 v2 : value) (w : Where.t) :
  k1 <> k2 ->
  build_entry' (build_entry' w (k1, v1)) (k2, v2) =
  build_entry' (build_entry' w (k2, v2)) (k1, v1).
Proof.
  intros H. unfold build_entry.
  on_key k1; on_key k2;
    repeat match goal with
           | |- context [negb ?b] => destruct (negb b)
           end;
    reflexivity.
Qed.

Lemma fold_build_entry_Permutation (l l' : Suchparameter) :
  l ≡ₚ l' -> NoDup l.*1 ->
  forall w, fold_left build_entry' l w = fold_left build_entry' l' w.
Proof.
  induction 1 as [|[k x] l l' Hp IH|[k1 x1] [k2 x2] l|l l1 l2 H1 IH1 H2 IH2];
    intros Hnd w.
  - reflexivity.
  - rewrite fmap_cons in Hnd. apply NoDup_cons in Hnd as [_ Hnd].
    cbn [fold_left]. now apply IH.
  - rewrite !fmap_cons in Hnd. apply NoDup_cons in Hnd as [Hk _].
    cbn [fst] in Hk. rewrite not_elem_of_cons in Hk. destruct Hk as [Hk _].
    cbn [fold_left]. now rewrite (build_entry_comm k1 k2) by congruence.
  - rewrite IH1 by exact Hnd. apply IH2. now rewrite <- H1.
Qed.

Lemma without_Permutation (key : string) (l l' : Suchparameter) :
  l ≡ₚ l' -> without key l ≡ₚ without key l'.
Proof.
  unfold without.
  induction 1 as [|[k x] l l' Hp IH|[k1 x1] [k2 x2] l|l l1 l2 H1 IH1 H2 IH2];
    cbn [List.filter fst].
  - reflexivity.
  - destruct (negb _); [now constructor|exact IH].
  - destruct (negb (String.eqb k1 key)), (negb (String.eqb k2 key));
      try reflexivity. apply perm_swap.
  - now transitivity (List.filter (fun kv => negb (String.eqb kv.1 key)) l1).
Qed.

Lemma get_Permutation (key : string) (l l' : Suchparameter) :
  l ≡ₚ l' -> NoDup l.*1 -> get key l = get key l'.
Proof.
  unfold get.
  induction 1 as [|[k x] l l' Hp IH|[k1 x1] [k2 x2] l|l l1 l2 H1 IH1 H2 IH2];
    intros Hnd; cbn [List.find fst].
  - reflexivity.
  - rewrite fmap_cons in Hnd. apply NoDup_cons in Hnd as [_ Hnd].
    destruct (String.eqb k key); [reflexivity|now apply IH].
  - rewrite !fmap_cons in Hnd. apply NoDup_cons in Hnd as [Hk _].
    cbn [fst] in Hk. rewrite not_elem_of_cons in Hk. destruct Hk as [Hk _].
    destruct (String.eqb k1 key) eqn:E1, (String.eqb k2 key) eqn:E2;
      try reflexivity.
    apply String.eqb_eq in E1, E2. congruence.
  - rewrite IH1 by exact Hnd. apply IH2. now rewrite <- H1.
Qed.

Lemma checkKeys_Permutation (l l' : list string) :
  l ≡ₚ l' -> checkKeys l = checkKeys l'.
Proof.
  intros H. rewrite !checkKeys_forallb.
  apply eq_true_iff_eq. rewrite !forallb_forall.
  split; intros Hall x Hx; apply Hall; apply list_elem_of_In;
    apply list_elem_of_In in Hx; [now rewrite H|now rewrite <- H].
Qed.

(** X14: the search parameters are read as a set of properties. Two
    objects with the same properties, written in any order, pass or fail
    the checks of [find] alike and give the same where-clause, or the
    same error. *)
Theorem build_order_independent (suchparameter suchparameter' : Suchparameter) :
  NoDup suchparameter.*1 ->
  suchparameter ≡ₚ suchparameter' ->
  build' suchparameter' = build' suchparameter /\
  checkKeys suchparameter'.*1 = checkKeys suchparameter.*1 /\
  checkEnums suchparameter' = checkEnums suchparameter.
Proof.
  intros Hnd Hp. split; [|split].
  - unfold build.
    rewrite <- (get_Permutation "schlagwort" _ _ Hp Hnd).
    rewrite <- (fold_build_entry_Permutation _ _
                  (without_Permutation "schlagwort" _ _ Hp));
      [reflexivity|now apply without_NoDup].
  - apply checkKeys_Permutation. now rewrite Hp.
  - unfold checkEnums. now rewrite <- (get_Permutation "art" _ _ Hp Hnd).
Qed.

(** X15: a [lieferbar] given as a boolean, as a GraphQL client does, is
    turned by the query resolver into the string a REST client sends,
    and nothing is lost by it: the other properties are untouched, the
    where-clause is the one of the boolean, and it asks for that very
    boolean. *)
Theorem graphql_lieferbar_as_rest (suchparameter : Suchparameter)
    (b : bool) :
  NoDup suchparameter.*1 ->
  get "lieferbar" suchparameter = VBoolean b ->
  exists suchparameter',
    resolver_suchparameter Number_toString suchparameter =
      inr suchparameter' /\
    get "lieferbar" suchparameter' =
      VString (if b then "true" else "false") /\
    (forall k, k <> "lieferbar" ->
               get k suchparameter' = get k suchparameter) /\
    suchparameter'.*1 = suchparameter.*1 /\
    build' suchparameter' = build' suchparameter /\
    forall where_,
      build' suchparameter = inr where_ -> Where.lieferbar where_ = Some b.
Proof.
  intros Hnd Hget.
  set (s := if b then "true" else "false").
  exists (set_property "lieferbar" (VString s) suchparameter).
  pose proof (get_elem_of _ _ _ Hget ltac:(discriminate)) as Hin.
  assert (existsb (fun kv => String.eqb kv.1 "lieferbar") suchparameter
          = true) as Hex.
  { apply existsb_key, list_elem_of_fmap. now exists ("lieferbar", VBoolean b). }
  assert ((set_property "lieferbar" (VString s) suchparameter).*1 =
          suchparameter.*1) as Hkeys
    by now rewrite set_property_keys, Hex.
  set (upd := fun (v : value) (w : Where.t) => build_entry' w ("lieferbar", v)).
  assert (forall sp v, NoDup sp.*1 -> ("lieferbar", v) ∈ sp ->
            build' sp =
            sum_map (fun e => e) (upd v) (build' (without "lieferbar" sp)))
    as Hone.
  { intros sp v Hn Hi. apply build_one_key; try done.
    intros v0 k x w Hk. unfold upd. now apply build_entry_comm. }
  split; [|split; [|split; [|split; [|split]]]].
  - unfold resolver_suchparameter. rewrite Hget. subst s. now destruct b.
  - apply set_property_get.
  - intros k Hk. now apply set_property_get_other.
  - exact Hkeys.
  - rewrite (Hone _ (VString s)), (Hone _ (VBoolean b) Hnd Hin).
    + rewrite set_property_without. subst s. now destruct b.
    + now rewrite Hkeys.
    + apply get_elem_of; [apply set_property_get|discriminate].
  - intros where_. rewrite (Hone _ (VBoolean b) Hnd Hin).
    destruct (build' (without "lieferbar" suchparameter)) as [e|rest];
      cbn [sum_map]; [discriminate|].
    intros [= <-]. reflexivity.
Qed.

Lemma get_of_elem_of (key : string) (v : value) (o : Suchparameter) :
  NoDup o.*1 -> (key, v) ∈ o -> get key o = v.
Proof.
  unfold get. induction o as [|[k x] o IH]; intros Hnd Hin;
    [now apply elem_of_nil in Hin|].
  rewrite fmap_cons in Hnd. apply NoDup_cons in Hnd as [Hk Hnd].
  cbn [fst] in Hk. cbn [List.find fst].
  apply elem_of_cons in Hin as [[= <- <-]|Hin].
  - now rewrite String.eqb_refl.
  - destruct (String.eqb k key) eqn:E; [|now apply IH].
    apply String.eqb_eq in E as ->. exfalso. apply Hk.
    apply list_elem_of_fmap. now exists (key, v).
Qed.

(** The where-clause of an object with one of the keys that always set
    a condition. *)
Lemma build_with_key (key : string) (v : value)
    (suchparameter : Suchparameter) (where_ : Where.t) :
  key ∈ ["modell"; "fgnr"; "art"; "lieferbar"; "datum"] ->
  NoDup suchparameter.*1 ->
  (key, v) ∈ suchparameter ->
  build' suchparameter = inr where_ ->
  exists rest, where_ = build_entry' rest (key, v).
Proof.
  intros Hkey Hnd Hin Hb.
  assert (build' suchparameter =
          sum_map (fun e => e) (fun w => build_entry' w (key, v))
                  (build' (without key suchparameter))) as Hone.
  { apply (build_one_key new_Date Number_toString key
             (fun v w => build_entry' w (key, v))); try done.
    - intros ->. repeat (apply elem_of_cons in Hkey as [Hkey|Hkey];
                         [discriminate Hkey|]).
      now apply elem_of_nil in Hkey.
    - intros v0 k x w Hk. now apply build_entry_comm.
    - intros v0 s w.
      repeat (apply elem_of_cons in Hkey as [->|Hkey]; [reflexivity|]).
      now apply elem_of_nil in Hkey. }
  rewrite Hone in Hb.
  destruct (build' (without key suchparameter)) as [e|rest];
    cbn [sum_map] in Hb; [discriminate|].
  injection Hb as <-. now exists rest.
Qed.

(** X25: what a filter asks of a row. Take search parameters with
    distinct keys on which [build] succeeds, and a row that satisfies
    the where-clause. Then for each of these parameters that is there,
    the row has a chassis number that matches the [LIKE] pattern made of
    [fgnr] and a percent sign, so that it starts with [fgnr] when
    [fgnr] has no underscore, percent sign or backslash; a model whose
    name in lower case matches the pattern made of [modell] in lower
    case between two percent signs, so that it contains [modell], upper
    and lower case taken alike, when [modell] has none of the three
    characters; the kind named by [art]; a [lieferbar] that is true
    exactly when the parameter, in lower case, is the string [true]; a
    date on or after [datum]; and, for a [schlagwort] that is not blank,
    that word in upper case among its keywords. *)
Theorem where_clause_meaning (suchparameter : Suchparameter)
    (where_ : Where.t) (r : auto) :
  NoDup suchparameter.*1 ->
  build' suchparameter = inr where_ ->
  matches where_ r = true ->
  (forall p, ("fgnr", VString p) ∈ suchparameter ->
     like (p +:+ "%") (fgnr r) = true /\
     (all_plain p = true -> Js.startsWith p (fgnr r) = true)) /\
  (forall p, ("modell", VString p) ∈ suchparameter ->
     exists m, modell r = Some m /\
       like (toLowerCase ("%" +:+ p +:+ "%")) (toLowerCase m) = true /\
       (all_plain p = true ->
        includes (toLowerCase p) (toLowerCase m) = true)) /\
  (forall s, ("art", VString s) ∈ suchparameter ->
     exists a, art r = Some a /\ autoart_name a = s) /\
  (forall s, ("lieferbar", VString s) ∈ suchparameter ->
     lieferbar r = String.eqb (toLowerCase s) "true") /\
  (forall v, ("datum", v) ∈ suchparameter ->
     exists t, datum r = Some t /\ le (new_Date v) (of_Z t) = true) /\
  (forall s, ("schlagwort", VString s) ∈ suchparameter ->
     trim s <> "" ->
     exists l, schlagwoerter r = Some l /\ toUpperCase s ∈ l).
Proof.
  intros Hnd Hb Hm.
  assert (forall key v,
            key ∈ ["modell"; "fgnr"; "art"; "lieferbar"; "datum"] ->
            (key, v) ∈ suchparameter ->
            exists rest, matches (build_entry' rest (key, v)) r = true)
    as Hkey.
  { intros key v Hk Hin.
    destruct (build_with_key key v _ _ Hk Hnd Hin Hb) as (rest & ->).
    now exists rest. }
  split; [|split; [|split; [|split; [|split]]]].
  - intros p Hin.
    destruct (Hkey "fgnr" (VString p)) as (rest & H);
      [now apply (bool_decide_unpack _)|exact Hin|].
    unfold matches in H.
    repeat (apply andb_prop in H as [H ?]).
    match goal with
    | Ha : on_some _ (Where.fgnr _) = true |- _ =>
        cbn [build_entry String.eqb Ascii.eqb Bool.eqb Where.set_fgnr
             Where.fgnr on_some string_filter_matches] in Ha;
        split; [exact Ha|]; intros Hp;
        unfold Js.startsWith; now rewrite <- (like_prefix p _ Hp)
    end.
  - intros p Hin.
    destruct (Hkey "modell" (VString p)) as (rest & H);
      [now apply (bool_decide_unpack _)|exact Hin|].
    unfold matches in H.
    repeat (apply andb_prop in H as [H ?]).
    cbn [build_entry String.eqb Ascii.eqb Bool.eqb Where.set_modell
         Where.modell on_some string_filter_matches] in H.
    destruct (modell r) as [m|]; [|discriminate]. exists m.
    split; [reflexivity|]. split; [exact H|]. intros Hp.
    rewrite <- (like_contains (toLowerCase p) (toLowerCase m))
      by now rewrite all_plain_toLowerCase.
    assert (toLowerCase ("%" +:+ p +:+ "%") =
            "%" +:+ toLowerCase p +:+ "%") as Hlow
      by (unfold toLowerCase; now rewrite !map_string_app).
    now rewrite <- Hlow.
  - intros s Hin.
    destruct (Hkey "art" (VString s)) as (rest & H);
      [now apply (bool_decide_unpack _)|exact Hin|].
    unfold matches in H.
    repeat (apply andb_prop in H as [H ?]).
    match goal with
    | Ha : on_some (fun v => art_matches v (art r)) _ = true |- _ =>
        cbn in Ha; destruct (art r) as [a|]; [|discriminate];
        apply String.eqb_eq in Ha; now exists a
    end.
  - intros s Hin.
    destruct (Hkey "lieferbar" (VString s)) as (rest & H);
      [now apply (bool_decide_unpack _)|exact Hin|].
    unfold matches in H.
    repeat (apply andb_prop in H as [H ?]).
    match goal with
    | Ha : on_some (fun b => Bool.eqb b (lieferbar r)) _ = true |- _ =>
        cbn in Ha; apply Bool.eqb_prop in Ha; now symmetry
    end.
  - intros v Hin.
    destruct (Hkey "datum" v) as (rest & H);
      [now apply (bool_decide_unpack _)|exact Hin|].
    unfold matches in H.
    repeat (apply andb_prop in H as [H ?]).
    match goal with
    | Ha : on_some _ (Where.datum _) = true |- _ =>
        cbn in Ha; destruct (datum r) as [t|]; [|discriminate]; now exists t
    end.
  - intros s Hin Hs.
    apply (get_of_elem_of _ _ _ Hnd) in Hin.
    unfold build in Hb. rewrite Hin in Hb. cbn [buildSchlagwoerter] in Hb.
    apply String.eqb_neq in Hs. rewrite Hs in Hb. injection Hb as <-.
    unfold matches in Hm. apply andb_prop in Hm as [_ Hm].
    cbn in Hm. destruct (schlagwoerter r) as [l|]; [|discriminate].
    exists l. split; [reflexivity|].
    apply existsb_exists in Hm as (x & Hx & ->%String.eqb_eq).
    now apply list_elem_of_In.
Qed.

End Building.

(* ===================================================================== *)
(** * Further properties: version tokens and entity tags *)
(* ===================================================================== *)

Lemma digits_value_from_lower (ds : string) :
  all_digits ds = true ->
  forall acc, (0 <= acc)%Z ->
    (acc * 10 ^ Z.of_nat (String.length ds) <= digits_value_from acc ds)%Z.
Proof.
  induction ds as [|c ds IH]; intros Hd acc Hacc.
  - simpl. lia.
  - simpl in Hd. apply andb_prop in Hd as [Hc Hd].
    apply digit_value_bounds in Hc.
    cbn [digits_value_from String.length].
    specialize (IH Hd (10 * acc + digit_value c)%Z ltac:(lia)).
    rewrite Nat2Z.inj_succ, Z.pow_succ_r by lia.
    assert (0 < 10 ^ Z.of_nat (String.length ds))%Z
      by (apply Z.pow_pos_nonneg; lia).
    nia.
Qed.

Lemma digit_value_nonzero (c : ascii) :
  is_digit c = true -> Ascii.eqb c "0" = false -> (1 <= digit_value c)%Z.
Proof.
  unfold is_digit, digit_value. intros H Hc.
  apply andb_prop in H as [H1 H2].
  apply Nat.leb_le in H1. apply Nat.leb_le in H2.
  assert (nat_of_ascii c <> 48%nat) as Hne.
  { intros E. apply (f_equal ascii_of_nat) in E.
    rewrite ascii_nat_embedding in E. subst c. discriminate Hc. }
  lia.
Qed.

(** The numeral of a number below 1000 has one to three digits, the
    numeral of a greater one has more. *)
Lemma decimal_numeral_length (s : string) (z : Z) :
  decimal_numeral s z ->
  all_digits s = true /\ digits_value s = z /\
  (1 <= String.length s)%nat /\
  ((z < 1000)%Z <-> (String.length s <= 3)%nat).
Proof.
  intros (Hd & Hv & Hz). split; [exact Hd|]. split; [exact Hv|].
  destruct s as [|c1 s1]; [contradiction|]. split; [simpl; lia|].
  split.
  - intros Hlt.
    destruct s1 as [|c2 [|c3 [|c4 s]]]; try (simpl; lia). exfalso.
    destruct Hz as [Hz|Hz]; [discriminate Hz|].
    simpl in Hd. apply andb_prop in Hd as [H1 Hd].
    pose proof (digit_value_nonzero _ H1 Hz) as Hc1.
    pose proof (digits_value_from_lower
                  (String c2 (String c3 (String c4 s))) Hd
                  (digit_value c1) ltac:(lia)) as Hlow.
    unfold digits_value in Hv. cbn [digits_value_from] in Hv.
    cbn [digits_value_from] in Hlow. rewrite Z.mul_0_r, Z.add_0_l in Hv.
    rewrite Hv in Hlow. cbn [String.length] in Hlow.
    rewrite !Nat2Z.inj_succ, !Z.pow_succ_r in Hlow by lia.
    assert (0 < 10 ^ Z.of_nat (String.length s))%Z
      by (apply Z.pow_pos_nonneg; lia).
    nia.
  - intros Hl. pose proof (digits_value_bound _ Hd Hl). lia.
Qed.

Lemma digits_before_quote (a b x y : string) :
  all_digits a = true -> all_digits b = true ->
  a +:+ String dquote x = b +:+ String dquote y -> a = b.
Proof.
  revert b. induction a as [|c a IH]; intros [|d b] Ha Hb H;
    cbv [String.append] in H; fold String.append in H.
  - reflexivity.
  - injection H as <- _. simpl in Hb. discriminate Hb.
  - injection H as -> _. simpl in Ha. discriminate Ha.
  - injection H as -> H. simpl in Ha, Hb.
    apply andb_prop in Ha as [_ Ha]. apply andb_prop in Hb as [_ Hb].
    f_equal. now apply IH.
Qed.

(** A numeral between double quotes is a version token exactly when it
    has at most three digits, and then the token stands for its number. *)
Lemma quoted_numeral_token (s : string) (z : Z) :
  decimal_numeral s z ->
  test_anchored_start VERSION_PATTERN (quoted s) = (z <? 1000)%Z /\
  ((z < 1000)%Z -> parseInt10 (slice 1 (-1) (quoted s)) = of_Z z).
Proof.
  intros (Hd & Hv & Hone & Hlen)%decimal_numeral_length. split.
  - destruct (z <? 1000)%Z eqn:E.
    + apply Z.ltb_lt, Hlen in E. unfold quoted.
      apply VERSION_PATTERN_accepts_prefix; [exact Hd|lia].
    + apply Z.ltb_ge in E.
      destruct (test_anchored_start VERSION_PATTERN (quoted s)) eqn:Ht;
        [|reflexivity]. exfalso.
      apply VERSION_PATTERN_accepts in Ht as (ds & rest & Heq & Hds & Hl).
      unfold quoted in Heq. injection Heq as Heq.
      apply digits_before_quote in Heq; [|assumption..]. subst ds.
      assert (z < 1000)%Z by (apply Hlen; lia). lia.
  - intros Hlt. unfold quoted. rewrite slice_1_m1.
    replace (String.length (s +:+ String dquote "") - 1)%nat
      with (String.length s + 0)%nat
      by (rewrite length_app_string; simpl; lia).
    rewrite substring_0_app. rewrite <- Hv.
    apply parseInt10_digits; [|exact Hd|now apply Hlen|exact I].
    destruct s; [simpl in Hone; lia|congruence].
Qed.

(** X19: DELETE over REST answers alike whether or not the row exists,
    and can be repeated: the call returns without an error, the row with
    the id is gone afterwards and no other row is touched, and a second
    call changes nothing any more. *)
Theorem controller_delete_is_idempotent (w : world) (i : Z) :
  exists w1 w2,
    controller_delete i w = (Return tt, w1) /\
    autos w1 = delete i (autos w) /\
    controller_delete i w1 = (Return tt, w2) /\
    autos w2 = autos w1.
Proof.
  assert (forall w0, exists w1,
            controller_delete i w0 = (Return tt, w1) /\
            autos w1 = delete i (autos w0)) as Hstep.
  { intros w0. unfold controller_delete. unfold_monad.
    destruct (autos w0 !! i) as [r|] eqn:Hr.
    - rewrite (delete_existing _ _ _ Hr). eexists. split; reflexivity.
    - rewrite (delete_missing _ _ Hr). eexists. split; [reflexivity|].
      cbn [autos log]. symmetry. now apply delete_id. }
  destruct (Hstep w) as (w1 & H1 & Ha1).
  destruct (Hstep w1) as (w2 & H2 & Ha2).
  exists w1, w2. repeat split; try assumption.
  rewrite Ha2, Ha1. apply delete_id. apply lookup_delete_eq.
Qed.

(** ** The query of a GET request *)

Lemma filter_keys (p : string * value -> bool) (o : Suchparameter)
    (k : string) :
  k ∈ (List.filter p o).*1 -> k ∈ o.*1.
Proof.
  intros ([k' v] & -> & Hin)%list_elem_of_fmap.
  apply list_elem_of_In, filter_In in Hin as [Hin _].
  apply list_elem_of_fmap. exists (k', v). split; [reflexivity|].
  now apply list_elem_of_In.
Qed.

Lemma get_absent (k : string) (o : Suchparameter) :
  k ∉ o.*1 -> get k o = VUndefined.
Proof.
  intros H. unfold get.
  destruct (List.find _ o) as [[k' v]|] eqn:E; [|reflexivity].
  apply find_some in E as [Hin Hk]. cbn [fst] in Hk.
  apply String.eqb_eq in Hk as ->. exfalso. apply H.
  apply list_elem_of_fmap. exists (k, v). split; [reflexivity|].
  now apply list_elem_of_In.
Qed.

Lemma get_defined (k : string) (o : Suchparameter) :
  NoDup o.*1 ->
  get k (List.filter (fun kv => negb (is_undefined kv.2)) o) = get k o.
Proof.
  induction o as [|[k1 x] o IH]; intros Hnd; [reflexivity|].
  rewrite fmap_cons in Hnd. apply NoDup_cons in Hnd as [Hk Hnd].
  cbn [fst] in Hk. cbn [List.filter snd].
  destruct (String.eqb k1 k) eqn:E.
  - apply String.eqb_eq in E as ->.
    destruct x; cbn [is_undefined negb]; unfold get;
      cbn [List.find fst]; rewrite ?String.eqb_refl; try reflexivity.
    fold (get k (List.filter (fun kv => negb (is_undefined kv.2)) o)).
    apply get_absent. intros Hin. apply Hk. now apply filter_keys in Hin.
  - destruct (negb (is_undefined x)); unfold get; cbn [List.find fst];
      rewrite ?E; now apply IH.
Qed.

Lemma set_property_NoDup (key : string) (v : value) (o : Suchparameter) :
  NoDup o.*1 -> NoDup (set_property key v o).*1.
Proof.
  intros Hnd. rewrite set_property_keys.
  destruct (existsb _ o) eqn:E; [exact Hnd|].
  apply NoDup_app. split; [exact Hnd|]. split; [|apply NoDup_singleton].
  intros k Hk ->%list_elem_of_singleton.
  apply existsb_key in Hk. congruence.
Qed.

Lemma mapped_query_paging (query : Suchparameter) :
  (forall k, k ∈ query.*1 -> k ∈ ["page"; "size"]) ->
  mapped_query query = [].
Proof.
  intros H.
  assert (without "size" (without "page" query) = []) as Hq.
  { unfold without.
    induction query as [|[k v] query IH]; [reflexivity|].
    cbn [List.filter fst].
    assert (k ∈ ["page"; "size"]) as Hk
      by (apply H; rewrite fmap_cons; apply elem_of_cons; now left).
    assert (forall k', k' ∈ query.*1 -> k' ∈ ["page"; "size"]) as H'
      by (intros k' Hk'; apply H; rewrite fmap_cons; apply elem_of_cons;
          now right).
    apply elem_of_cons in Hk as [->|Hk]; [exact (IH H')|].
    apply list_elem_of_singleton in Hk as ->. exact (IH H'). }
  unfold mapped_query. rewrite Hq. reflexivity.
Qed.

(** The keys of an object without one of its properties; the runtime
    functions play no part in it. *)
Lemma without_keys_iff (key k : string) (o : Suchparameter) :
  k ∈ (without key o).*1 <-> k ∈ o.*1 /\ k <> key.
Proof. exact (without_keys (fun _ => NaN) (fun _ => EmptyString) key k o). Qed.

Lemma without_NoDup_keys (key : string) (o : Suchparameter) :
  NoDup o.*1 -> NoDup (without key o).*1.
Proof. exact (without_NoDup (fun _ => NaN) (fun _ => EmptyString) key o). Qed.

(** X20: the query that GET hands to [find]. It has none of the keys
    [page], [size], [sport] and [komfort] and no undefined value, and
    its keys are keys of the request or [schlagwort]. Every other
    parameter is passed on as it came. The [schlagwort] is [KOMFORT]
    when [komfort] is the string [true], else [SPORT] when [sport] is,
    whatever [schlagwort] the request has itself, and only otherwise the
    one of the request. *)
Theorem mapped_query_of_a_request (query : Suchparameter) :
  NoDup query.*1 ->
  let q := mapped_query query in
  (forall k, k ∈ q.*1 ->
     (k ∉ ["page"; "size"; "sport"; "komfort"]) /\
     (k ∈ query.*1 \/ k = "schlagwort")) /\
  (forall k v, (k, v) ∈ q -> v <> VUndefined) /\
  (forall k, k ∉ ["page"; "size"; "sport"; "komfort"; "schlagwort"] ->
     get k q = get k query) /\
  get "schlagwort" q =
    (if is_string_true (get "komfort" query) then VString "KOMFORT"
     else if is_string_true (get "sport" query) then VString "SPORT"
     else get "schlagwort" query).
Proof.
  intros Hnd q. subst q. unfold mapped_query.
  set (q0 := without "size" (without "page" query)).
  set (q1 := if is_string_true (get "sport" q0)
             then set_property "schlagwort" (VString "SPORT") q0 else q0).
  set (q2 := if is_string_true (get "komfort" q1)
             then set_property "schlagwort" (VString "KOMFORT") q1 else q1).
  pose proof without_NoDup_keys as Hwnd.
  pose proof without_keys_iff as Hwk.
  assert (NoDup q0.*1) as Hnd0 by (subst q0; now do 2 apply Hwnd).
  assert (NoDup q1.*1) as Hnd1.
  { unfold q1. destruct (is_string_true (get "sport" q0)); [|exact Hnd0].
    now apply set_property_NoDup. }
  assert (NoDup q2.*1) as Hnd2.
  { unfold q2. destruct (is_string_true (get "komfort" q1)); [|exact Hnd1].
    now apply set_property_NoDup. }
  assert (forall k, k <> "page" -> k <> "size" -> get k q0 = get k query)
    as Hg0.
  { intros k H1 H2. unfold q0. now rewrite !get_without. }
  assert (forall k, k <> "schlagwort" -> get k q1 = get k q0) as Hg1.
  { intros k Hk. unfold q1.
    destruct (is_string_true (get "sport" q0)); [|reflexivity].
    now apply set_property_get_other. }
  assert (forall k, k <> "schlagwort" -> get k q2 = get k q1) as Hg2.
  { intros k Hk. unfold q2.
    destruct (is_string_true (get "komfort" q1)); [|reflexivity].
    now apply set_property_get_other. }
  assert (forall k o v, k ∈ (set_property "schlagwort" v o).*1 ->
            k ∈ o.*1 \/ k = "schlagwort") as Hsk.
  { intros k o v. rewrite set_property_keys.
    destruct (existsb _ o); [now left|].
    rewrite elem_of_app, list_elem_of_singleton. tauto. }
  assert (forall k, k ∈ q1.*1 -> k ∈ q0.*1 \/ k = "schlagwort") as Hk1.
  { intros k. unfold q1.
    destruct (is_string_true (get "sport" q0)); [apply Hsk|now left]. }
  assert (forall k, k ∈ q2.*1 -> k ∈ q1.*1 \/ k = "schlagwort") as Hk2.
  { intros k. unfold q2.
    destruct (is_string_true (get "komfort" q1)); [apply Hsk|now left]. }
  split; [|split; [|split]].
  - intros k Hk. apply filter_keys in Hk.
    apply Hwk in Hk as [Hk Hkomfort].
    apply Hwk in Hk as [Hk Hsport].
    assert (k ∈ q0.*1 \/ k = "schlagwort") as [Hk0| ->].
    { apply Hk2 in Hk as [Hk|Hk]; [|now right]. now apply Hk1. }
    + unfold q0 in Hk0. apply Hwk in Hk0 as [Hk0 Hsize].
      apply Hwk in Hk0 as [Hk0 Hpage].
      split; [|now left].
      rewrite !not_elem_of_cons. repeat split; try assumption.
      apply not_elem_of_nil.
    + split; [|now right].
      rewrite !not_elem_of_cons. repeat split; try discriminate.
      apply not_elem_of_nil.
  - intros k v Hin.
    apply list_elem_of_In, filter_In in Hin as [_ Hv]. cbn [snd] in Hv.
    now destruct v.
  - intros k Hk. rewrite !not_elem_of_cons in Hk.
    destruct Hk as (H1 & H2 & H3 & H4 & H5 & _).
    rewrite get_defined by now do 2 apply Hwnd.
    rewrite !get_without by assumption.
    now rewrite Hg2, Hg1, Hg0.
  - rewrite get_defined by now do 2 apply Hwnd.
    rewrite !get_without by discriminate.
    rewrite <- (Hg0 "komfort"), <- (Hg1 "komfort"),
      <- (Hg0 "sport"), <- (Hg0 "schlagwort") by discriminate.
    unfold q2. destruct (is_string_true (get "komfort" q1));
      [apply set_property_get|].
    unfold q1. destruct (is_string_true (get "sport" q0));
      [apply set_property_get|reflexivity].
Qed.

Section Rest.

Variable accepts : gmap Z auto -> auto -> bool.
Variable new_Date : value -> Js.number.
Variable Number_toString : Js.number -> string.
Variable createPageable : value -> value -> Pageable.

Local Abbreviation etag' := (etag Number_toString).
Local Abbreviation getById' := (controller_getById Number_toString).
Local Abbreviation put' := (controller_put accepts new_Date Number_toString).
Local Abbreviation get' :=
  (controller_get new_Date Number_toString createPageable).

(** X16: the entity tag over requests that run one after the other,
    each to its end before the next begins. Take a row with a version
    below 1000 whose number is written as its decimal numeral. GET sends
    the row with its tag, and a conditional GET with that tag is
    answered with 304. A PUT with the tag as [If-Match] whose data the
    database accepts is carried out and answers with the tag of the next
    version. A PUT that begins after it and still carries the first tag
    is refused as outdated and changes nothing. Nothing is said about
    two PUTs whose steps interleave: the version check and the write of
    [update] are two calls to the database. *)
Theorem put_with_the_etag_of_get (w : world) (i : Z) (r r' : auto)
    (autoDTO autoDTO' : AutoDTO.t) :
  autos w !! i = Some r ->
  (version r < 1000)%Z ->
  decimal_numeral (Number_toString (of_Z (version r))) (version r) ->
  updated_row
    (AutoUpdate.with_version (increment 1)
       (autoDtoToAutoUpdate new_Date autoDTO)) r = Some r' ->
  accepts (delete i (autos w)) r' = true ->
  let tag := etag' (of_Z (version r)) in
  exists w1 w2 w3,
    getById' true i None w = (Return (ok_auto tag (as_found r)), w1) /\
    getById' true i (Some tag) w = (Return not_modified, w1) /\
    put' autoDTO i (Some tag) w1 =
      (Return (no_content (etag' (of_Z (version r + 1)))), w2) /\
    autos w2 = <[i := r']> (autos w) /\
    put' autoDTO' i (Some tag) w2 =
      (Throw (VersionOutdatedException (of_Z (version r))), w3) /\
    autos w3 = autos w2.
Proof.
  intros Hr Hlt Hnum Hu Hacc tag.
  destruct (quoted_numeral_token _ _ Hnum) as [Ht Hn].
  apply Z.ltb_lt in Hlt as Hlt'. rewrite Hlt' in Ht. specialize (Hn Hlt).
  fold (etag' (of_Z (version r))) in Ht, Hn. fold tag in Ht, Hn.
  pose proof (updated_row_version _ _ _ Hu) as Hv.
  set (w1 := log (auto_findUnique i) w).
  assert (autos w1 !! i = Some r) as Hr1 by exact Hr.
  eexists w1, _, _. split; [|split; [|split; [|split; [|split]]]].
  - unfold controller_getById. cbn [negb]. unfold_monad.
    rewrite (findById_found _ _ _ _ Hr).
    cbn [version schlagwoerter_or_empty ohne_bilder]. fold tag.
    rewrite bool_decide_eq_false_2 by discriminate. reflexivity.
  - unfold controller_getById. cbn [negb]. unfold_monad.
    rewrite (findById_found _ _ _ _ Hr).
    cbn [version schlagwoerter_or_empty ohne_bilder]. fold tag.
    rewrite bool_decide_eq_true_2 by reflexivity. reflexivity.
  - unfold controller_put. unfold_monad.
    rewrite (update_current accepts w1 i _ tag (version r) r Ht Hn Hr1
               ltac:(lia)).
    cbv zeta. rewrite Hu.
    change (autos w1) with (autos w). rewrite Hacc, Hv. reflexivity.
  - reflexivity.
  - unfold controller_put. unfold_monad.
    erewrite (update_outdated accepts _ i _ tag (version r) r' Ht Hn).
    + reflexivity.
    + cbn [autos with_autos]. apply lookup_insert_eq.
    + lia.
  - reflexivity.
Qed.

(** X17: a row that has reached version 1000 can no longer be changed
    over REST with the tag the server itself hands out: GET sends the
    row with the tag of its version, and PUT refuses that tag as an
    invalid version, before it reads anything. *)
Theorem etag_of_version_1000_is_refused (w : world) (i : Z) (r : auto)
    (autoDTO : AutoDTO.t) :
  autos w !! i = Some r ->
  (1000 <= version r)%Z ->
  decimal_numeral (Number_toString (of_Z (version r))) (version r) ->
  let tag := etag' (of_Z (version r)) in
  exists w1,
    getById' true i None w = (Return (ok_auto tag (as_found r)), w1) /\
    put' autoDTO i (Some tag) w1 = (Throw (VersionInvalidException tag), w1).
Proof.
  intros Hr Hge Hnum tag.
  destruct (quoted_numeral_token _ _ Hnum) as [Ht _].
  apply Z.ltb_ge in Hge. rewrite Hge in Ht.
  fold (etag' (of_Z (version r))) in Ht. fold tag in Ht.
  eexists. split.
  - unfold controller_getById. cbn [negb]. unfold_monad.
    rewrite (findById_found _ _ _ _ Hr).
    cbn [version schlagwoerter_or_empty ohne_bilder]. fold tag.
    rewrite bool_decide_eq_false_2 by discriminate. reflexivity.
  - unfold controller_put. unfold_monad.
    destruct (update_invalid accepts (log (auto_findUnique i) w) (Some i)
                (autoDtoToAutoUpdate new_Date autoDTO) tag Ht)
      as (e & He & Hi).
    rewrite He, Hi by discriminate. reflexivity.
Qed.

(** X18: a PUT replaces the row but for its id, its model and its
    pictures. When it answers with an entity tag, the stored row has
    what the columns store for the values of the request body: the
    chassis number, the kind, the price rounded to two decimals, the
    integer part of the discount, [lieferbar], the day of the date and
    the keywords, with the defaults 0, false, no date and no keywords
    for what the body leaves out; the model and the pictures of the body
    are not looked at; the version is one higher and is the one of the
    tag. *)
Theorem put_replaces_the_attributes (w w' : world) (i : Z)
    (autoDTO : AutoDTO.t) (ifMatch : option string) (tag : string) :
  put' autoDTO i ifMatch w = (Return (no_content tag), w') ->
  exists r r',
    autos w !! i = Some r /\ autos w' = <[i := r']> (autos w) /\
    tag = etag' (of_Z (version r + 1)) /\
    version r' = (version r + 1)%Z /\
    id r' = id r /\ modell r' = modell r /\ bilder r' = bilder r /\
    fgnr r' = AutoDTO.fgnr autoDTO /\
    art r' = AutoDTO.art autoDTO /\
    stored_decimal (AutoDTO.preis autoDTO) = Some (preis r') /\
    stored_integer (default (of_Z 0) (AutoDTO.rabatt autoDTO)) =
      Some (rabatt r') /\
    lieferbar r' = default false (AutoDTO.lieferbar autoDTO) /\
    date (datumValue new_Date (AutoDTO.datum autoDTO)) = Some (datum r') /\
    schlagwoerter r' = Some (default [] (AutoDTO.schlagwoerter autoDTO)).
Proof.
  unfold controller_put. destruct ifMatch as [versionStr|];
    [|unfold_monad; discriminate].
  unfold_monad.
  destruct (update_cases accepts w
              {| UpdateParams.id := Some i;
                 UpdateParams.auto := autoDtoToAutoUpdate new_Date autoDTO;
                 UpdateParams.version := versionStr |})
    as [(e & w1 & H1 & _)|(j & r & r' & w1 & Hi & H1 & Hr & Hu & _ & Ht & _)];
    rewrite H1; intros H; [discriminate|].
  cbn in Hi. injection Hi as <-. injection H as <- <-.
  pose proof (updated_row_version _ _ _ Hu) as Hv.
  exists r, r'. rewrite Hv.
  split; [exact Hr|]. split; [exact Ht|]. split; [reflexivity|].
  split; [reflexivity|].
  unfold updated_row in Hu.
  cbn [AutoUpdate.with_version autoDtoToAutoUpdate AutoUpdate.preis
       AutoUpdate.rabatt AutoUpdate.datum AutoUpdate.fgnr AutoUpdate.art
       AutoUpdate.lieferbar AutoUpdate.schlagwoerter AutoUpdate.version
       UpdateParams.auto or_old] in Hu.
  destruct (stored_decimal _) as [p|]; [|simpl in Hu; discriminate Hu].
  destruct (stored_integer _) as [b|]; [|simpl in Hu; discriminate Hu].
  destruct (date _) as [d|]; [|simpl in Hu; discriminate Hu].
  simpl in Hu. injection Hu as <-. cbn. repeat split; reflexivity.
Qed.

(** X21: what GET does with [only], [page] and [size]. A request that
    has the parameter [only], with whatever value and whatever else,
    is answered with the number of all rows. A request with no other
    parameters than [page] and [size] is no search: it is answered with
    that page of the whole table, or with [NotFoundException] when the
    page has no row. Neither writes to the table. *)
Theorem get_count_and_paging (w : world) (query : Suchparameter) :
  (get "only" query <> VUndefined ->
   exists w',
     get' true query w = (Return (get_count (length (rows w))), w') /\
     autos w' = autos w) /\
  ((forall k, k ∈ query.*1 -> k ∈ ["page"; "size"]) ->
   let pageable := createPageable (get "page" query) (get "size" query) in
   exists w',
     get' true query w =
     (match page_of pageable (rows w) with
      | [] => Throw (NotFoundException (UngueltigeSeite (number pageable)))
      | page =>
          Return (get_page {| content := as_found <$> page;
                              totalElements := length (rows w) |} pageable)
      end, w') /\
     autos w' = autos w).
Proof.
  split.
  - intros Ho. unfold controller_get. cbn [negb].
    destruct (get "only" query); [congruence|..];
      cbn [is_undefined negb]; unfold_monad;
      unfold count, count_where, checked; cbn [selected];
      eexists; split; reflexivity.
  - intros Hk pageable.
    assert (get "only" query = VUndefined) as Ho.
    { apply get_absent. intros Hin. apply Hk in Hin.
      apply elem_of_cons in Hin as [Hin|Hin]; [discriminate|].
      apply list_elem_of_singleton in Hin. discriminate. }
    unfold controller_get. cbn [negb]. rewrite Ho. cbn [is_undefined negb].
    rewrite (mapped_query_paging _ Hk). fold pageable.
    unfold_monad.
    change (find new_Date Number_toString (Some []) pageable w)
      with (findAll pageable w).
    rewrite findAll_result.
    destruct (page_of pageable (rows w)); eexists; split; reflexivity.
Qed.

End Rest.

(* ===================================================================== *)
(** * Further properties: the base URI *)
(* ===================================================================== *)

Lemma lastIndexOf_bounds (c : ascii) (s : string) :
  (-1 <= lastIndexOf c s < Z.of_nat (String.length s))%Z.
Proof.
  induction s as [|d s IH]; cbn [lastIndexOf String.length]; [lia|].
  destruct (0 <=? lastIndexOf c s)%Z eqn:E; [lia|].
  destruct (Ascii.eqb d c); lia.
Qed.

Lemma includes_char (c : ascii) (s : string) :
  includes (String c "") s = (0 <=? lastIndexOf c s)%Z.
Proof.
  induction s as [|d s IH]; [reflexivity|].
  cbn [includes lastIndexOf String.prefix]. rewrite IH.
  pose proof (lastIndexOf_bounds c s) as Hb.
  destruct (0 <=? lastIndexOf c s)%Z eqn:E.
  - apply Z.leb_le in E.
    assert ((0 <=? lastIndexOf c s + 1)%Z = true) as ->
      by (apply Z.leb_le; lia).
    apply orb_true_r.
  - rewrite orb_false_r.
    destruct (ascii_dec c d) as [->|Hne].
    + rewrite Ascii.eqb_refl. now destruct s.
    + assert (Ascii.eqb d c = false) as ->
        by (apply Ascii.eqb_neq; congruence).
      reflexivity.
Qed.

Lemma lastIndexOf_app_last (c : ascii) (a b : string) :
  lastIndexOf c b = (-1)%Z ->
  lastIndexOf c (a +:+ String c b) = Z.of_nat (String.length a).
Proof.
  intros Hb. induction a as [|d a IH]; cbv [String.append];
    fold String.append; cbn [lastIndexOf String.length].
  - rewrite Hb. cbn. now rewrite Ascii.eqb_refl.
  - rewrite IH.
    assert ((0 <=? Z.of_nat (String.length a))%Z = true) as ->
      by (apply Z.leb_le; lia).
    lia.
Qed.

Lemma lastIndexOf_app_absent (c : ascii) (a b : string) :
  lastIndexOf c a = (-1)%Z -> lastIndexOf c b = (-1)%Z ->
  lastIndexOf c (a +:+ b) = (-1)%Z.
Proof.
  intros Ha Hb. induction a as [|d a IH]; [exact Hb|].
  cbv [String.append]; fold String.append.
  cbn [lastIndexOf] in *.
  destruct (0 <=? lastIndexOf c a)%Z eqn:E.
  - apply Z.leb_le in E. lia.
  - rewrite IH; [|pose proof (lastIndexOf_bounds c a); apply Z.leb_gt in E; lia].
    cbn. exact Ha.
Qed.

Lemma lastIndexOf_cons_other (c d : ascii) (s : string) :
  Ascii.eqb d c = false -> lastIndexOf c s = (-1)%Z ->
  lastIndexOf c (String d s) = (-1)%Z.
Proof. intros Hd Hs. cbn [lastIndexOf]. rewrite Hs, Hd. reflexivity. Qed.

Lemma append_empty_r (s : string) : s +:+ "" = s.
Proof.
  induction s as [|c s IH]; [reflexivity|].
  cbv [String.append]; fold String.append. now rewrite IH.
Qed.

Lemma append_assoc_string (a b c : string) :
  (a +:+ b) +:+ c = a +:+ b +:+ c.
Proof.
  induction a as [|x a IH]; [reflexivity|].
  cbv [String.append]; fold String.append. now rewrite IH.
Qed.

Lemma substring_all (s : string) :
  String.substring 0 (String.length s) s = s.
Proof. induction s as [|c s IH]; [reflexivity|]. simpl. now rewrite IH. Qed.

Lemma substring_skip (a u : string) (k n : nat) :
  String.substring (String.length a + k) n (a +:+ u) = String.substring k n u.
Proof.
  induction a as [|c a IH]; [reflexivity|].
  cbv [String.append]; fold String.append. exact IH.
Qed.

(** [s.slice (0, i)] at the end of a first part of the string, and
    [s.slice (i + 1)] one character behind it. *)
Lemma slice_0_app (a b : string) :
  slice 0 (Z.of_nat (String.length a)) (a +:+ b) = a.
Proof.
  unfold slice. rewrite length_app_string.
  replace (0 <? 0)%Z with false by reflexivity.
  assert ((Z.of_nat (String.length a) <? 0)%Z = false) as ->
    by (apply Z.ltb_ge; lia).
  cbv beta zeta. rewrite !Z.min_l by lia.
  replace (Z.to_nat 0) with 0%nat by reflexivity.
  replace (Z.to_nat (Z.of_nat (String.length a) - 0))
    with (String.length a + 0)%nat by lia.
  rewrite substring_0_app. cbn [String.substring].
  destruct b; apply append_empty_r.
Qed.

Lemma slice_from_app (a b : string) (c : ascii) :
  slice_from (Z.of_nat (String.length a) + 1) (a +:+ String c b) = b.
Proof.
  unfold slice_from, slice. rewrite length_app_string.
  cbn [String.length].
  assert ((Z.of_nat (String.length a) + 1 <? 0)%Z = false) as ->
    by (apply Z.ltb_ge; lia).
  assert ((Z.of_nat (String.length a + S (String.length b)) <? 0)%Z = false)
    as -> by (apply Z.ltb_ge; lia).
  cbv beta zeta. rewrite Z.min_l by lia. rewrite Z.min_l by lia.
  replace (Z.to_nat (Z.of_nat (String.length a) + 1))
    with (String.length a + 1)%nat by lia.
  replace (Z.to_nat (Z.of_nat (String.length a + S (String.length b)) -
                     (Z.of_nat (String.length a) + 1)))
    with (String.length b) by lia.
  rewrite substring_skip. cbn [String.substring]. apply substring_all.
Qed.

Section BaseUri_properties.

Variable port : string.

(** X22: [createBaseUri] gives the address of the collection. Take a
    request path without a question mark that ends with a slash and a
    last part, alone or followed by a question mark and a query string
    that has no further question mark. The result is the protocol, the
    host and the port, followed by the path without the query string.
    The last part is cut off with its slash exactly when
    it is an id, a number of at most eleven digits without a leading
    zero, and something stands before the slash; so the URI of a car
    and the URI of its collection have the same base URI, and the path
    [/1] keeps its id. *)
Theorem createBaseUri_strips_query_and_id
    (scheme host base last query : string) :
  includes "?" base = false ->
  includes "?" last = false ->
  includes "/" last = false ->
  includes "?" query = false ->
  let origin := scheme +:+ "://" +:+ host +:+ port in
  let expected :=
    if ID_PATTERN_test last && negb (String.eqb base "")
    then origin +:+ base
    else origin +:+ base +:+ "/" +:+ last in
  createBaseUri port
    {| protocol := scheme; hostname := host;
       url := base +:+ "/" +:+ last |} = expected /\
  createBaseUri port
    {| protocol := scheme; hostname := host;
       url := base +:+ "/" +:+ last +:+ "?" +:+ query |} = expected.
Proof.
  rewrite !includes_char. intros Hb Hl Hs Hq origin expected.
  apply Z.leb_gt in Hb, Hl, Hs, Hq.
  pose proof (lastIndexOf_bounds "?" base).
  pose proof (lastIndexOf_bounds "?" last).
  pose proof (lastIndexOf_bounds "/" last).
  pose proof (lastIndexOf_bounds "?" query).
  set (path := base +:+ "/" +:+ last).
  assert (lastIndexOf "?" path = (-1)%Z) as Hpq.
  { apply lastIndexOf_app_absent; [lia|].
    apply lastIndexOf_cons_other; [reflexivity|lia]. }
  assert (lastIndexOf "/" path = Z.of_nat (String.length base)) as Hps
    by (apply lastIndexOf_app_last; lia).
  assert (forall p : string,
            p = path ->
            origin +:+
            (if (0 <? lastIndexOf "/" p)%Z then
               if ID_PATTERN_test (slice_from (lastIndexOf "/" p + 1) p)
               then slice 0 (lastIndexOf "/" p) p else p
             else p) = expected) as Hpath.
  { intros p ->. rewrite Hps. unfold path at 1 2 3.
    change ("/" +:+ last) with (String "/" last).
    rewrite slice_from_app, slice_0_app. subst expected.
    destruct base as [|c base'].
    - cbn [String.length String.eqb negb]. rewrite andb_false_r. reflexivity.
    - assert ((0 <? Z.of_nat (String.length (String c base')))%Z = true)
        as -> by (apply Z.ltb_lt; cbn [String.length]; lia).
      cbn [String.eqb negb]. rewrite andb_true_r.
      destruct (ID_PATTERN_test last); reflexivity. }
  assert (forall a b c d e : string,
            a +:+ b +:+ c +:+ d +:+ e = (a +:+ b +:+ c +:+ d) +:+ e) as Happ.
  { intros a b c d e. now rewrite !append_assoc_string. }
  split.
  - unfold createBaseUri. cbn [url protocol hostname]. fold path.
    rewrite includes_char, Hpq. cbn [Z.leb Z.compare].
    rewrite <- (Hpath path eq_refl). apply Happ.
  - unfold createBaseUri. cbn [url protocol hostname].
    assert (base +:+ "/" +:+ last +:+ "?" +:+ query =
            path +:+ String "?" query) as ->.
    { unfold path. now rewrite !append_assoc_string. }
    rewrite includes_char.
    rewrite (lastIndexOf_app_last "?" path query) by lia.
    assert ((0 <=? Z.of_nat (String.length path))%Z = true) as ->
      by (apply Z.leb_le; lia).
    rewrite slice_0_app.
    rewrite <- (Hpath path eq_refl). apply Happ.
Qed.

End BaseUri_properties.

(* ===================================================================== *)
(** * Further properties: the binary file of a car *)
(* ===================================================================== *)

Lemma findFileByAutoId_Some (autoId : Z) (db : database) (g : AutoFile.t) :
  findFileByAutoId autoId db = Some g ->
  exists i, auto_file_table db !! i = Some g /\ AutoFile.autoId g = autoId.
Proof.
  unfold findFileByAutoId. intros [Hin Hg]%find_some.
  apply Z.eqb_eq in Hg. apply list_elem_of_In, list_elem_of_fmap in Hin.
  destruct Hin as ([i g'] & -> & Hin). exists i.
  split; [now apply elem_of_map_to_list|exact Hg].
Qed.

Lemma findFileByAutoId_None (autoId : Z) (db : database) :
  findFileByAutoId autoId db = None <->
  forall i g, auto_file_table db !! i = Some g -> AutoFile.autoId g <> autoId.
Proof.
  unfold findFileByAutoId. split.
  - intros H i g Hg Ha.
    assert (In g (map_to_list (auto_file_table db)).*2) as Hin.
    { apply list_elem_of_In, list_elem_of_fmap. exists (i, g).
      split; [reflexivity|now apply elem_of_map_to_list]. }
    apply (find_none _ _ H) in Hin. apply Z.eqb_neq in Hin. contradiction.
  - intros H.
    destruct (List.find _ _) as [g|] eqn:E; [|reflexivity]. exfalso.
    destruct (findFileByAutoId_Some autoId db g E) as (i & Hg & Ha).
    exact (H i g Hg Ha).
Qed.

Lemma findFileByAutoId_unique (autoId : Z) (db : database) (i : Z)
    (g : AutoFile.t) :
  (forall j h, auto_file_table db !! j = Some h ->
               AutoFile.autoId h = autoId -> h = g) ->
  auto_file_table db !! i = Some g -> AutoFile.autoId g = autoId ->
  findFileByAutoId autoId db = Some g.
Proof.
  intros Hu Hg Ha.
  destruct (findFileByAutoId autoId db) as [h|] eqn:E.
  - destruct (findFileByAutoId_Some _ _ _ E) as (j & Hh & Hha).
    f_equal. exact (Hu j h Hh Hha).
  - exfalso. exact (proj1 (findFileByAutoId_None _ _) E i g Hg Ha).
Qed.

Section Files_properties.

Variable fileTypeFromBuffer : list Byte.byte -> option string.

Local Abbreviation addFile' := (addFile fileTypeFromBuffer).

(** The three ways [addFile] ends. *)
Lemma addFile_cases (autoId : Z) (data : list Byte.byte) (filename : string)
    (size : Z) (db : database) :
  let f := {| AutoFile.id := auto_file_next_id db; AutoFile.data := data;
              AutoFile.filename := filename;
              AutoFile.mimetype := fileTypeFromBuffer data;
              AutoFile.autoId := autoId |} in
  (exists e db',
     addFile' autoId data filename size db = (Throw e, db') /\
     auto_table db' = auto_table db /\
     auto_file_table db' = auto_file_table db) \/
  (exists db',
     addFile' autoId data filename size db = (Return f, db') /\
     is_Some (auto_table db !! autoId) /\
     auto_table db' = auto_table db /\
     auto_file_table db' !! auto_file_next_id db = Some f /\
     (forall g, auto_file_table db !! auto_file_next_id db = Some g ->
                AutoFile.autoId g = autoId) /\
     (forall i g, i <> auto_file_next_id db ->
        (auto_file_table db' !! i = Some g <->
         auto_file_table db !! i = Some g /\ AutoFile.autoId g <> autoId))).
Proof.
  intros f. unfold addFile.
  destruct (auto_table db !! autoId) as [r|] eqn:Hr;
    [|left; eexists _, _; repeat split; reflexivity].
  destruct (filter _ (auto_file_table db) !! auto_file_next_id db) eqn:Hn;
    [left; eexists _, _; repeat split; reflexivity|].
  right. eexists. split; [reflexivity|]. cbn [auto_table auto_file_table].
  split; [eauto|]. split; [reflexivity|]. split; [apply lookup_insert_eq|].
  split.
  - intros g Hg. apply map_lookup_filter_None in Hn as [Hn|Hn];
      [congruence|].
    destruct (decide (AutoFile.autoId g = autoId)) as [Ha|Ha]; [exact Ha|].
    exfalso. exact (Hn g Hg Ha).
  - intros i g Hi. rewrite lookup_insert_ne by congruence.
    rewrite map_lookup_filter_Some. cbn [snd]. tauto.
Qed.

(** X23: [addFile] stores the file of a car. For an id without a car
    it throws [NotFoundException] and leaves both tables as they are.
    For a stored car, with an unused next id, it returns the new row,
    with the bytes, the name, the detected type and the id of the car;
    afterwards [findFileByAutoId] finds exactly this row, whatever files
    the car had before; the cars and the files of other cars are as
    they were. *)
Theorem addFile_stores_the_file (autoId : Z) (data : list Byte.byte)
    (filename : string) (size : Z) (db : database) :
  (auto_table db !! autoId = None ->
   addFile' autoId data filename size db =
   (Throw (NotFoundException (KeinAutoMitDerId (Some autoId))), db)) /\
  (is_Some (auto_table db !! autoId) ->
   auto_file_table db !! auto_file_next_id db = None ->
   let f := {| AutoFile.id := auto_file_next_id db; AutoFile.data := data;
               AutoFile.filename := filename;
               AutoFile.mimetype := fileTypeFromBuffer data;
               AutoFile.autoId := autoId |} in
   exists db',
     addFile' autoId data filename size db = (Return f, db') /\
     findFileByAutoId autoId db' = Some f /\
     auto_table db' = auto_table db /\
     (forall i g, auto_file_table db' !! i = Some g ->
                  AutoFile.autoId g = autoId -> g = f) /\
     (forall i g, AutoFile.autoId g <> autoId ->
        (auto_file_table db' !! i = Some g <->
         auto_file_table db !! i = Some g))).
Proof.
  split.
  - intros Hr. unfold addFile. now rewrite Hr.
  - intros [r Hr] Hfree f.
    destruct (addFile_cases autoId data filename size db)
      as [(e & db0 & He & _)|(db' & Hadd & _ & Hautos & Hnew & _ & Hold)].
    { exfalso. unfold addFile in He. rewrite Hr in He.
      rewrite map_lookup_filter_None_2 in He by (left; exact Hfree).
      discriminate He. }
    fold f in Hadd, Hnew.
    assert (forall i g, auto_file_table db' !! i = Some g ->
                        AutoFile.autoId g = autoId -> g = f) as Honly.
    { intros i g Hg Ha.
      destruct (decide (i = auto_file_next_id db)) as [->|Hi];
        [congruence|].
      apply Hold in Hg as [_ Hg]; [contradiction|exact Hi]. }
    exists db'. split; [exact Hadd|]. split; [|split; [exact Hautos|split]].
    + now apply (findFileByAutoId_unique autoId db' (auto_file_next_id db)).
    + exact Honly.
    + intros i g Hg.
      destruct (decide (i = auto_file_next_id db)) as [->|Hi].
      * rewrite Hnew, Hfree. split; [|discriminate].
        intros [= <-]. now contradiction Hg.
      * rewrite (Hold i g Hi). tauto.
Qed.

(** X24: [addFile] keeps the rules of table [auto_file]. If every car
    has at most one file and every file belongs to a stored car, that is
    still so after [addFile], however it ends, and the file found for
    any other car is the same as before. *)
Theorem addFile_keeps_file_constraints (autoId : Z) (data : list Byte.byte)
    (filename : string) (size : Z) (db : database) :
  file_constraints db ->
  let db' := (addFile' autoId data filename size db).2 in
  file_constraints db' /\
  forall other, other <> autoId ->
    findFileByAutoId other db' = findFileByAutoId other db.
Proof.
  intros [Huniq Hfk] db'. subst db'.
  destruct (addFile_cases autoId data filename size db)
    as [(e & db0 & -> & Ha0 & Hf0)|
        (db' & -> & Hr & Hautos & Hnew & Hfree & Hold)]; cbn [snd].
  { unfold file_constraints, findFileByAutoId. rewrite Ha0, Hf0.
    split; [now split|reflexivity]. }
  set (f := {| AutoFile.id := auto_file_next_id db; AutoFile.data := data;
               AutoFile.filename := filename;
               AutoFile.mimetype := fileTypeFromBuffer data;
               AutoFile.autoId := autoId |}) in *.
  set (n := auto_file_next_id db) in *.
  assert (forall i j g h,
            auto_file_table db' !! i = Some g ->
            auto_file_table db' !! j = Some h ->
            AutoFile.autoId g = AutoFile.autoId h -> i = j) as Huniq'.
  { intros i j g h Hg Hh Heq.
    destruct (decide (i = n)) as [->|Hi], (decide (j = n)) as [->|Hj];
      [reflexivity| | |].
    - rewrite Hnew in Hg. injection Hg as <-.
      apply Hold in Hh as [_ Hh]; [|exact Hj]. now contradiction Hh.
    - rewrite Hnew in Hh. injection Hh as <-.
      apply Hold in Hg as [_ Hg]; [|exact Hi]. now contradiction Hg.
    - apply Hold in Hg as [Hg _]; [|exact Hi].
      apply Hold in Hh as [Hh _]; [|exact Hj].
      exact (Huniq i j g h Hg Hh Heq). }
  split; [split; [exact Huniq'|]|].
  - intros i g Hg. rewrite Hautos.
    destruct (decide (i = n)) as [->|Hi].
    + rewrite Hnew in Hg. injection Hg as <-. exact Hr.
    + apply Hold in Hg as [Hg _]; [|exact Hi]. exact (Hfk i g Hg).
  - intros other Hother.
    destruct (findFileByAutoId other db) as [g|] eqn:E.
    + destruct (findFileByAutoId_Some _ _ _ E) as (i & Hg & Ha).
      assert (auto_file_table db' !! i = Some g) as Hg'.
      { destruct (decide (i = n)) as [->|Hi].
        - exfalso. apply Hother. rewrite <- Ha. exact (Hfree g Hg).
        - apply Hold; [exact Hi|]. split; [exact Hg|congruence]. }
      apply (findFileByAutoId_unique other db' i); [|exact Hg'|exact Ha].
      intros j h Hh Hha. f_equal.
      assert (i = j) by (apply (Huniq' i j g h Hg' Hh); congruence).
      subst j. congruence.
    + apply findFileByAutoId_None. intros i g Hg Ha.
      destruct (decide (i = n)) as [->|Hi].
      * rewrite Hnew in Hg. injection Hg as <-. cbn in Ha. congruence.
      * apply Hold in Hg as [Hg _]; [|exact Hi].
        exact (proj1 (findFileByAutoId_None _ _) E i g Hg Ha).
Qed.

End Files_properties.

(* ===================================================================== *)
(** * The further properties on the example database *)
(* ===================================================================== *)

(** A row stored in [db] under the id [i] is one of its three rows. *)
Ltac stored i H :=
  destruct (decide (i = 1000%Z)) as [->|?];
  [|destruct (decide (i = 1001%Z)) as [->|?];
    [|destruct (decide (i = 1002%Z)) as [->|?];
      [|exfalso; unfold db in H; cbn [autos] in H;
        rewrite !lookup_insert_ne, lookup_empty in H by congruence;
        discriminate H]]];
  vm_compute in H; injection H as <-.

(** X2 on the first page of [db] and on a page behind its last row. *)
Lemma find_without_filter_lists_the_table_witness :
  (find_ None page0 db).1 =
    Return {| content := as_found <$> [bmw; audi; alt];
              totalElements := 3 |} /\
  (find_ (Some []) {| number := 1; size := 5 |} db).1 =
    Throw (NotFoundException (UngueltigeSeite 1)).
Proof.
  split.
  - apply (find_without_filter_lists_the_table new_Date Number_toString
             db None page0 (or_introl eq_refl)).
    + discriminate.
    + vm_compute. lia.
  - apply (find_without_filter_lists_the_table new_Date Number_toString
             db (Some []) {| number := 1; size := 5 |} (or_intror eq_refl)).
    right. vm_compute. lia.
Defined.

(** X3 on the filter [{ modell: "bm" }]. *)
Lemma find_returns_matching_rows_witness :
  nach_modell <> [] /\
  (find_ (Some nach_modell) page0 db).1 =
    Return {| content := [bmw]; totalElements := 3 |} /\
  (1 <= length [bmw] <= 5)%nat /\
  exists where_,
    build new_Date Number_toString nach_modell = inr where_ /\
    forall a, In a [bmw] ->
      exists i r,
        autos db !! i = Some r /\ matches where_ r = true /\
        a = as_found r.
Proof.
  assert (nach_modell <> []) as H1 by discriminate.
  assert (find_ (Some nach_modell) page0 db =
          (Return {| content := [bmw]; totalElements := 3 |},
           (find_ (Some nach_modell) page0 db).2)) as H2 by evaluate.
  split; [exact H1|]. split; [now rewrite H2|].
  exact (find_returns_matching_rows new_Date Number_toString db _
           nach_modell page0 _ H1 H2).
Defined.

(** X4 on a filter that no row matches. *)
Lemma find_not_found_for_empty_page_witness :
  Sample.nach_xyz <> [] /\
  checkKeys Sample.nach_xyz.*1 = true /\
  checkEnums Sample.nach_xyz = true /\
  build new_Date Number_toString Sample.nach_xyz = inr Sample.where_xyz /\
  where_ok Sample.where_xyz = true /\
  List.filter (matches Sample.where_xyz) (rows db) = [] /\
  (find_ (Some Sample.nach_xyz) page0 db).1 =
    Throw (NotFoundException (KeineAutosGefunden Sample.nach_xyz 0)).
Proof.
  assert (Sample.nach_xyz <> []) as H1 by discriminate.
  assert (checkKeys Sample.nach_xyz.*1 = true) as H2 by evaluate.
  assert (checkEnums Sample.nach_xyz = true) as H3 by evaluate.
  assert (build new_Date Number_toString Sample.nach_xyz =
          inr Sample.where_xyz) as H4 by evaluate.
  assert (where_ok Sample.where_xyz = true) as H5 by evaluate.
  assert (List.filter (matches Sample.where_xyz) (rows db) = []) as H6
    by evaluate.
  split; [exact H1|]. split; [exact H2|]. split; [exact H3|].
  split; [exact H4|]. split; [exact H5|]. split; [exact H6|].
  destruct (find_not_found_for_empty_page new_Date Number_toString db
              Sample.nach_xyz page0 Sample.where_xyz H1 H2 H3 H4 H5)
    as (Ha & Hb & _).
  exact (Hb (Ha H6)).
Defined.

(** X5 on a body with the price 0.125 and the discount 5.5: the row
    read back has the price 0.13 and the discount 5. *)
Lemma create_then_findById_witness :
  let a := autoDtoToAutoCreateInput new_Date (Sample.bruch "1-0200-6") in
  let w' := (create_ a db).2 in
  create_ a db = (Return (of_Z 1003), w') /\
  created_row 1003 a = Some Sample.bruch_neu /\
  (findById 1003 true w').1 = Return Sample.bruch_neu /\
  forall i, i <> 1003%Z -> autos w' !! i = autos db !! i.
Proof.
  intros a w'.
  assert (create_ a db = (Return (of_Z 1003), w')) as H1 by evaluate.
  split; [exact H1|].
  destruct (create_then_findById schema_constraints db w' a (of_Z 1003) H1)
    as (r & Hr & _ & _ & Hfind & Hother).
  assert (r = Sample.bruch_neu) as ->
    by (vm_compute in Hr; now injection Hr as <-).
  split; [exact Hr|]. split; [exact Hfind|exact Hother].
Defined.

(** X6 on a created row and on a refused one. *)
Lemma create_sends_mail_iff_created_witness :
  let a := autoDtoToAutoCreateInput new_Date (neues_auto "1-0100-6") in
  let b := autoDtoToAutoCreateInput new_Date (neues_auto "1-0001-6") in
  mails (create_ a db).2 = [sendmail (of_Z 1003) "POSTMODELL"] /\
  (create_ b db).1 = Throw (FgnrExistsException "1-0001-6") /\
  mails (create_ b db).2 = [].
Proof.
  intros a b.
  assert (create_ a db = (Return (of_Z 1003), (create_ a db).2)) as H1
    by evaluate.
  assert (create_ b db =
          (Throw (FgnrExistsException "1-0001-6"), (create_ b db).2)) as H2
    by evaluate.
  split; [|split; [now rewrite H2|]].
  - destruct (proj1 (create_sends_mail_iff_created schema_constraints db a)
                _ _ H1) as (r & _ & Hm).
    exact Hm.
  - exact (proj2 (create_sends_mail_iff_created schema_constraints db b)
             _ _ H2).
Defined.

(** X7 on a chassis number that [db] does not have. *)
Lemma create_succeeds_for_new_fgnr_witness :
  let a := autoDtoToAutoCreateInput new_Date (neues_auto "1-0100-6") in
  (forall i s, autos db !! i = Some s ->
               Some (fgnr s) <> AutoCreate.fgnr a) /\
  created_row (next_id db) a = Some neu /\
  autos db !! next_id db = None /\
  schema_constraints (autos db) neu = true /\
  exists w',
    create_ a db = (Return (of_Z 1003), w') /\
    autos w' = <[1003%Z := neu]> (autos db).
Proof.
  intros a.
  assert (forall i s, autos db !! i = Some s ->
                      Some (fgnr s) <> AutoCreate.fgnr a) as H1.
  { intros i s H. stored i H; discriminate. }
  assert (created_row (next_id db) a = Some neu) as H2 by evaluate.
  assert (autos db !! next_id db = None) as H3 by evaluate.
  assert (schema_constraints (autos db) neu = true) as H4 by evaluate.
  split; [exact H1|]. split; [exact H2|]. split; [exact H3|].
  split; [exact H4|].
  exact (create_succeeds_for_new_fgnr schema_constraints db a neu
           H1 H2 H3 H4).
Defined.

(** X8 on an id that [db] does not have. *)
Lemma update_error_precedence_witness :
  test_anchored_start VERSION_PATTERN "abc" = false /\
  test_anchored_start VERSION_PATTERN (quoted "0") = true /\
  autos db !! 4711%Z = None /\
  update_ (params 4711 "abc") db =
    (Throw (VersionInvalidException "abc"), db) /\
  update_ (params 4711 (quoted "0")) db =
    (Throw (NotFoundException (KeinAutoMitDerId (Some 4711%Z))),
     log (auto_findUnique 4711) db).
Proof.
  assert (test_anchored_start VERSION_PATTERN "abc" = false) as H1
    by evaluate.
  assert (test_anchored_start VERSION_PATTERN (quoted "0") = true) as H2
    by evaluate.
  assert (autos db !! 4711%Z = None) as H3 by evaluate.
  split; [exact H1|]. split; [exact H2|]. split; [exact H3|]. split.
  - exact (proj1 (proj2 (update_error_precedence schema_constraints db
                           daten "abc")) 4711%Z H1).
  - exact (proj2 (proj2 (update_error_precedence schema_constraints db
                           daten (quoted "0"))) 4711%Z H2 H3).
Defined.

(** X9 on row 1001 and data that ask for version 42. *)
Lemma update_overrides_supplied_version_witness :
  let p := {| UpdateParams.id := Some 1001%Z;
              UpdateParams.auto := AutoUpdate.with_version (set 42) daten;
              UpdateParams.version := quoted "0" |} in
  update_ p db = update_ (params 1001 (quoted "0")) db /\
  (update_ p db).1 = Return (of_Z 1) /\
  autos (update_ p db).2 !! 1001%Z = Some audi_neu.
Proof.
  intros p.
  destruct (update_overrides_supplied_version schema_constraints db
              (Some 1001%Z) daten (quoted "0") (set 42)) as [H _].
  split; [exact H|]. split; evaluate.
Defined.

(** X10 on a [create] and an [update] that [db] refuses. *)
Lemma failed_write_leaves_the_table_witness :
  let b := autoDtoToAutoCreateInput new_Date (neues_auto "1-0001-6") in
  (create_ b db).1 = Throw (FgnrExistsException "1-0001-6") /\
  autos (create_ b db).2 = autos db /\
  (update_ (params 1000 (quoted "2")) db).1 =
    Throw (VersionOutdatedException (of_Z 2)) /\
  autos (update_ (params 1000 (quoted "2")) db).2 = autos db.
Proof.
  intros b.
  assert (create_ b db =
          (Throw (FgnrExistsException "1-0001-6"), (create_ b db).2)) as H1
    by evaluate.
  assert (update_ (params 1000 (quoted "2")) db =
          (Throw (VersionOutdatedException (of_Z 2)),
           (update_ (params 1000 (quoted "2")) db).2)) as H2 by evaluate.
  destruct (failed_write_leaves_the_table schema_constraints db)
    as (Hc & Hu & _).
  split; [now rewrite H1|]. split; [exact (Hc _ _ _ H1)|].
  split; [now rewrite H2|]. exact (Hu _ _ _ H2).
Defined.

(** X11 on row 1001 with version 0. *)
Lemma update_never_lowers_a_version_witness :
  autos db !! 1001%Z = Some audi /\
  exists r',
    autos (update_ (params 1001 (quoted "0")) db).2 !! 1001%Z = Some r' /\
    (0 <= version r' <= 0 + 1)%Z.
Proof.
  assert (autos db !! 1001%Z = Some audi) as H1 by evaluate.
  split; [exact H1|].
  exact (proj1 (update_never_lowers_a_version schema_constraints db
                  (params 1001 (quoted "0")) 1001%Z) audi H1).
Defined.

(** X12 on [db]. *)
Lemma create_keeps_fgnr_unique_witness :
  let a := autoDtoToAutoCreateInput new_Date (neues_auto "1-0100-6") in
  fgnr_unique (autos db) /\ fgnr_unique (autos (create_ a db).2).
Proof.
  intros a.
  assert (fgnr_unique (autos db)) as H1.
  { intros i j r s Hi Hj Hf. stored i Hi; stored j Hj;
      first [reflexivity|discriminate Hf]. }
  split; [exact H1|].
  exact (create_keeps_fgnr_unique schema_constraints db a H1).
Defined.

(** X13 on [db] and an update that takes the chassis number of another
    row. *)
Lemma update_keeps_schema_constraints_witness :
  let p := {| UpdateParams.id := Some 1001%Z;
              UpdateParams.auto :=
                {| AutoUpdate.version := None;
                   AutoUpdate.fgnr := Some "1-0001-6";
                   AutoUpdate.art := None; AutoUpdate.preis := None;
                   AutoUpdate.rabatt := None; AutoUpdate.lieferbar := None;
                   AutoUpdate.datum := None;
                   AutoUpdate.schlagwoerter := None |};
              UpdateParams.version := quoted "0" |} in
  fgnr_unique (autos db) /\
  (forall i r, autos db !! i = Some r -> (0 <= rabatt r <= 100)%Z) /\
  fgnr_unique (autos (update schema_constraints p db).2) /\
  (forall i r, autos (update schema_constraints p db).2 !! i = Some r ->
               (0 <= rabatt r <= 100)%Z).
Proof.
  intros p.
  assert (fgnr_unique (autos db)) as H1.
  { intros i j r s Hi Hj Hf. stored i Hi; stored j Hj;
      first [reflexivity|discriminate Hf]. }
  assert (forall i r, autos db !! i = Some r -> (0 <= rabatt r <= 100)%Z)
    as H2.
  { intros i r Hi. stored i Hi; vm_compute; split; discriminate. }
  split; [exact H1|]. split; [exact H2|].
  exact (update_keeps_schema_constraints db p H1 H2).
Defined.

(** X14 on two orders of the same search parameters. *)
Lemma build_order_independent_witness :
  NoDup Sample.modell_fgnr.*1 /\
  Sample.modell_fgnr ≡ₚ Sample.fgnr_modell /\
  build new_Date Number_toString Sample.fgnr_modell =
    build new_Date Number_toString Sample.modell_fgnr /\
  checkKeys Sample.fgnr_modell.*1 = checkKeys Sample.modell_fgnr.*1 /\
  checkEnums Sample.fgnr_modell = checkEnums Sample.modell_fgnr.
Proof.
  assert (NoDup Sample.modell_fgnr.*1) as H1.
  { apply (bool_decide_unpack _). evaluate. }
  assert (Sample.modell_fgnr ≡ₚ Sample.fgnr_modell) as H2
    by apply perm_swap.
  split; [exact H1|]. split; [exact H2|].
  exact (build_order_independent new_Date Number_toString
           Sample.modell_fgnr Sample.fgnr_modell H1 H2).
Defined.

(** X15 on search parameters with [lieferbar: true]. *)
Lemma graphql_lieferbar_as_rest_witness :
  NoDup Sample.lieferbare.*1 /\
  get "lieferbar" Sample.lieferbare = VBoolean true /\
  exists suchparameter',
    resolver_suchparameter Number_toString Sample.lieferbare =
      inr suchparameter' /\
    get "lieferbar" suchparameter' = VString "true" /\
    (forall k, k <> "lieferbar" ->
               get k suchparameter' = get k Sample.lieferbare) /\
    suchparameter'.*1 = Sample.lieferbare.*1 /\
    build new_Date Number_toString suchparameter' =
      build new_Date Number_toString Sample.lieferbare /\
    forall where_,
      build new_Date Number_toString Sample.lieferbare = inr where_ ->
      Where.lieferbar where_ = Some true.
Proof.
  assert (NoDup Sample.lieferbare.*1) as H1.
  { apply (bool_decide_unpack _). evaluate. }
  assert (get "lieferbar" Sample.lieferbare = VBoolean true) as H2
    by evaluate.
  split; [exact H1|]. split; [exact H2|].
  exact (graphql_lieferbar_as_rest new_Date Number_toString
           Sample.lieferbare true H1 H2).
Defined.

(** X16 on row 1001 with version 0: the tag is ["0"], then ["1"]. *)
Lemma put_with_the_etag_of_get_witness :
  let put := controller_put schema_constraints new_Date Number_toString in
  let getById := controller_getById Number_toString in
  let dto := neues_auto "1-0002-6" in
  autos db !! 1001%Z = Some audi /\
  (version audi < 1000)%Z /\
  decimal_numeral (Number_toString (of_Z (version audi))) (version audi) /\
  updated_row
    (AutoUpdate.with_version (increment 1)
       (autoDtoToAutoUpdate new_Date dto)) audi = Some Sample.audi_put /\
  schema_constraints (delete 1001%Z (autos db)) Sample.audi_put = true /\
  exists w1 w2 w3,
    getById true 1001%Z None db =
      (Return (ok_auto (quoted "0") (as_found audi)), w1) /\
    getById true 1001%Z (Some (quoted "0")) db = (Return not_modified, w1) /\
    put dto 1001%Z (Some (quoted "0")) w1 =
      (Return (no_content (quoted "1")), w2) /\
    autos w2 = <[1001%Z := Sample.audi_put]> (autos db) /\
    put (neues_auto "9-9999-9") 1001%Z (Some (quoted "0")) w2 =
      (Throw (VersionOutdatedException (of_Z 0)), w3) /\
    autos w3 = autos w2.
Proof.
  intros put getById dto.
  assert (autos db !! 1001%Z = Some audi) as H1 by evaluate.
  assert (version audi < 1000)%Z as H2 by reflexivity.
  assert (decimal_numeral (Number_toString (of_Z (version audi)))
            (version audi)) as H3.
  { split; [reflexivity|]. split; [reflexivity|]. left. reflexivity. }
  assert (updated_row
            (AutoUpdate.with_version (increment 1)
               (autoDtoToAutoUpdate new_Date dto)) audi =
          Some Sample.audi_put) as H4 by evaluate.
  assert (schema_constraints (delete 1001%Z (autos db)) Sample.audi_put =
          true) as H5 by evaluate.
  split; [exact H1|]. split; [exact H2|]. split; [exact H3|].
  split; [exact H4|]. split; [exact H5|].
  exact (put_with_the_etag_of_get schema_constraints new_Date
           Number_toString db 1001%Z audi Sample.audi_put dto
           (neues_auto "9-9999-9") H1 H2 H3 H4 H5).
Defined.

(** X17 on row 1002 with version 1000. *)
Lemma etag_of_version_1000_is_refused_witness :
  let put := controller_put schema_constraints new_Date Number_toString in
  let getById := controller_getById Number_toString in
  autos db !! 1002%Z = Some alt /\
  (1000 <= version alt)%Z /\
  decimal_numeral (Number_toString (of_Z (version alt))) (version alt) /\
  exists w1,
    getById true 1002%Z None db =
      (Return (ok_auto (quoted "1000") (as_found alt)), w1) /\
    put (neues_auto "2-0003-6") 1002%Z (Some (quoted "1000")) w1 =
      (Throw (VersionInvalidException (quoted "1000")), w1).
Proof.
  intros put getById.
  assert (autos db !! 1002%Z = Some alt) as H1 by evaluate.
  assert (1000 <= version alt)%Z as H2 by (vm_compute; discriminate).
  assert (decimal_numeral (Number_toString (of_Z (version alt)))
            (version alt)) as H3.
  { split; [reflexivity|]. split; [reflexivity|]. right. reflexivity. }
  split; [exact H1|]. split; [exact H2|]. split; [exact H3|].
  exact (etag_of_version_1000_is_refused schema_constraints new_Date
           Number_toString db 1002%Z alt (neues_auto "2-0003-6") H1 H2 H3).
Defined.

(** X18 on a PUT for row 1001 with the price 0.125 and the discount
    5.5: the row has the price 0.13 and the discount 5. *)
Lemma put_replaces_the_attributes_witness :
  let put := controller_put schema_constraints new_Date Number_toString in
  let dto := Sample.bruch "1-0002-6" in
  let w' := (put dto 1001%Z (Some (quoted "0")) db).2 in
  put dto 1001%Z (Some (quoted "0")) db =
    (Return (no_content (quoted "1")), w') /\
  autos w' !! 1001%Z = Some Sample.audi_bruch /\
  exists r r',
    autos db !! 1001%Z = Some r /\
    autos w' = <[1001%Z := r']> (autos db) /\
    quoted "1" = etag Number_toString (of_Z (version r + 1)) /\
    version r' = (version r + 1)%Z /\
    id r' = id r /\ modell r' = modell r /\ bilder r' = bilder r /\
    fgnr r' = "1-0002-6" /\
    art r' = None /\
    stored_decimal (Finite (Qmake 1 8)) = Some (preis r') /\
    stored_integer (Finite (Qmake 11 2)) = Some (rabatt r') /\
    lieferbar r' = false /\
    date None = Some (datum r') /\
    schlagwoerter r' = Some [].
Proof.
  intros put dto w'.
  assert (put dto 1001%Z (Some (quoted "0")) db =
          (Return (no_content (quoted "1")), w')) as H1 by evaluate.
  split; [exact H1|]. split; [evaluate|].
  exact (put_replaces_the_attributes schema_constraints new_Date
           Number_toString db w' 1001%Z dto (Some (quoted "0"))
           (quoted "1") H1).
Defined.

(** X20 on a query with [sport=true] and a [schlagwort] of its own. *)
Lemma mapped_query_of_a_request_witness :
  NoDup Sample.sport_query.*1 /\
  mapped_query Sample.sport_query =
    [("modell", VString "bm"); ("schlagwort", VString "SPORT")] /\
  get "modell" (mapped_query Sample.sport_query) = VString "bm" /\
  get "schlagwort" (mapped_query Sample.sport_query) = VString "SPORT".
Proof.
  assert (NoDup Sample.sport_query.*1) as H1.
  { apply (bool_decide_unpack _). evaluate. }
  destruct (mapped_query_of_a_request Sample.sport_query H1)
    as (_ & _ & Hget & Hs).
  split; [exact H1|]. split; [evaluate|]. split; [|exact Hs].
  rewrite Hget; [reflexivity|].
  intros H. apply (bool_decide_pack _) in H. vm_compute in H. exact H.
Defined.

(** X21 on a counting request and on a paging request. *)
Lemma get_count_and_paging_witness :
  let get_ :=
    controller_get new_Date Number_toString Sample.createPageable true in
  get "only" Sample.count_query <> VUndefined /\
  (forall k, k ∈ Sample.page_query.*1 -> k ∈ ["page"; "size"]) /\
  (exists w',
     get_ Sample.count_query db = (Return (get_count 3), w') /\
     autos w' = autos db) /\
  (exists w',
     get_ Sample.page_query db =
     (Return
        (get_page {| content := [as_found alt]; totalElements := 3 |}
           {| number := 1; size := 2 |}), w') /\
     autos w' = autos db).
Proof.
  intros get_.
  assert (get "only" Sample.count_query <> VUndefined) as H1 by discriminate.
  assert (forall k, k ∈ Sample.page_query.*1 -> k ∈ ["page"; "size"]) as H2
    by (intros k H; exact H).
  destruct (get_count_and_paging new_Date Number_toString
              Sample.createPageable db Sample.count_query) as [Hc _].
  destruct (get_count_and_paging new_Date Number_toString
              Sample.createPageable db Sample.page_query) as [_ Hp].
  split; [exact H1|]. split; [exact H2|].
  split; [exact (Hc H1)|].
  destruct (Hp H2) as (w' & Hw & Ha). exists w'. split; [|exact Ha].
  unfold get_. rewrite Hw. f_equal.
Defined.

(** X22 on the URI of a car, with and without a query string. *)
Lemma createBaseUri_strips_query_and_id_witness :
  includes "?" "/rest" = false /\
  includes "?" "1000" = false /\
  includes "/" "1000" = false /\
  includes "?" "x=1" = false /\
  createBaseUri ":3000"
    {| protocol := "https"; hostname := "localhost";
       url := "/rest/1000" |} = "https://localhost:3000/rest" /\
  createBaseUri ":3000"
    {| protocol := "https"; hostname := "localhost";
       url := "/rest/1000?x=1" |} = "https://localhost:3000/rest".
Proof.
  split; [reflexivity|]. split; [reflexivity|]. split; [reflexivity|].
  split; [reflexivity|].
  exact (createBaseUri_strips_query_and_id ":3000" "https" "localhost"
           "/rest" "1000" "x=1" eq_refl eq_refl eq_refl eq_refl).
Defined.

(** The rules of table [auto_file] hold in [Sample.files_db]. *)
Ltac one_file H :=
  unfold Sample.files_db in H; cbn [auto_file_table] in H;
  apply lookup_singleton_Some in H as [<- <-].

(** X23 on a new file for car 1001, which has a file, and on an id
    without a car. *)
Lemma addFile_stores_the_file_witness :
  let addFile_ := addFile Sample.fileTypeFromBuffer in
  auto_table Sample.files_db !! 4711%Z = None /\
  is_Some (auto_table Sample.files_db !! 1001%Z) /\
  auto_file_table Sample.files_db !! auto_file_next_id Sample.files_db =
    None /\
  addFile_ 4711%Z Sample.text "audi.txt" 6%Z Sample.files_db =
    (Throw (NotFoundException (KeinAutoMitDerId (Some 4711%Z))),
     Sample.files_db) /\
  exists db',
    addFile_ 1001%Z Sample.text "audi.txt" 6%Z Sample.files_db =
      (Return Sample.neues_bild, db') /\
    findFileByAutoId 1001 db' = Some Sample.neues_bild /\
    auto_table db' = auto_table Sample.files_db.
Proof.
  intros addFile_.
  assert (auto_table Sample.files_db !! 4711%Z = None) as H1 by evaluate.
  assert (is_Some (auto_table Sample.files_db !! 1001%Z)) as H2
    by (exists audi; evaluate).
  assert (auto_file_table Sample.files_db !!
            auto_file_next_id Sample.files_db = None) as H3 by evaluate.
  destruct (addFile_stores_the_file Sample.fileTypeFromBuffer 4711%Z
              Sample.text "audi.txt" 6%Z Sample.files_db) as [Hmissing _].
  destruct (addFile_stores_the_file Sample.fileTypeFromBuffer 1001%Z
              Sample.text "audi.txt" 6%Z Sample.files_db) as [_ Hstored].
  destruct (Hstored H2 H3) as (db' & Ha & Hf & Ht & _).
  split; [exact H1|]. split; [exact H2|]. split; [exact H3|].
  split; [exact (Hmissing H1)|].
  exists db'. split; [exact Ha|]. split; [exact Hf|exact Ht].
Defined.

(** X24 on the same call. *)
Lemma addFile_keeps_file_constraints_witness :
  let db' :=
    (addFile Sample.fileTypeFromBuffer 1001%Z Sample.text "audi.txt" 6%Z
       Sample.files_db).2 in
  file_constraints Sample.files_db /\
  file_constraints db' /\
  forall other, other <> 1001%Z ->
    findFileByAutoId other db' = findFileByAutoId other Sample.files_db.
Proof.
  intros db'.
  assert (file_constraints Sample.files_db) as H1.
  { split.
    - intros i j f g Hi Hj _. one_file Hi. one_file Hj. reflexivity.
    - intros i f Hi. one_file Hi. exists audi. evaluate. }
  split; [exact H1|].
  exact (addFile_keeps_file_constraints Sample.fileTypeFromBuffer 1001%Z
           Sample.text "audi.txt" 6%Z Sample.files_db H1).
Defined.

(** X25 on a filter with [fgnr] and [modell] and row 1000. *)
Lemma where_clause_meaning_witness :
  let where_ :=
    Where.set_modell (contains_insensitive (VString "bm"))
      (Where.set_fgnr (startsWith (VString "1-")) Where.empty) in
  NoDup Sample.fgnr_modell.*1 /\
  build new_Date Number_toString Sample.fgnr_modell = inr where_ /\
  matches where_ bmw = true /\
  all_plain "1-" = true /\
  all_plain "bm" = true /\
  Js.startsWith "1-" (fgnr bmw) = true /\
  exists m, modell bmw = Some m /\
            includes (toLowerCase "bm") (toLowerCase m) = true.
Proof.
  intros where_.
  assert (NoDup Sample.fgnr_modell.*1) as H1.
  { apply (bool_decide_unpack _). evaluate. }
  assert (build new_Date Number_toString Sample.fgnr_modell = inr where_)
    as H2 by evaluate.
  assert (matches where_ bmw = true) as H3 by evaluate.
  destruct (where_clause_meaning new_Date Number_toString
              Sample.fgnr_modell where_ bmw H1 H2 H3) as (Hf & Hm & _).
  split; [exact H1|]. split; [exact H2|]. split; [exact H3|].
  split; [reflexivity|]. split; [reflexivity|]. split.
  - apply (Hf "1-"); [apply elem_of_cons; now left|reflexivity].
  - destruct (Hm "bm") as (m & Hmod & _ & Hinc).
    { apply elem_of_cons. right. apply elem_of_cons. now left. }
    exists m. split; [exact Hmod|]. now apply Hinc.
Defined.
